(** * The Weaviate client: pagination, HTTP pipeline and GraphQL synthesis

    A shallow embedding of the database client of primrose-mcp-weaviate
    (index.ts, client.ts, utils/pagination.ts, utils/errors.ts,
    types/entities.ts, types/env.ts) and the properties its specification
    states about it.

    Conventions.
    - Text is [string]: the bytes of the JavaScript string in UTF-8, a
      surrogate that stands alone being written as the three bytes of its
      code point (the generalized encoding known as WTF-8).  Every
      JavaScript string has exactly one such text, so equality of strings is
      equality of texts, and wherever the client joins two texts one of them
      is ASCII.
    - A number that counts (an offset, a limit, a status code, a length) is
      an integer ([Z]), the value of a double; sums are rounded as doubles
      are and may overflow to an infinity.  The two zeros are one.  The
      pagination arithmetic is moreover stated over an arbitrary carrier, so
      that its algebraic properties do not depend on that choice.
    - An object whose properties are serialized is a list of its properties
      in their order.
    - An optional property ([x?: T]) is an [option]; a property that is
      there with the value [undefined] is taken as absent, which is how
      every read and every serialization of the client treats it. *)

From Stdlib Require Import ZArith Bool List String Ascii DecimalString Lia.
From Stdlib Require DecimalPos.
Import ListNotations.

Local Open Scope string_scope.
Local Open Scope Z_scope.

(* Json nests under list; its recursion is written out by hand below, so no
   generated scheme is missed. *)
#[local] Set Warnings "-register-all".
(* ================================================================== *)
(** * The JavaScript runtime the client relies on *)
(* ================================================================== *)

Module JS.

(** ** Text *)

Definition dquote : ascii := "034"%char.
Definition backslash : ascii := "092"%char.
Definition newline : ascii := "010"%char.

Definition char (c : ascii) : string := String c EmptyString.

(** The text of the given bytes. *)
Definition bytes (l : list nat) : string := string_of_list_ascii (map ascii_of_nat l).

(** Truthiness of a string: every string but the empty one. *)
Definition truthy_string (s : string) : bool :=
  match s with EmptyString => false | String _ _ => true end.

(** [x || d] for an optional string [x]. *)
Definition string_or (x : option string) (d : string) : string :=
  match x with
  | Some s => if truthy_string s then s else d
  | None => d
  end.

(** [if (x)] for an optional string [x]. *)
Definition present (x : option string) : bool :=
  match x with Some s => truthy_string s | None => false end.

(** [Array.prototype.join] on an array of strings. *)
Definition join (sep : string) (l : list string) : string := String.concat sep l.

Definition hexDigit (upper : bool) (n : nat) : ascii :=
  match n with
  | 0 => "0" | 1 => "1" | 2 => "2" | 3 => "3" | 4 => "4" | 5 => "5"
  | 6 => "6" | 7 => "7" | 8 => "8" | 9 => "9"
  | 10 => if upper then "A" else "a"
  | 11 => if upper then "B" else "b"
  | 12 => if upper then "C" else "c"
  | 13 => if upper then "D" else "d"
  | 14 => if upper then "E" else "e"
  | _ => if upper then "F" else "f"
  end%nat%char.

(** The two hexadecimal digits of a byte. *)
Definition hex2 (upper : bool) (c : ascii) : string :=
  let n := nat_of_ascii c in
  String (hexDigit upper (Nat.div n 16))
    (String (hexDigit upper (Nat.modulo n 16)) EmptyString).

Definition in_range (lo hi : nat) (c : ascii) : bool :=
  let n := nat_of_ascii c in (Nat.leb lo n && Nat.leb n hi)%bool.

Definition isDigit (c : ascii) : bool := in_range 48 57 c.
Definition isAlpha (c : ascii) : bool := (in_range 65 90 c || in_range 97 122 c)%bool.
Definition isAlphaNum (c : ascii) : bool := (isAlpha c || isDigit c)%bool.

Definition one_of (set : string) (c : ascii) : bool :=
  existsb (Ascii.eqb c) (list_ascii_of_string set).

(** Lower case on the ASCII letters, as the Fetch API compares the names of
    headers. *)
Definition toLower (c : ascii) : ascii :=
  if in_range 65 90 c then ascii_of_nat (nat_of_ascii c + 32) else c.

Fixpoint toLowerCase (s : string) : string :=
  match s with
  | EmptyString => EmptyString
  | String c r => String (toLower c) (toLowerCase r)
  end.

Fixpoint flat_map_string (f : ascii -> string) (s : string) : string :=
  match s with
  | EmptyString => EmptyString
  | String c r => f c ++ flat_map_string f r
  end.

(** *** Surrogates

    A surrogate that stands alone is the byte ED, a byte from A0 to BF and
    one more byte; a pair of surrogates is the four bytes of its character
    and never two such triples. *)

Definition startsSurrogate (c : ascii) (r : string) : bool :=
  (Nat.eqb (nat_of_ascii c) 237
   && match r with
      | String d _ => in_range 160 191 d
      | EmptyString => false
      end)%bool.

(** [String.prototype.isWellFormed]: no surrogate stands alone. *)
Fixpoint isWellFormed (s : string) : bool :=
  match s with
  | EmptyString => true
  | String c r => (negb (startsSurrogate c r) && isWellFormed r)%bool
  end.

(** The replacement character U+FFFD. *)
Definition replacement : string := bytes [239; 191; 189]%nat.

(** The conversion to a [USVString] ([String.prototype.toWellFormed]):
    every surrogate that stands alone becomes U+FFFD.  [skip] bytes of an
    encoding already handled are passed over. *)
Fixpoint toWellFormed_from (skip : nat) (s : string) : string :=
  match s with
  | EmptyString => EmptyString
  | String c r =>
      match skip with
      | S k => toWellFormed_from k r
      | O =>
          if startsSurrogate c r then replacement ++ toWellFormed_from 2 r
          else String c (toWellFormed_from 0 r)
      end
  end.

Definition toWellFormed (s : string) : string := toWellFormed_from 0 s.

(** [s.length]: the number of UTF-16 code units, two for a character of
    four bytes, one for any other. *)
Fixpoint codeUnits (s : string) : nat :=
  match s with
  | EmptyString => O
  | String c r =>
      ((if in_range 128 191 c then 0 else if in_range 240 247 c then 2 else 1)
       + codeUnits r)%nat
  end.

(** ** Numbers *)

(** What integer arithmetic and [parseInt] give: an integer that is the
    value of a double, an infinity, or [NaN]. *)
Inductive IntOrNaN : Type :=
| NaN
| Integer (z : Z)
| Infinite (negative : bool).

(** Up to 2^53 every integer is a double. *)
Definition safe : Z := 2 ^ 53.

(** The double nearest to an integer that is not negative: beyond 2^53 the
    53 leading bits are kept and the rest is rounded, a tie going to the
    even neighbour. *)
Definition roundNatural (z : Z) : Z :=
  if z <=? safe then z
  else
    let unit := 2 ^ (Z.log2 z - 52) in
    let q := z / unit in
    let r := z mod unit in
    let half := unit / 2 in
    (if (r <? half) || ((r =? half) && Z.even q) then q else q + 1) * unit.

Definition round (z : Z) : Z :=
  if z <? 0 then - roundNatural (- z) else roundNatural z.

(** The largest double, (2^53 - 1) 2^971. *)
Definition MAX_VALUE : Z := (2 ^ 53 - 1) * 2 ^ 971.

(** The number an exact integer result becomes. *)
Definition toNumber (z : Z) : IntOrNaN :=
  let r := round z in
  if Z.abs r <=? MAX_VALUE then Integer r else Infinite (z <? 0).

(** [x + y] *)
Definition add (x y : IntOrNaN) : IntOrNaN :=
  match x, y with
  | NaN, _ | _, NaN => NaN
  | Integer a, Integer b => toNumber (a + b)
  | Infinite a, Infinite b => if Bool.eqb a b then Infinite a else NaN
  | Infinite a, Integer _ | Integer _, Infinite a => Infinite a
  end.

(** [x < y] *)
Definition ltb (x y : IntOrNaN) : bool :=
  match x, y with
  | NaN, _ | _, NaN => false
  | Integer a, Integer b => a <? b
  | Infinite a, Infinite b => (a && negb b)%bool
  | Infinite a, Integer _ => a
  | Integer _, Infinite b => negb b
  end.

(** The decimal digits of an integer, all of them. *)
Definition decimal (z : Z) : string := NilZero.string_of_int (Z.to_int z).

(** *** The digits [String(n)] writes

    [Number::toString] writes the fewest digits that still denote the
    number: an integer [v] with as many trailing zeros as possible among
    those that round to the double, the closest of them. *)

(** The multiple of [10^j] that rounds to the double [x] (above 2^53) and
    is closest to it, if there is one.  Twice the values are compared, the
    middle between 2^53 and its predecessor being a half. *)
Definition candidate (x j : Z) : option Z :=
  let unit := 2 ^ (Z.log2 x - 52) in
  let q := x / unit in
  let above := unit in
  let below := if q =? 2 ^ 52 then unit / 2 else unit in
  let closed := Z.even q in
  let admissible v :=
    if closed then ((2 * x - below <=? 2 * v) && (2 * v <=? 2 * x + above))%bool
    else ((2 * x - below <? 2 * v) && (2 * v <? 2 * x + above))%bool in
  let p := 10 ^ j in
  let v0 := x / p * p in
  let v1 := v0 + p in
  match admissible v0, admissible v1 with
  | true, true =>
      if x - v0 <? v1 - x then Some v0
      else if v1 - x <? x - v0 then Some v1
      else if Z.even (x / p) then Some v0 else Some v1
  | true, false => Some v0
  | false, true => Some v1
  | false, false => None
  end.

Fixpoint shortestFrom (fuel : nat) (x j found : Z) : Z :=
  match fuel with
  | O => found
  | S fuel' =>
      match candidate x (j + 1) with
      | Some v => shortestFrom fuel' x (j + 1) v
      | None => found
      end
  end.

(** The integer whose digits are written for the double [x], above 2^53:
    no double has more than 309 digits. *)
Definition shortest (x : Z) : Z := shortestFrom 310 x 0 x.

Fixpoint dropTrailingZeros_from (zeros : string) (s : string) : string :=
  match s with
  | EmptyString => EmptyString
  | String c r =>
      if Ascii.eqb c "0" then dropTrailingZeros_from (String c zeros) r
      else zeros ++ String c (dropTrailingZeros_from EmptyString r)
  end.

(** The digits without the zeros they end with. *)
Definition dropTrailingZeros (s : string) : string := dropTrailingZeros_from EmptyString s.

(** The exponent form: one digit, the others after a point if there are
    any, and the exponent with its sign. *)
Definition exponential (digits : string) : string :=
  match dropTrailingZeros digits with
  | EmptyString => "0"
  | String d rest =>
      String d (match rest with EmptyString => EmptyString | _ => "." ++ rest end)
      ++ "e+" ++ decimal (Z.of_nat (String.length digits) - 1)
  end.

(** [String(n)] for an integer (the value of a double): all its digits up
    to 2^53; beyond, the digits of [shortest]; from 10^21 on, in exponent
    form. *)
Definition String_of_Z (z : Z) : string :=
  if Z.abs z <=? safe then decimal z
  else
    let v := shortest (Z.abs z) in
    (if z <? 0 then "-" else EmptyString)
    ++ (if v <? 10 ^ 21 then decimal v else exponential (decimal v)).

(** [String(n)] *)
Definition String_of (n : IntOrNaN) : string :=
  match n with
  | NaN => "NaN"
  | Integer z => String_of_Z z
  | Infinite false => "Infinity"
  | Infinite true => "-Infinity"
  end.

(** A JavaScript number as a value of JSON or of a parameter: an integer; a
    number that is not an integer, carried by its canonical decimal
    rendering (the text [Number.prototype.toString] gives for it, which
    determines it); an infinity; [NaN]. *)
Inductive number : Type :=
| Int (z : Z)
| Dec (text : string)
| Infinity (negative : bool)
| NotANumber.

Definition Number_toString (n : number) : string :=
  match n with
  | Int z => String_of_Z z
  | Dec text => text
  | Infinity false => "Infinity"
  | Infinity true => "-Infinity"
  | NotANumber => "NaN"
  end.

(** Truthiness of a number: every number but zero and [NaN]. *)
Definition truthy_number (n : number) : bool :=
  match n with
  | Int z => negb (z =? 0)
  | Dec _ | Infinity _ => true
  | NotANumber => false
  end.

Definition isFinite (n : number) : bool :=
  match n with
  | Int _ | Dec _ => true
  | Infinity _ | NotANumber => false
  end.

(** [x || d] for an optional integer [x]: zero counts as absent. *)
Definition Z_or (x : option Z) (d : Z) : Z :=
  match x with
  | Some z => if z =? 0 then d else z
  | None => d
  end.

(** The characters [parseInt] skips: white space and line terminators
    (TAB, LF, VT, FF, CR, SP, U+00A0, U+1680, U+2000 to U+200A, U+2028,
    U+2029, U+202F, U+205F, U+3000, U+FEFF), as their bytes. *)
Definition whiteSpaces : list string :=
  [ bytes [9]%nat; bytes [10]%nat; bytes [11]%nat; bytes [12]%nat; bytes [13]%nat; bytes [32]%nat;
    bytes [194; 160]%nat; bytes [225; 154; 128]%nat;
    bytes [226; 128; 128]%nat; bytes [226; 128; 129]%nat; bytes [226; 128; 130]%nat;
    bytes [226; 128; 131]%nat; bytes [226; 128; 132]%nat; bytes [226; 128; 133]%nat;
    bytes [226; 128; 134]%nat; bytes [226; 128; 135]%nat; bytes [226; 128; 136]%nat;
    bytes [226; 128; 137]%nat; bytes [226; 128; 138]%nat;
    bytes [226; 128; 168]%nat; bytes [226; 128; 169]%nat; bytes [226; 128; 175]%nat;
    bytes [226; 129; 159]%nat; bytes [227; 128; 128]%nat; bytes [239; 187; 191]%nat ].

(** How many bytes the white space character takes that the text starts
    with; zero when it starts with none. *)
Definition whiteSpaceAhead (s : string) : nat :=
  match find (fun w => String.prefix w s) whiteSpaces with
  | Some w => String.length w
  | None => O
  end.

Fixpoint trimStart_from (skip : nat) (s : string) : string :=
  match s with
  | EmptyString => EmptyString
  | String c r =>
      match skip with
      | S k => trimStart_from k r
      | O =>
          match whiteSpaceAhead s with
          | O => s
          | S k => trimStart_from k r
          end
      end
  end.

Definition trimStart (s : string) : string := trimStart_from 0 s.

Definition digitValue (c : ascii) : option Z :=
  if isDigit c then Some (Z.of_nat (nat_of_ascii c) - 48) else None.

(** The value of the longest prefix of decimal digits; [acc] is [None]
    until a digit has been read. *)
Fixpoint parseDigits (acc : option Z) (s : string) : option Z :=
  match s with
  | String c r =>
      match digitValue c with
      | Some d =>
          parseDigits
            (Some (10 * (match acc with Some a => a | None => 0 end) + d)) r
      | None => acc
      end
  | EmptyString => acc
  end.

(** [parseInt(s, 10)]: skip leading white space, read a sign, read the
    longest run of decimal digits; [NaN] when there is no digit, and
    otherwise the number the integer read becomes. *)
Definition parseInt (s : string) : IntOrNaN :=
  let s1 := trimStart s in
  let '(sign, s2) :=
    match s1 with
    | String "-" r => (-1, r)
    | String "+" r => (1, r)
    | _ => (1, s1)
    end in
  match parseDigits None s2 with
  | Some n => toNumber (sign * n)
  | None => NaN
  end.

(** ** JSON values *)

(** A value as [JSON.parse] gives it and as [JSON.stringify] walks it; an
    object is its properties in their order. *)
Inductive Json : Type :=
| JNull
| JBool (b : bool)
| JNumber (n : number)
| JString (s : string)
| JArray (elements : list Json)
| JObject (members : list (string * Json)).

(** Property read [o.key] on an object: [None] is [undefined]. *)
Fixpoint lookup (key : string) (members : list (string * Json)) : option Json :=
  match members with
  | [] => None
  | (k, v) :: rest =>
      (* the last of several equal keys wins in JSON.parse *)
      match lookup key rest with
      | Some v' => Some v'
      | None => if String.eqb k key then Some v else None
      end
  end.

(** Property read on a parsed value that is neither [undefined] nor
    [null], for the keys the client reads by name (error, message, name,
    nodes, objects, totalResults, version, hostname): only an object has
    such a property. *)
Definition get (key : string) (v : Json) : option Json :=
  match v with
  | JObject members => lookup key members
  | _ => None
  end.

(** [v.length] on a parsed value that is neither [undefined] nor [null]:
    the number of elements of an array, the number of code units of a
    string, the property of that name of an object, [undefined] on a
    boolean and on a number. *)
Definition lengthOf (v : Json) : option Json :=
  match v with
  | JArray elements => Some (JNumber (Int (Z.of_nat (List.length elements))))
  | JString s => Some (JNumber (Int (Z.of_nat (codeUnits s))))
  | JObject members => lookup "length" members
  | JNull | JBool _ | JNumber _ => None
  end.

(** [x === n] for a value [x] that was read and an integer [n]. *)
Definition strictEquals (x : option Json) (n : Z) : bool :=
  match x with
  | Some (JNumber (Int m)) => m =? n
  | _ => false
  end.

Definition truthy (v : Json) : bool :=
  match v with
  | JNull => false
  | JBool b => b
  | JNumber n => truthy_number n
  | JString s => truthy_string s
  | JArray _ | JObject _ => true
  end.

(** [QuoteJSONString] on one byte: the quote, the backslash and the control
    characters are escaped. *)
Definition escapeChar (c : ascii) : string :=
  let n := nat_of_ascii c in
  if Nat.eqb n 8 then String backslash "b"
  else if Nat.eqb n 9 then String backslash "t"
  else if Nat.eqb n 10 then String backslash "n"
  else if Nat.eqb n 12 then String backslash "f"
  else if Nat.eqb n 13 then String backslash "r"
  else if Nat.eqb n 34 then String backslash (char dquote)
  else if Nat.eqb n 92 then String backslash (char backslash)
  else if Nat.ltb n 32 then String backslash ("u00" ++ hex2 false c)
  else char c.

(** The escape of the surrogate whose second and third bytes lead [r]: its
    code unit, D800 to DFFF, in four hexadecimal digits. *)
Definition escapeSurrogate (r : string) : string :=
  match r with
  | String c2 (String c3 _) =>
      let n := (Nat.modulo (nat_of_ascii c2) 64 * 64 + Nat.modulo (nat_of_ascii c3) 64)%nat in
      String backslash
        (String "u" (String "d"
           (String (hexDigit false (Nat.div n 256))
              (hex2 false (ascii_of_nat (Nat.modulo n 256))))))
  | _ => EmptyString
  end.

(** [QuoteJSONString] between the quotes: a surrogate that stands alone is
    escaped as a whole. *)
Fixpoint escape_from (skip : nat) (s : string) : string :=
  match s with
  | EmptyString => EmptyString
  | String c r =>
      match skip with
      | S k => escape_from k r
      | O =>
          if startsSurrogate c r then escapeSurrogate r ++ escape_from 2 r
          else escapeChar c ++ escape_from 0 r
      end
  end.

Definition quote (s : string) : string :=
  String dquote (escape_from 0 s ++ char dquote).

(** [JSON.stringify] without indentation; a number that is not finite is
    written [null]. *)
Fixpoint JSON_stringify (v : Json) : string :=
  match v with
  | JNull => "null"
  | JBool true => "true"
  | JBool false => "false"
  | JNumber n => if isFinite n then Number_toString n else "null"
  | JString s => quote s
  | JArray elements => "[" ++ join "," (map JSON_stringify elements) ++ "]"
  | JObject members =>
      "{" ++ join "," (map (fun kv => quote (fst kv) ++ ":" ++ JSON_stringify (snd kv))
                           members) ++ "}"
  end.

(** [JSON.stringify] of an array of strings. *)
Definition JSON_stringify_strings (l : list string) : string :=
  JSON_stringify (JArray (map JString l)).

(** All the texts, if each is there. *)
Fixpoint sequence (l : list (option string)) : option (list string) :=
  match l with
  | [] => Some []
  | Some s :: rest =>
      match sequence rest with
      | Some ss => Some (s :: ss)
      | None => None
      end
  | None :: _ => None
  end.

(** [ToString] on a parsed value, as the [Error] constructor and a
    template literal apply it; [None] is the [TypeError] that no primitive
    value can be had.  An array joins the texts of its elements, [null]
    counting as empty.  An object has the text of [Object.prototype.toString]
    unless a property of its own is named toString: that is no function,
    and [valueOf] gives no primitive value either. *)
Fixpoint ToString (v : Json) : option string :=
  match v with
  | JNull => Some "null"
  | JBool true => Some "true"
  | JBool false => Some "false"
  | JNumber n => Some (Number_toString n)
  | JString s => Some s
  | JArray elements =>
      option_map (join ",")
        (sequence (map (fun e => match e with
                                 | JNull => Some EmptyString
                                 | _ => ToString e
                                 end) elements))
  | JObject members =>
      if existsb (fun kv => String.eqb (fst kv) "toString") members then None
      else Some "[object Object]"
  end.

(** ** URLs *)

(** Every byte is percent-encoded but the unreserved ones. *)
Definition percentEncode (s : string) : string :=
  flat_map_string
    (fun c => if (isAlphaNum c || one_of "-_.!~*'()" c)%bool
              then char c else String "%" (hex2 true c)) s.

(** [encodeURIComponent]: the bytes percent-encoded; [None] is the
    [URIError] thrown for a surrogate that stands alone. *)
Definition encodeURIComponent (s : string) : option string :=
  if isWellFormed s then Some (percentEncode s) else None.

(** The application/x-www-form-urlencoded byte serializer. *)
Definition formEncode (s : string) : string :=
  flat_map_string
    (fun c => if (isAlphaNum c || one_of "*-._" c)%bool then char c
              else if Ascii.eqb c " " then "+"
              else String "%" (hex2 true c)) s.

(** [URLSearchParams]: an ordered list of name-value pairs of
    [USVString]s. *)
Definition URLSearchParams : Type := list (string * string).

Fixpoint dropName (name : string) (q : URLSearchParams) : URLSearchParams :=
  match q with
  | [] => []
  | (k, v) :: rest =>
      if String.eqb k name then dropName name rest else (k, v) :: dropName name rest
  end.

(** The list operation of [set]: the first pair of that name takes the
    value and the others of that name go; a new name is appended. *)
Fixpoint setPair (name value : string) (q : URLSearchParams) : URLSearchParams :=
  match q with
  | [] => [(name, value)]
  | (k, v) :: rest =>
      if String.eqb k name then (k, value) :: dropName name rest
      else (k, v) :: setPair name value rest
  end.

(** [set]: both arguments are converted to [USVString]s first. *)
Definition set (name value : string) (q : URLSearchParams) : URLSearchParams :=
  setPair (toWellFormed name) (toWellFormed value) q.

Definition URLSearchParams_toString (q : URLSearchParams) : string :=
  join "&" (map (fun kv => formEncode (fst kv) ++ "=" ++ formEncode (snd kv)) q).

(** [str.replace(/\/$/, '')]: one trailing slash removed. *)
Fixpoint stripTrailingSlash (s : string) : string :=
  match s with
  | EmptyString => EmptyString
  | String c r =>
      match r with
      | EmptyString => if Ascii.eqb c "/" then EmptyString else s
      | String _ _ => String c (stripTrailingSlash r)
      end
  end.

End JS.

(* ================================================================== *)
(** * Pagination (utils/pagination.ts) *)
(* ================================================================== *)

Module Pagination.

(** [PaginatedResponse<T>] of types/entities.ts.  It is declared with
    [items: T[]], [count: number] and [total?: number]; what is stored is
    whatever the producer was given, so the three types are parameters: a
    list, a natural number and an integer where the declaration holds. *)
Record PaginatedResponse (Items Count Total : Type) : Type := mkPaginatedResponse {
  items : Items;
  count : Count;
  total : option Total;
  hasMore : bool;
  nextCursor : option string
}.
Arguments mkPaginatedResponse {Items Count Total}.
Arguments items {Items Count Total}.
Arguments count {Items Count Total}.
Arguments total {Items Count Total}.
Arguments hasMore {Items Count Total}.
Arguments nextCursor {Items Count Total}.

(** The [options] argument of [createPaginatedResponse]. *)
Record PageOptions (Total : Type) : Type := mkPageOptions {
  opt_total : option Total;
  opt_hasMore : option bool;
  opt_nextCursor : option string
}.
Arguments mkPageOptions {Total}.
Arguments opt_total {Total}.
Arguments opt_hasMore {Total}.
Arguments opt_nextCursor {Total}.

(** The default value of [options], the empty object. *)
Definition noOptions {Total : Type} : PageOptions Total := mkPageOptions None None None.

Definition emptyPaginatedResponse {T Total : Type} : PaginatedResponse (list T) nat Total :=
  {| items := [];
     count := O;
     total := None;
     hasMore := false;
     nextCursor := None |}.

(** [length] is the read of [items.length]: [List.length] on an array. *)
Definition createPaginatedResponse {Items Count Total : Type} (length : Items -> Count)
    (items : Items) (options : PageOptions Total) : PaginatedResponse Items Count Total :=
  {| items := items;
     count := length items;
     total := opt_total options;
     hasMore := match opt_hasMore options with Some b => b | None => false end;
     nextCursor := opt_nextCursor options |}.

Section Arithmetic.
(** The carrier of JavaScript numbers with its [+] and [<]. *)
Context {number : Type}.
Variable add : number -> number -> number.
Variable ltb : number -> number -> bool.

Definition hasMoreItems (offset limit total : number) : bool :=
  ltb (add offset limit) total.

Definition getNextOffset (currentOffset limit total : number) : option number :=
  let next := add currentOffset limit in
  if ltb next total then Some next else None.
End Arithmetic.

End Pagination.

(* ================================================================== *)
(** * The error taxonomy (utils/errors.ts) *)
(* ================================================================== *)

Module Errors.
Import JS.

(** An instance of [WeaviateApiError] or of one of its subclasses: the
    fields the base class declares, and the payload a subclass adds. *)
Record Error : Type := mkError {
  name : string;
  message : string;
  statusCode : option Z;
  code : string;
  retryable : bool;
  retryAfterSeconds : option IntOrNaN;           (* RateLimitError *)
  details : option (list (string * list string)) (* ValidationError *)
}.

Definition WeaviateApiError (message : string) (statusCode : option Z)
    (code : option string) (retryable : bool) : Error :=
  {| name := "WeaviateApiError";
     message := message;
     statusCode := statusCode;
     code := string_or code "WEAVIATE_ERROR";
     retryable := retryable;
     retryAfterSeconds := None;
     details := None |}.

(** A subclass constructor: [super(...)], then [this.name = ...]. *)
Definition subclass (name : string) (super : Error) : Error :=
  {| name := name;
     message := message super;
     statusCode := statusCode super;
     code := code super;
     retryable := retryable super;
     retryAfterSeconds := retryAfterSeconds super;
     details := details super |}.

Definition RateLimitError (message : string) (retryAfterSeconds : IntOrNaN) : Error :=
  let this :=
    subclass "RateLimitError"
      (WeaviateApiError message (Some 429) (Some "RATE_LIMIT_EXCEEDED") true) in
  {| name := name this;
     message := Errors.message this;
     statusCode := statusCode this;
     code := code this;
     retryable := retryable this;
     retryAfterSeconds := Some retryAfterSeconds;
     details := details this |}.

Definition AuthenticationError (message : string) : Error :=
  subclass "AuthenticationError"
    (WeaviateApiError message (Some 401) (Some "AUTHENTICATION_FAILED") false).

Definition NotFoundError (entityType id : string) : Error :=
  subclass "NotFoundError"
    (WeaviateApiError (entityType ++ " with ID '" ++ id ++ "' not found")
       (Some 404) (Some "NOT_FOUND") false).

Definition ValidationError (message : string)
    (details : list (string * list string)) : Error :=
  let this :=
    subclass "ValidationError"
      (WeaviateApiError message (Some 400) (Some "VALIDATION_ERROR") false) in
  {| name := name this;
     message := Errors.message this;
     statusCode := statusCode this;
     code := code this;
     retryable := retryable this;
     retryAfterSeconds := retryAfterSeconds this;
     details := Some details |}.

Definition SchemaError (message : string) : Error :=
  subclass "SchemaError"
    (WeaviateApiError message (Some 422) (Some "SCHEMA_ERROR") false).

(** What a JavaScript [throw] carries here: one of the typed errors above,
    or an error of the runtime ([TypeError] of a failed [fetch], of a
    property read on [undefined] or of a value without a primitive value,
    [SyntaxError] of [JSON.parse], [URIError] of [encodeURIComponent]). *)
Inductive Exn : Type :=
| Typed (e : Error)
| Native (name message : string).

(** [error.message] *)
Definition exn_message (e : Exn) : string :=
  match e with
  | Typed e => message e
  | Native _ m => m
  end.

(** The [TypeError] of reading property [prop] of [undefined] or [null]. *)
Definition TypeError_read (holder prop : string) : Exn :=
  Native "TypeError"
    ("Cannot read properties of " ++ holder ++ " (reading '" ++ prop ++ "')").

(** The [TypeError] of [ToString] on an object that has no primitive
    value. *)
Definition TypeError_primitive : Exn :=
  Native "TypeError" "Cannot convert object to primitive value".

(** The [URIError] of [encodeURIComponent] on a surrogate that stands
    alone. *)
Definition URIError : Exn := Native "URIError" "URI malformed".

End Errors.

(* ================================================================== *)
(** * Entities (types/entities.ts, types/env.ts) *)
(* ================================================================== *)

Module Entities.
Import JS.

Record TenantCredentials : Type := mkTenantCredentials {
  weaviateUrl : option string;
  apiKey : option string;
  openaiApiKey : option string;
  cohereApiKey : option string;
  huggingfaceApiKey : option string;
  anthropicApiKey : option string;
  azureApiKey : option string
}.

(** [PaginationParams & { include?: string[]; tenant?: string }], the
    [params] of [listObjects]. *)
Record ListParams : Type := mkListParams {
  limit : option Z;
  offset : option Z;
  cursor : option string;
  include : option (list string);
  tenant : option string
}.

(** The thirteen operators of a filter, as the string literals the
    interface lists. *)
Definition operators : list string :=
  [ "And"; "Or"; "Equal"; "NotEqual"; "GreaterThan"; "GreaterThanEqual"; "LessThan";
    "LessThanEqual"; "Like"; "WithinGeoRange"; "IsNull"; "ContainsAny"; "ContainsAll" ].

(** [WhereFilter].  The client hands a filter to [JSON.stringify] and does
    nothing else with it, so a filter is kept as what [JSON.stringify]
    walks: its properties in their order.  What the interface declares of
    them is [isWhereFilter]. *)
Definition WhereFilter : Type := Json.

Definition isNumber (v : Json) : bool := match v with JNumber _ => true | _ => false end.
Definition isBoolean (v : Json) : bool := match v with JBool _ => true | _ => false end.
Definition isString (v : Json) : bool := match v with JString _ => true | _ => false end.

Definition isArrayOf (element : Json -> bool) (v : Json) : bool :=
  match v with JArray l => forallb element l | _ => false end.

(** The names of the properties are distinct, as in every object. *)
Fixpoint distinct (keys : list string) : bool :=
  match keys with
  | [] => true
  | k :: rest => (negb (existsb (String.eqb k) rest) && distinct rest)%bool
  end.

(** An object with exactly the given properties, in any order. *)
Definition isObjectOf (properties : list (string * (Json -> bool))) (v : Json) : bool :=
  match v with
  | JObject members =>
      (distinct (map fst members)
       && Nat.eqb (List.length members) (List.length properties)
       && forallb (fun p => match lookup (fst p) members with
                            | Some x => snd p x
                            | None => false
                            end) properties)%bool
  | _ => false
  end.

(** [valueGeoRange] *)
Definition isGeoRange : Json -> bool :=
  isObjectOf
    [ ("geoCoordinates", isObjectOf [("latitude", isNumber); ("longitude", isNumber)]);
      ("distance", isObjectOf [("max", isNumber)]) ].

(** The type the interface gives the value property of a name; [None] for
    a name that is no value property. *)
Definition valueType (key : string) : option (Json -> bool) :=
  if String.eqb key "valueInt" then Some isNumber
  else if String.eqb key "valueNumber" then Some isNumber
  else if String.eqb key "valueBoolean" then Some isBoolean
  else if String.eqb key "valueString" then Some isString
  else if String.eqb key "valueText" then Some isString
  else if String.eqb key "valueDate" then Some isString
  else if String.eqb key "valueGeoRange" then Some isGeoRange
  else if String.eqb key "valueIntArray" then Some (isArrayOf isNumber)
  else if String.eqb key "valueNumberArray" then Some (isArrayOf isNumber)
  else if String.eqb key "valueBooleanArray" then Some (isArrayOf isBoolean)
  else if String.eqb key "valueStringArray" then Some (isArrayOf isString)
  else if String.eqb key "valueTextArray" then Some (isArrayOf isString)
  else if String.eqb key "valueDateArray" then Some (isArrayOf isString)
  else None.

(** A value of the interface: an object with an operator, whose other
    properties are among operands, path and the value properties, each of
    its declared type. *)
Fixpoint isWhereFilter (w : Json) : bool :=
  match w with
  | JObject members =>
      (distinct (map fst members)
       && existsb (fun kv => String.eqb (fst kv) "operator") members
       && (fix each (ms : list (string * Json)) : bool :=
             match ms with
             | [] => true
             | (k, v) :: rest =>
                 ((if String.eqb k "operator" then
                     match v with
                     | JString s => existsb (String.eqb s) operators
                     | _ => false
                     end
                   else if String.eqb k "operands" then
                     match v with
                     | JArray ops =>
                         (fix all (l : list Json) : bool :=
                            match l with
                            | [] => true
                            | o :: r => (isWhereFilter o && all r)%bool
                            end) ops
                     | _ => false
                     end
                   else if String.eqb k "path" then isArrayOf isString v
                   else match valueType k with
                        | Some type => type v
                        | None => false
                        end)
                  && each rest)%bool
             end) members)%bool
  | _ => false
  end.

(** The [moveTo] and [moveAwayFrom] members of [NearTextParams];
    an element of [objects] is [{ id: string }]. *)
Record Move : Type := mkMove {
  move_concepts : option (list string);
  move_objects : option (list string);
  force : number
}.

Record NearTextParams : Type := mkNearTextParams {
  concepts : list string;
  certainty : option number;
  distance : option number;
  moveTo : option Move;
  moveAwayFrom : option Move
}.

Record NearVectorParams : Type := mkNearVectorParams {
  nv_vector : list number;
  nv_certainty : option number;
  nv_distance : option number
}.

Record NearObjectParams : Type := mkNearObjectParams {
  no_id : string;
  no_certainty : option number;
  no_distance : option number
}.

Inductive FusionType : Type := rankedFusion | relativeScoreFusion.

Definition FusionType_name (f : FusionType) : string :=
  match f with
  | rankedFusion => "rankedFusion"
  | relativeScoreFusion => "relativeScoreFusion"
  end.

Record HybridParams : Type := mkHybridParams {
  hy_query : string;
  hy_alpha : option number;
  hy_vector : option (list number);
  hy_properties : option (list string);
  hy_fusionType : option FusionType
}.

Record Bm25Params : Type := mkBm25Params {
  bm_query : string;
  bm_properties : option (list string)
}.

(** The [options] of the search operations. *)
Record SearchOptions : Type := mkSearchOptions {
  so_limit : option Z;
  so_fields : option (list string);
  so_where : option WhereFilter;
  so_tenant : option string
}.

(** ** Objects the client builds and serializes *)

(** [...(x && { key: x })]: the property is there when [x] is. *)
Definition member {A : Type} (key : string) (enc : A -> Json) (x : option A)
    : list (string * Json) :=
  match x with
  | Some a => [(key, enc a)]
  | None => []
  end.

Definition strings (l : list string) : Json := JArray (map JString l).
Definition numbers (l : list number) : Json := JArray (map JNumber l).
Definition bools (l : list bool) : Json := JArray (map JBool l).

Definition ObjectRef_json (id : string) : Json := JObject [("id", JString id)].

End Entities.

(* ================================================================== *)
(** * Asynchronous programs over [fetch] *)
(* ================================================================== *)

Module Async.
Import JS Errors.

(** The [RequestInit] the client passes: method, body and headers. *)
Record RequestInit : Type := mkRequestInit {
  method : option string;
  body : option string;
  headers : option (list (string * string))
}.

(** [{}], the default of [options]. *)
Definition noInit : RequestInit := mkRequestInit None None None.

(** A [Response] as the client reads it: the status, the headers, and the
    body [response.text()] resolves to. *)
Record Response : Type := mkResponse {
  status : Z;
  responseHeaders : list (string * string);
  text : string
}.

(** [response.ok] *)
Definition ok (r : Response) : bool := ((200 <=? status r) && (status r <=? 299))%bool.

(** [response.headers.get(name)]: names compare without case, several
    values of one name are joined by a comma and a space, [None] is
    [null]. *)
Definition Headers_get (name : string) (r : Response) : option string :=
  match filter (fun kv => String.eqb (toLowerCase (fst kv)) (toLowerCase name))
               (responseHeaders r) with
  | [] => None
  | l => Some (join ", " (map snd l))
  end.

(** How the promise of [fetch] settles. *)
Inductive Settled : Type :=
| Fulfilled (r : Response)
| Rejected (e : Exn).

(** An [async] function body: it returns, throws, or awaits a [fetch] and
    goes on with what the promise settled to.  Network input and output is
    exactly the [Await_fetch] nodes. *)
Inductive Prog (A : Type) : Type :=
| Return (a : A)
| Throw (e : Exn)
| Await_fetch (url : string) (init : RequestInit) (k : Settled -> Prog A).
Arguments Return {A}.
Arguments Throw {A}.
Arguments Await_fetch {A}.

Fixpoint bind {A B : Type} (m : Prog A) (f : A -> Prog B) : Prog B :=
  match m with
  | Return a => f a
  | Throw e => Throw e
  | Await_fetch url init k => Await_fetch url init (fun s => bind (k s) f)
  end.

(** [try { m } catch (error) { handler }] *)
Fixpoint try_catch {A : Type} (m : Prog A) (handler : Exn -> Prog A) : Prog A :=
  match m with
  | Return a => Return a
  | Throw e => handler e
  | Await_fetch url init k => Await_fetch url init (fun s => try_catch (k s) handler)
  end.

(** [await fetch(url, init)]: a rejection is thrown where it is awaited. *)
Definition fetch (url : string) (init : RequestInit) : Prog Response :=
  Await_fetch url init
    (fun s => match s with
              | Fulfilled r => Return r
              | Rejected e => Throw e
              end).

(** The network: what each [fetch] settles to. *)
Definition Network : Type := string -> RequestInit -> Settled.

Inductive Outcome (A : Type) : Type :=
| Returns (a : A)
| Throws (e : Exn).
Arguments Returns {A}.
Arguments Throws {A}.

(** Running a program against a network: its outcome, and the [fetch]
    calls it made, in order. *)
Fixpoint run {A : Type} (net : Network) (p : Prog A)
    : Outcome A * list (string * RequestInit) :=
  match p with
  | Return a => (Returns a, [])
  | Throw e => (Throws e, [])
  | Await_fetch url init k =>
      let '(o, calls) := run net (k (net url init)) in
      (o, (url, init) :: calls)
  end.

(** A program that returns or throws before any [await]: it is a leaf, so
    no [fetch] is ever reached. *)
Definition performsNoFetch {A : Type} (p : Prog A) : bool :=
  match p with
  | Await_fetch _ _ _ => false
  | _ => true
  end.

End Async.

Declare Scope prog_scope.
Delimit Scope prog_scope with prog.
Notation "x <- m ;; k" := (Async.bind m (fun x => k))
  (at level 61, m at next level, right associativity) : prog_scope.
Notation "m ;; k" := (Async.bind m (fun _ => k))
  (at level 61, right associativity) : prog_scope.

(* ================================================================== *)
(** * The client (client.ts) *)
(* ================================================================== *)

Module Client.
Import JS Errors Entities Async.
Local Open Scope prog_scope.

(** [WeaviateClientImpl]: its two private fields. *)
Record WeaviateClientImpl : Type := mkClient {
  credentials : TenantCredentials;
  baseUrl : string
}.

(** The constructor; a trailing slash of the URL is removed. *)
Definition createWeaviateClient (credentials : TenantCredentials) : WeaviateClientImpl :=
  {| credentials := credentials;
     baseUrl := stripTrailingSlash (string_or (weaviateUrl credentials) EmptyString) |}.

(** [o[k] = v] on an object with string keys, kept in insertion order. *)
Fixpoint assign (k v : string) (o : list (string * string)) : list (string * string) :=
  match o with
  | [] => [(k, v)]
  | (k', v') :: rest =>
      if String.eqb k' k then (k', v) :: rest else (k', v') :: assign k v rest
  end.

(** [{ ...a, ...b }] *)
Definition spread (a b : list (string * string)) : list (string * string) :=
  fold_left (fun acc kv => assign (fst kv) (snd kv) acc) b a.

(** [if (key) headers[name] = f(key)] *)
Definition withKey (name : string) (key : option string) (f : string -> string)
    (headers : list (string * string)) : list (string * string) :=
  match key with
  | Some k => if truthy_string k then assign name (f k) headers else headers
  | None => headers
  end.

Definition getAuthHeaders (this : WeaviateClientImpl) : list (string * string) :=
  let c := credentials this in
  let headers := [("Content-Type", "application/json")] in
  let headers := withKey "Authorization" (apiKey c) (fun k => "Bearer " ++ k) headers in
  let headers := withKey "X-OpenAI-Api-Key" (openaiApiKey c) (fun k => k) headers in
  let headers := withKey "X-Cohere-Api-Key" (cohereApiKey c) (fun k => k) headers in
  let headers := withKey "X-HuggingFace-Api-Key" (huggingfaceApiKey c) (fun k => k) headers in
  let headers := withKey "X-Anthropic-Api-Key" (anthropicApiKey c) (fun k => k) headers in
  let headers := withKey "X-Azure-Api-Key" (azureApiKey c) (fun k => k) headers in
  headers.

(** [a || rest] where [a] is a property read that may be [undefined]. *)
Definition or_else (a : option Json) (rest : Json) : Json :=
  match a with
  | Some v => if truthy v then v else rest
  | None => rest
  end.

(** A value that is there, or the exception thrown for want of it. *)
Definition throwing {A : Type} (x : option A) (e : Exn) : Prog A :=
  match x with
  | Some a => Return a
  | None => Throw e
  end.

(** An operation on a path that [encodeURIComponent] has a part in: the
    [URIError] is thrown while the argument of [request] is evaluated. *)
Definition on {A : Type} (path : option string) (k : string -> Prog A) : Prog A :=
  path <- throwing path URIError ;; k path.

Section Request.
(** [JSON.parse]: the value, or the [SyntaxError] it throws. *)
Variable JSON_parse : string -> Json + Exn.

(** The message of the generic error for a response that is not ok, as
    the value it is before the [Error] constructor makes a string of it:
    [errorJson.error?.message || errorJson.message || errorJson.error ||
    message] when the body parses, the body itself when it does not (or
    when it parses to [null], whose property read throws inside the
    [try]) and is not empty, the template with the status otherwise. *)
Definition errorMessage (response : Response) : Json :=
  let errorBody := text response in
  let message := JString ("Weaviate API error: " ++ String_of_Z (status response)) in
  let caught := if truthy_string errorBody then JString errorBody else message in
  match JSON_parse errorBody with
  | inl JNull => caught
  | inl errorJson =>
      let error := get "error" errorJson in
      let error_message :=
        match error with
        | None | Some JNull => None
        | Some e => get "message" e
        end in
      or_else error_message (or_else (get "message" errorJson) (or_else error message))
  | inr _ => caught
  end.

Definition request (this : WeaviateClientImpl) (endpoint : string)
    (options : RequestInit) : Prog (option Json) :=
  if negb (truthy_string (baseUrl this)) then
    Throw (Typed (AuthenticationError
                    "No Weaviate URL provided. Include X-Weaviate-URL header."))
  else
    let url := baseUrl this ++ "/v1" ++ endpoint in
    response <- fetch url
      {| method := method options;
         body := body options;
         headers := Some (spread (getAuthHeaders this)
                            (match headers options with Some h => h | None => [] end)) |} ;;
    (* Handle rate limiting *)
    if status response =? 429 then
      let retryAfter := Headers_get "Retry-After" response in
      Throw (Typed (RateLimitError "Rate limit exceeded"
                      (match retryAfter with
                       | Some h => if truthy_string h then parseInt h else Integer 60
                       | None => Integer 60
                       end)))
    (* Handle authentication errors *)
    else if ((status response =? 401) || (status response =? 403))%bool then
      Throw (Typed (AuthenticationError
                      "Authentication failed. Check your Weaviate API key."))
    (* Handle not found *)
    else if status response =? 404 then
      Throw (Typed (NotFoundError "Resource" endpoint))
    (* Handle other errors *)
    else if negb (ok response) then
      (* the constructor of Error makes a string of the message *)
      message <- throwing (ToString (errorMessage response)) TypeError_primitive ;;
      Throw (Typed (WeaviateApiError message (Some (status response)) None false))
    (* Handle 204 No Content *)
    else if status response =? 204 then
      Return None
    (* Handle empty responses *)
    else if negb (truthy_string (text response)) then
      Return None
    else
      match JSON_parse (text response) with
      | inl v => Return (Some v)
      | inr e => Throw e
      end.

(** *** Connection, meta, health *)

Definition getMeta (this : WeaviateClientImpl) : Prog (option Json) :=
  request this "/meta" noInit.

(** [`${x}`] for a property read [x]. *)
Definition template (x : option Json) : Prog string :=
  match x with
  | Some v => throwing (ToString v) TypeError_primitive
  | None => Return "undefined"
  end.

(** A property read on the result of [request], which is [undefined]
    after a 204 or an empty body. *)
Definition read (prop : string) (holder : option Json) : Prog (option Json) :=
  match holder with
  | None => Throw (TypeError_read "undefined" prop)
  | Some JNull => Throw (TypeError_read "null" prop)
  | Some v => Return (get prop v)
  end.

Definition testConnection (this : WeaviateClientImpl) : Prog (bool * string) :=
  try_catch
    (meta <- getMeta this ;;
     version <- read "version" meta ;;
     version <- template version ;;
     hostname <- read "hostname" meta ;;
     hostname <- template hostname ;;
     Return (true, "Connected to Weaviate " ++ version ++ " at " ++ hostname))
    (fun error => Return (false, exn_message error)).

Definition isLive (this : WeaviateClientImpl) : Prog string :=
  try_catch
    (request this "/.well-known/live" noInit ;; Return "ok")
    (fun _ => Return "error").

Definition isReady (this : WeaviateClientImpl) : Prog string :=
  try_catch
    (request this "/.well-known/ready" noInit ;; Return "ok")
    (fun _ => Return "error").

(** *** Schema *)

Definition withBody (method : string) (body : option string) : RequestInit :=
  {| method := Some method; body := body; headers := None |}.

Definition getSchema (this : WeaviateClientImpl) : Prog (option Json) :=
  request this "/schema" noInit.

(** [`/schema/${encodeURIComponent(className)}`] *)
Definition classPath (className : string) : option string :=
  option_map (fun c => "/schema/" ++ c) (encodeURIComponent className).

Definition getClass (this : WeaviateClientImpl) (className : string) : Prog (option Json) :=
  on (classPath className) (fun path => request this path noInit).

Definition createClass (this : WeaviateClientImpl) (classConfig : Json)
    : Prog (option Json) :=
  request this "/schema" (withBody "POST" (Some (JSON_stringify classConfig))).

Definition updateClass (this : WeaviateClientImpl) (className : string) (updates : Json)
    : Prog (option Json) :=
  on (classPath className)
    (fun path => request this path (withBody "PUT" (Some (JSON_stringify updates)))).

Definition deleteClass (this : WeaviateClientImpl) (className : string) : Prog unit :=
  on (classPath className) (fun path => request this path (withBody "DELETE" None)) ;;
  Return tt.

Definition addProperty (this : WeaviateClientImpl) (className : string) (property : Json)
    : Prog unit :=
  on (classPath className)
    (fun path => request this (path ++ "/properties")
                   (withBody "POST" (Some (JSON_stringify property)))) ;;
  Return tt.

(** *** Objects *)

(** [if (x) queryParams.set(name, f(x))] *)
Definition setIf {A : Type} (name : string) (x : option A) (truthy : A -> bool)
    (f : A -> string) (q : URLSearchParams) : URLSearchParams :=
  match x with
  | Some a => if truthy a then set name (f a) q else q
  | None => q
  end.

Definition nonzero (z : Z) : bool := negb (z =? 0).
Definition always {A : Type} (_ : A) : bool := true.

(** [`${query ? `?${query}` : ''}`] *)
Definition querySuffix (q : URLSearchParams) : string :=
  let query := URLSearchParams_toString q in
  if truthy_string query then "?" ++ query else EmptyString.

(** [`/objects/${encodeURIComponent(className)}/${encodeURIComponent(id)}`] *)
Definition objectPath (className id : string) : option string :=
  match encodeURIComponent className, encodeURIComponent id with
  | Some c, Some i => Some ("/objects/" ++ c ++ "/" ++ i)
  | _, _ => None
  end.

(** What [listObjects] resolves to.  The body is declared
    [{ objects: T[]; totalResults?: number }] and is whatever the service
    sent: the items are the value of its objects property, the count is the
    length read from that value, the total is the value of totalResults. *)
Definition Listing : Type := Pagination.PaginatedResponse Json (option Json) Json.

Definition listObjects (this : WeaviateClientImpl) (className : string)
    (params : option ListParams) : Prog Listing :=
  let p_limit := match params with Some p => Entities.limit p | None => None end in
  let p_offset := match params with Some p => Entities.offset p | None => None end in
  let p_include := match params with Some p => include p | None => None end in
  let p_tenant := match params with Some p => tenant p | None => None end in
  let queryParams := set "class" className [] in
  let queryParams := setIf "limit" p_limit nonzero String_of_Z queryParams in
  let queryParams := setIf "offset" p_offset nonzero String_of_Z queryParams in
  let queryParams := setIf "include" p_include always (join ",") queryParams in
  let queryParams := setIf "tenant" p_tenant truthy_string (fun t => t) queryParams in
  response <- request this ("/objects?" ++ URLSearchParams_toString queryParams) noInit ;;
  let limit := Z_or p_limit 20 in
  let offset := Z_or p_offset 0 in
  objects <- read "objects" response ;;
  match objects with
  | None => Throw (TypeError_read "undefined" "length")
  | Some JNull => Throw (TypeError_read "null" "length")
  | Some objects =>
      let hasMore := strictEquals (lengthOf objects) limit in
      let nextOffset := if hasMore then Some (add (Integer offset) (Integer limit)) else None in
      totalResults <- read "totalResults" response ;;
      Return (Pagination.createPaginatedResponse lengthOf objects
                {| Pagination.opt_total := totalResults;
                   Pagination.opt_hasMore := Some hasMore;
                   Pagination.opt_nextCursor :=
                     match nextOffset with
                     | Some n => Some (String_of n)
                     | None => None
                     end |})
  end.

Definition getObject (this : WeaviateClientImpl) (className id : string)
    (include : option (list string)) (tenant : option string) : Prog (option Json) :=
  let queryParams := setIf "include" include always (join ",") [] in
  let queryParams := setIf "tenant" tenant truthy_string (fun t => t) queryParams in
  on (objectPath className id)
    (fun path => request this (path ++ querySuffix queryParams) noInit).

Definition createObject (this : WeaviateClientImpl) (object : Json) : Prog (option Json) :=
  request this "/objects" (withBody "POST" (Some (JSON_stringify object))).

Definition tenantQuery (tenant : option string) : URLSearchParams :=
  setIf "tenant" tenant truthy_string (fun t => t) [].

Definition updateObject (this : WeaviateClientImpl) (className id : string)
    (properties : Json) (vector : option (list number)) (tenant : option string)
    : Prog (option Json) :=
  let body :=
    JObject ([("class", JString className); ("properties", properties)]
             ++ member "vector" numbers vector) in
  on (objectPath className id)
    (fun path => request this (path ++ querySuffix (tenantQuery tenant))
                   (withBody "PUT" (Some (JSON_stringify body)))).

Definition patchObject (this : WeaviateClientImpl) (className id : string)
    (properties : Json) (tenant : option string) : Prog unit :=
  on (objectPath className id)
    (fun path =>
       request this (path ++ querySuffix (tenantQuery tenant))
         (withBody "PATCH"
            (Some (JSON_stringify
                     (JObject [("class", JString className);
                               ("properties", properties)]))))) ;;
  Return tt.

Definition deleteObject (this : WeaviateClientImpl) (className id : string)
    (tenant : option string) : Prog unit :=
  on (objectPath className id)
    (fun path => request this (path ++ querySuffix (tenantQuery tenant))
                   (withBody "DELETE" None)) ;;
  Return tt.

(** The HEAD request goes to [fetch] directly; the URL is built inside the
    [try]. *)
Definition objectExists (this : WeaviateClientImpl) (className id : string)
    (tenant : option string) : Prog bool :=
  let query := tenantQuery tenant in
  try_catch
    (url <- on (objectPath className id)
              (fun path => Return (baseUrl this ++ "/v1" ++ path ++ querySuffix query)) ;;
     response <- fetch url {| method := Some "HEAD";
                              body := None;
                              headers := Some (getAuthHeaders this) |} ;;
     Return ((status response =? 204) || (status response =? 200))%bool)
    (fun _ => Return false).

(** *** Batch operations *)

Definition batchCreateObjects (this : WeaviateClientImpl) (objects : list Json)
    : Prog (option Json) :=
  request this "/batch/objects"
    (withBody "POST" (Some (JSON_stringify (JObject [("objects", JArray objects)])))).

Definition batchDeleteObjects (this : WeaviateClientImpl) (request_ : Json)
    : Prog (option Json) :=
  request this "/batch/objects" (withBody "DELETE" (Some (JSON_stringify request_))).

(** [references] is the [request.references] array of [{ from, to }]. *)
Definition batchAddReferences (this : WeaviateClientImpl)
    (references : list (string * string)) : Prog (option Json) :=
  request this "/batch/references"
    (withBody "POST"
       (Some (JSON_stringify
                (JArray (map (fun r => JObject [("from", JString (fst r));
                                                ("to", JString (snd r))])
                             references))))).

(** *** References *)

Definition referencePath (className id propertyName : string) : option string :=
  match objectPath className id, encodeURIComponent propertyName with
  | Some path, Some p => Some (path ++ "/references/" ++ p)
  | _, _ => None
  end.

(** A [ReferencePayload] is [{ beacon: string }]. *)
Definition ReferencePayload_json (beacon : string) : Json :=
  JObject [("beacon", JString beacon)].

Definition addReference (this : WeaviateClientImpl) (className id propertyName : string)
    (reference : string) (tenant : option string) : Prog unit :=
  on (referencePath className id propertyName)
    (fun path => request this (path ++ querySuffix (tenantQuery tenant))
                   (withBody "POST"
                      (Some (JSON_stringify (ReferencePayload_json reference))))) ;;
  Return tt.

Definition updateReferences (this : WeaviateClientImpl) (className id propertyName : string)
    (references : list string) (tenant : option string) : Prog unit :=
  on (referencePath className id propertyName)
    (fun path =>
       request this (path ++ querySuffix (tenantQuery tenant))
         (withBody "PUT"
            (Some (JSON_stringify (JArray (map ReferencePayload_json references)))))) ;;
  Return tt.

Definition deleteReference (this : WeaviateClientImpl) (className id propertyName : string)
    (reference : string) (tenant : option string) : Prog unit :=
  on (referencePath className id propertyName)
    (fun path => request this (path ++ querySuffix (tenantQuery tenant))
                   (withBody "DELETE"
                      (Some (JSON_stringify (ReferencePayload_json reference))))) ;;
  Return tt.

(** *** Search (via GraphQL) *)

Definition graphqlQuery (this : WeaviateClientImpl) (query : string) : Prog (option Json) :=
  request this "/graphql"
    (withBody "POST" (Some (JSON_stringify (JObject [("query", JString query)])))).

End Request.

(** The query document: the lines of the template literal. *)
Definition buildGraphQLGetQuery (className searchClause : string)
    (options : option SearchOptions) : string :=
  let o_fields := match options with Some o => so_fields o | None => None end in
  let o_limit := match options with Some o => so_limit o | None => None end in
  let o_where := match options with Some o => so_where o | None => None end in
  let o_tenant := match options with Some o => so_tenant o | None => None end in
  let fields :=
    match o_fields with
    | Some (f :: fs) => join " " (f :: fs)
    | _ => "_additional { id distance certainty }"
    end in
  let limit := Z_or o_limit 10 in
  let whereClause :=
    match o_where with
    | Some w => if truthy w then ", where: " ++ JSON_stringify w else EmptyString
    | None => EmptyString
    end in
  let tenantClause :=
    match o_tenant with
    | Some t => if truthy_string t
                then ", tenant: " ++ char dquote ++ t ++ char dquote
                else EmptyString
    | None => EmptyString
    end in
  join (char newline)
    [ "{";
      "      Get {";
      "        " ++ className ++ "(";
      "          " ++ searchClause;
      "          limit: " ++ String_of_Z limit;
      "          " ++ whereClause;
      "          " ++ tenantClause;
      "        ) {";
      "          " ++ fields;
      "        }";
      "      }";
      "    }" ].

(** [clause += `, key: ${f(x)}`] when [x] is there. *)
Definition plus {A : Type} (key : string) (x : option A) (f : A -> string) : string :=
  match x with
  | Some a => ", " ++ key ++ ": " ++ f a
  | None => EmptyString
  end.

Definition numberList (l : list number) : string :=
  "[" ++ join ", " (map Number_toString l) ++ "]".

Definition nearVectorClause (params : NearVectorParams) : string :=
  "nearVector: { vector: " ++ numberList (nv_vector params)
  ++ plus "certainty" (nv_certainty params) Number_toString
  ++ plus "distance" (nv_distance params) Number_toString
  ++ " }".

Definition moveClause (key : string) (move : option Move) : string :=
  match move with
  | Some m =>
      ", " ++ key ++ ": { force: " ++ Number_toString (force m)
      ++ plus "concepts" (move_concepts m) JSON_stringify_strings
      ++ plus "objects" (move_objects m)
           (fun ids => JSON_stringify (JArray (map ObjectRef_json ids)))
      ++ " }"
  | None => EmptyString
  end.

Definition nearTextClause (params : NearTextParams) : string :=
  "nearText: { concepts: " ++ JSON_stringify_strings (concepts params)
  ++ plus "certainty" (certainty params) Number_toString
  ++ plus "distance" (distance params) Number_toString
  ++ moveClause "moveTo" (moveTo params)
  ++ moveClause "moveAwayFrom" (moveAwayFrom params)
  ++ " }".

Definition nearObjectClause (params : NearObjectParams) : string :=
  "nearObject: { id: " ++ char dquote ++ no_id params ++ char dquote
  ++ plus "certainty" (no_certainty params) Number_toString
  ++ plus "distance" (no_distance params) Number_toString
  ++ " }".

Definition hybridClause (params : HybridParams) : string :=
  "hybrid: { query: " ++ char dquote ++ hy_query params ++ char dquote
  ++ plus "alpha" (hy_alpha params) Number_toString
  ++ plus "vector" (hy_vector params) numberList
  ++ plus "properties" (hy_properties params) JSON_stringify_strings
  ++ plus "fusionType" (hy_fusionType params) FusionType_name
  ++ " }".

Definition bm25Clause (params : Bm25Params) : string :=
  "bm25: { query: " ++ char dquote ++ bm_query params ++ char dquote
  ++ plus "properties" (bm_properties params) JSON_stringify_strings
  ++ " }".

Section Operations.
Variable JSON_parse : string -> Json + Exn.

Let request := request JSON_parse.
Let graphqlQuery := graphqlQuery JSON_parse.

Definition nearVector (this : WeaviateClientImpl) (className : string)
    (params : NearVectorParams) (options : option SearchOptions) : Prog (option Json) :=
  let query := buildGraphQLGetQuery className (nearVectorClause params) options in
  graphqlQuery this query.

Definition nearText (this : WeaviateClientImpl) (className : string)
    (params : NearTextParams) (options : option SearchOptions) : Prog (option Json) :=
  let query := buildGraphQLGetQuery className (nearTextClause params) options in
  graphqlQuery this query.

Definition nearObject (this : WeaviateClientImpl) (className : string)
    (params : NearObjectParams) (options : option SearchOptions) : Prog (option Json) :=
  let query := buildGraphQLGetQuery className (nearObjectClause params) options in
  graphqlQuery this query.

Definition hybridSearch (this : WeaviateClientImpl) (className : string)
    (params : HybridParams) (options : option SearchOptions) : Prog (option Json) :=
  let query := buildGraphQLGetQuery className (hybridClause params) options in
  graphqlQuery this query.

Definition bm25Search (this : WeaviateClientImpl) (className : string)
    (params : Bm25Params) (options : option SearchOptions) : Prog (option Json) :=
  let query := buildGraphQLGetQuery className (bm25Clause params) options in
  graphqlQuery this query.

(** *** Tenants *)

Definition tenantsPath (className : string) : option string :=
  option_map (fun c => "/schema/" ++ c ++ "/tenants") (encodeURIComponent className).

Definition getTenants (this : WeaviateClientImpl) (className : string)
    : Prog (option Json) :=
  on (tenantsPath className) (fun path => request this path noInit).

Definition createTenants (this : WeaviateClientImpl) (className : string)
    (tenants : list Json) : Prog (option Json) :=
  on (tenantsPath className)
    (fun path => request this path (withBody "POST" (Some (JSON_stringify (JArray tenants))))).

Definition updateTenants (this : WeaviateClientImpl) (className : string)
    (tenants : list Json) : Prog unit :=
  on (tenantsPath className)
    (fun path => request this path
                   (withBody "PUT" (Some (JSON_stringify (JArray tenants))))) ;;
  Return tt.

Definition deleteTenants (this : WeaviateClientImpl) (className : string)
    (tenantNames : list string) : Prog unit :=
  on (tenantsPath className)
    (fun path => request this path
                   (withBody "DELETE" (Some (JSON_stringify_strings tenantNames)))) ;;
  Return tt.

(** [tenants.some((t) => t.name === tenantName)] on an array. *)
Fixpoint some_named (tenantName : string) (tenants : list Json) : Prog bool :=
  match tenants with
  | [] => Return false
  | JNull :: _ => Throw (TypeError_read "null" "name")
  | t :: rest =>
      match get "name" t with
      | Some (JString n) =>
          if String.eqb n tenantName then Return true else some_named tenantName rest
      | _ => some_named tenantName rest
      end
  end.

Definition tenantExists (this : WeaviateClientImpl) (className tenantName : string)
    : Prog bool :=
  try_catch
    (tenants <- getTenants this className ;;
     match tenants with
     | Some (JArray tenants) => some_named tenantName tenants
     | Some JNull => Throw (TypeError_read "null" "some")
     | None => Throw (TypeError_read "undefined" "some")
     | Some _ => Throw (Native "TypeError" "tenants.some is not a function")
     end)
    (fun _ => Return false).

(** *** Backups *)

Definition backendPath (backend : string) : option string :=
  option_map (fun b => "/backups/" ++ b) (encodeURIComponent backend).

Definition backupPath (backend backupId : string) : option string :=
  match encodeURIComponent backend, encodeURIComponent backupId with
  | Some b, Some i => Some ("/backups/" ++ b ++ "/" ++ i)
  | _, _ => None
  end.

Definition createBackup (this : WeaviateClientImpl) (backend : string) (request_ : Json)
    : Prog (option Json) :=
  on (backendPath backend)
    (fun path => request this path (withBody "POST" (Some (JSON_stringify request_)))).

Definition getBackupStatus (this : WeaviateClientImpl) (backend backupId : string)
    : Prog (option Json) :=
  on (backupPath backend backupId) (fun path => request this path noInit).

Definition restoreBackup (this : WeaviateClientImpl) (backend backupId : string)
    (request_ : option Json) : Prog (option Json) :=
  on (backupPath backend backupId)
    (fun path =>
       request this (path ++ "/restore")
         (withBody "POST"
            (match request_ with
             | Some r => Some (JSON_stringify r)
             | None => None
             end))).

Definition getRestoreStatus (this : WeaviateClientImpl) (backend backupId : string)
    : Prog (option Json) :=
  on (backupPath backend backupId) (fun path => request this (path ++ "/restore") noInit).

Definition cancelBackup (this : WeaviateClientImpl) (backend backupId : string)
    : Prog unit :=
  on (backupPath backend backupId)
    (fun path => request this path (withBody "DELETE" None)) ;;
  Return tt.

(** *** Nodes, cluster *)

Definition getNodes (this : WeaviateClientImpl) (output : option string)
    : Prog (option Json) :=
  let queryParams := setIf "output" output truthy_string (fun o => o) [] in
  response <- request this ("/nodes" ++ querySuffix queryParams) noInit ;;
  read "nodes" response.

Definition getClusterStatistics (this : WeaviateClientImpl) : Prog (option Json) :=
  request this "/cluster/statistics" noInit.

(** *** Classification *)

Definition createClassification (this : WeaviateClientImpl) (request_ : Json)
    : Prog (option Json) :=
  request this "/classifications" (withBody "POST" (Some (JSON_stringify request_))).

Definition getClassification (this : WeaviateClientImpl) (id : string)
    : Prog (option Json) :=
  on (option_map (fun i => "/classifications/" ++ i) (encodeURIComponent id))
    (fun path => request this path noInit).

End Operations.

(** ** The interface [WeaviateClient]

    One constructor for each operation of the interface, with its
    arguments, and what each resolves to. *)

Inductive Call : Type :=
| TestConnection
| GetMeta | IsLive | IsReady
| GetSchema
| GetClass (className : string)
| CreateClass (classConfig : Json)
| UpdateClass (className : string) (updates : Json)
| DeleteClass (className : string)
| AddProperty (className : string) (property : Json)
| ListObjects (className : string) (params : option ListParams)
| GetObject (className id : string) (include : option (list string)) (tenant : option string)
| CreateObject (object : Json)
| UpdateObject (className id : string) (properties : Json)
    (vector : option (list number)) (tenant : option string)
| PatchObject (className id : string) (properties : Json) (tenant : option string)
| DeleteObject (className id : string) (tenant : option string)
| ObjectExists (className id : string) (tenant : option string)
| BatchCreateObjects (objects : list Json)
| BatchDeleteObjects (request : Json)
| BatchAddReferences (references : list (string * string))
| AddReference (className id propertyName reference : string) (tenant : option string)
| UpdateReferences (className id propertyName : string) (references : list string)
    (tenant : option string)
| DeleteReference (className id propertyName reference : string) (tenant : option string)
| GraphqlQuery (query : string)
| NearVector (className : string) (params : NearVectorParams) (options : option SearchOptions)
| NearText (className : string) (params : NearTextParams) (options : option SearchOptions)
| NearObject (className : string) (params : NearObjectParams) (options : option SearchOptions)
| HybridSearch (className : string) (params : HybridParams) (options : option SearchOptions)
| Bm25Search (className : string) (params : Bm25Params) (options : option SearchOptions)
| GetTenants (className : string)
| CreateTenants (className : string) (tenants : list Json)
| UpdateTenants (className : string) (tenants : list Json)
| DeleteTenants (className : string) (tenantNames : list string)
| TenantExists (className tenantName : string)
| CreateBackup (backend : string) (request : Json)
| GetBackupStatus (backend backupId : string)
| RestoreBackup (backend backupId : string) (request : option Json)
| GetRestoreStatus (backend backupId : string)
| CancelBackup (backend backupId : string)
| GetNodes (output : option string)
| GetClusterStatistics
| CreateClassification (request : Json)
| GetClassification (id : string).

Inductive Value : Type :=
| Payload (v : option Json)                     (* the decoded body, or undefined *)
| Void
| Boolean (b : bool)
| Status (status : string)                      (* { status } *)
| Connection (connected : bool) (message : string)
| Page (page : Listing).

(** [await m], then the value wrapped. *)
Definition resolve {A : Type} (wrap : A -> Value) (m : Prog A) : Prog Value :=
  x <- m ;; Return (wrap x).

Definition invoke (JSON_parse : string -> Json + Exn) (this : WeaviateClientImpl)
    (call : Call) : Prog Value :=
  let void := fun _ : unit => Void in
  match call with
  | TestConnection =>
      resolve (fun r => Connection (fst r) (snd r)) (testConnection JSON_parse this)
  | GetMeta => resolve Payload (getMeta JSON_parse this)
  | IsLive => resolve Status (isLive JSON_parse this)
  | IsReady => resolve Status (isReady JSON_parse this)
  | GetSchema => resolve Payload (getSchema JSON_parse this)
  | GetClass className => resolve Payload (getClass JSON_parse this className)
  | CreateClass classConfig => resolve Payload (createClass JSON_parse this classConfig)
  | UpdateClass className updates =>
      resolve Payload (updateClass JSON_parse this className updates)
  | DeleteClass className => resolve void (deleteClass JSON_parse this className)
  | AddProperty className property =>
      resolve void (addProperty JSON_parse this className property)
  | ListObjects className params =>
      resolve Page (listObjects JSON_parse this className params)
  | GetObject className id include tenant =>
      resolve Payload (getObject JSON_parse this className id include tenant)
  | CreateObject object => resolve Payload (createObject JSON_parse this object)
  | UpdateObject className id properties vector tenant =>
      resolve Payload (updateObject JSON_parse this className id properties vector tenant)
  | PatchObject className id properties tenant =>
      resolve void (patchObject JSON_parse this className id properties tenant)
  | DeleteObject className id tenant =>
      resolve void (deleteObject JSON_parse this className id tenant)
  | ObjectExists className id tenant =>
      resolve Boolean (objectExists this className id tenant)
  | BatchCreateObjects objects =>
      resolve Payload (batchCreateObjects JSON_parse this objects)
  | BatchDeleteObjects request =>
      resolve Payload (batchDeleteObjects JSON_parse this request)
  | BatchAddReferences references =>
      resolve Payload (batchAddReferences JSON_parse this references)
  | AddReference className id propertyName reference tenant =>
      resolve void (addReference JSON_parse this className id propertyName reference tenant)
  | UpdateReferences className id propertyName references tenant =>
      resolve void
        (updateReferences JSON_parse this className id propertyName references tenant)
  | DeleteReference className id propertyName reference tenant =>
      resolve void
        (deleteReference JSON_parse this className id propertyName reference tenant)
  | GraphqlQuery query => resolve Payload (graphqlQuery JSON_parse this query)
  | NearVector className params options =>
      resolve Payload (nearVector JSON_parse this className params options)
  | NearText className params options =>
      resolve Payload (nearText JSON_parse this className params options)
  | NearObject className params options =>
      resolve Payload (nearObject JSON_parse this className params options)
  | HybridSearch className params options =>
      resolve Payload (hybridSearch JSON_parse this className params options)
  | Bm25Search className params options =>
      resolve Payload (bm25Search JSON_parse this className params options)
  | GetTenants className => resolve Payload (getTenants JSON_parse this className)
  | CreateTenants className tenants =>
      resolve Payload (createTenants JSON_parse this className tenants)
  | UpdateTenants className tenants =>
      resolve void (updateTenants JSON_parse this className tenants)
  | DeleteTenants className tenantNames =>
      resolve void (deleteTenants JSON_parse this className tenantNames)
  | TenantExists className tenantName =>
      resolve Boolean (tenantExists JSON_parse this className tenantName)
  | CreateBackup backend request =>
      resolve Payload (createBackup JSON_parse this backend request)
  | GetBackupStatus backend backupId =>
      resolve Payload (getBackupStatus JSON_parse this backend backupId)
  | RestoreBackup backend backupId request =>
      resolve Payload (restoreBackup JSON_parse this backend backupId request)
  | GetRestoreStatus backend backupId =>
      resolve Payload (getRestoreStatus JSON_parse this backend backupId)
  | CancelBackup backend backupId =>
      resolve void (cancelBackup JSON_parse this backend backupId)
  | GetNodes output => resolve Payload (getNodes JSON_parse this output)
  | GetClusterStatistics => resolve Payload (getClusterStatistics JSON_parse this)
  | CreateClassification request =>
      resolve Payload (createClassification JSON_parse this request)
  | GetClassification id => resolve Payload (getClassification JSON_parse this id)
  end.

End Client.

(* ================================================================== *)
(** * Clients, networks and notions the statements use *)
(* ================================================================== *)

Module Spec.
Import JS Errors Entities Async Client.

(** A client for the examples: a base URL and a primary key. *)
Definition exampleClient : WeaviateClientImpl :=
  createWeaviateClient
    {| weaviateUrl := Some "https://db.example/";
       apiKey := Some "secret";
       openaiApiKey := None;
       cohereApiKey := None;
       huggingfaceApiKey := None;
       anthropicApiKey := None;
       azureApiKey := None |}.

(** A client built from credentials without a URL. *)
Definition clientWithoutUrl : WeaviateClientImpl :=
  createWeaviateClient
    {| weaviateUrl := None;
       apiKey := Some "secret";
       openaiApiKey := None;
       cohereApiKey := None;
       huggingfaceApiKey := None;
       anthropicApiKey := None;
       azureApiKey := None |}.

(** The network on which every [fetch] is fulfilled with one response. *)
Definition answering (response : Response) : Network := fun _ _ => Fulfilled response.

(** The network on which every [fetch] is rejected. *)
Definition failing (e : Exn) : Network := fun _ _ => Rejected e.

(** What [request] passes to [fetch]. *)
Definition fetched (this : WeaviateClientImpl) (endpoint : string) (options : RequestInit)
    : string * RequestInit :=
  (baseUrl this ++ "/v1" ++ endpoint,
   {| method := method options;
      body := body options;
      headers := Some (spread (getAuthHeaders this)
                         (match headers options with Some h => h | None => [] end)) |}).

(** A response with a status and nothing else. *)
Definition bare (status : Z) : Response :=
  {| status := status; responseHeaders := []; text := EmptyString |}.

(** A [JSON.parse] that rejects every text. *)
Definition rejectingParser (s : string) : Json + Exn :=
  inr (Native "SyntaxError" "Unexpected token").

(** The operations that catch what their request throws. *)
Definition catchesLocally (call : Call) : bool :=
  match call with
  | TestConnection | IsLive | IsReady | ObjectExists _ _ _ | TenantExists _ _ => true
  | _ => false
  end.

(** The four operations the specification excepts from propagation: the
    two probes and the two existence checks. *)
Definition exceptedBySpec (call : Call) : bool :=
  match call with
  | IsLive | IsReady | ObjectExists _ _ _ | TenantExists _ _ => true
  | _ => false
  end.

(** An operation propagates the errors of the pipeline: it issues a request
    such that, on every network, what the request throws is what the
    operation throws, with the same calls made. *)
Definition propagates (JSON_parse : string -> Json + Exn) (this : WeaviateClientImpl)
    (call : Call) : Prop :=
  exists endpoint options,
    forall (net : Network) e calls,
      run net (request JSON_parse this endpoint options) = (Throws e, calls) ->
      run net (invoke JSON_parse this call) = (Throws e, calls).

(** The arguments an operation writes into the path of its URL, each
    through [encodeURIComponent]. *)
Definition names (call : Call) : list string :=
  match call with
  | GetClass className | UpdateClass className _ | DeleteClass className
  | AddProperty className _ => [className]
  | GetObject className id _ _ | UpdateObject className id _ _ _
  | PatchObject className id _ _ | DeleteObject className id _
  | ObjectExists className id _ => [className; id]
  | AddReference className id propertyName _ _
  | UpdateReferences className id propertyName _ _
  | DeleteReference className id propertyName _ _ => [className; id; propertyName]
  | GetTenants className | CreateTenants className _ | UpdateTenants className _
  | DeleteTenants className _ | TenantExists className _ => [className]
  | CreateBackup backend _ => [backend]
  | GetBackupStatus backend backupId | RestoreBackup backend backupId _
  | GetRestoreStatus backend backupId | CancelBackup backend backupId => [backend; backupId]
  | GetClassification id => [id]
  | _ => []
  end.

(** No argument that goes into the path holds a surrogate that stands
    alone. *)
Definition wellFormedNames (call : Call) : bool := forallb isWellFormed (names call).

(** The propagation policy as the specification words it. *)
Definition propagation_policy_as_stated : Prop :=
  forall JSON_parse this call,
    exceptedBySpec call = false -> propagates JSON_parse this call.

(** The invariant of a Paginated Result: the count is the length of the
    items ([length] being the read of [items.length]), and a continuation
    token is there only when more is available. *)
Definition wellFormed {Items Count Total : Type} (length : Items -> Count)
    (r : Pagination.PaginatedResponse Items Count Total) : Prop :=
  Pagination.count r = length (Pagination.items r) /\
  (Pagination.nextCursor r <> None -> Pagination.hasMore r = true).

(** The invariant claimed of every producer of a Paginated Result. *)
Definition paginated_invariant_as_stated : Prop :=
  (forall (T Total : Type) (items : list T) (options : Pagination.PageOptions Total),
     wellFormed (@List.length T)
       (Pagination.createPaginatedResponse (@List.length T) items options)) /\
  (forall T Total : Type,
     wellFormed (@List.length T) (@Pagination.emptyPaginatedResponse T Total)) /\
  (forall JSON_parse this className params net page,
     fst (run net (listObjects JSON_parse this className params)) = Returns page ->
     wellFormed lengthOf page).

Definition limitOf (params : option ListParams) : option Z :=
  match params with Some p => limit p | None => None end.

Definition offsetOf (params : option ListParams) : option Z :=
  match params with Some p => offset p | None => None end.

(** The effective limit as the specification words it: the limit of the
    caller, or 20 when none is given. *)
Definition statedLimit (params : option ListParams) : Z :=
  match limitOf params with Some l => l | None => 20 end.

(** The current offset: the offset of the caller, or 0 when none is given. *)
Definition statedOffset (params : option ListParams) : Z :=
  match offsetOf params with Some o => o | None => 0 end.

(** The effective limit of the code: a limit of zero counts as none given. *)
Definition effectiveLimit (params : option ListParams) : Z :=
  match limitOf params with
  | Some 0 | None => 20
  | Some l => l
  end.

(** A service that answers every listing with [n] objects and no total. *)
Definition listingOf (n : nat) (s : string) : Json + Exn :=
  inl (JObject [("objects", JArray (repeat (JObject []) n))]).

(** A 200 response with a body. *)
Definition okBody : Response :=
  {| status := 200; responseHeaders := []; text := "{}" |}.

(** [s.startsWith(prefix)] *)
Fixpoint startsWith (s prefix : string) {struct prefix} : bool :=
  match prefix, s with
  | EmptyString, _ => true
  | String p ps, String c cs => (Ascii.eqb p c && startsWith cs ps)%bool
  | String _ _, EmptyString => false
  end.

(** [s.includes(needle)]: the needle starts somewhere in [s]. *)
Fixpoint includes (s needle : string) : bool :=
  (startsWith s needle ||
   match s with
   | EmptyString => false
   | String _ rest => includes rest needle
   end)%bool.

(** The character occurs in the text. *)
Fixpoint has (c : ascii) (s : string) : bool :=
  match s with
  | EmptyString => false
  | String d rest => (Ascii.eqb d c || has c rest)%bool
  end.

(** The text is not empty and ends with the character. *)
Fixpoint endsWithChar (c : ascii) (s : string) : bool :=
  match s with
  | EmptyString => false
  | String d EmptyString => Ascii.eqb d c
  | String _ rest => endsWithChar c rest
  end.

(** The near-text parameters of the worked example: the concept cat and
    nothing else. *)
Definition catParams : NearTextParams :=
  {| concepts := ["cat"];
     certainty := None;
     distance := None;
     moveTo := None;
     moveAwayFrom := None |}.

(** [nearText: { concepts: [<quote>cat<quote>] }] *)
Definition catClause : string :=
  "nearText: { concepts: [" ++ char dquote ++ "cat" ++ char dquote ++ "] }".

(** The three optional parts of a query document, as [buildGraphQLGetQuery]
    computes them from its options. *)
Definition whereClauseOf (options : option SearchOptions) : string :=
  match options with
  | Some {| so_where := Some w |} =>
      if truthy w then ", where: " ++ JSON_stringify w else EmptyString
  | _ => EmptyString
  end.

Definition tenantClauseOf (options : option SearchOptions) : string :=
  match options with
  | Some {| so_tenant := Some t |} =>
      if truthy_string t then ", tenant: " ++ char dquote ++ t ++ char dquote
      else EmptyString
  | _ => EmptyString
  end.

Definition fieldsOf (options : option SearchOptions) : string :=
  match options with
  | Some {| so_fields := Some (f :: fs) |} => join " " (f :: fs)
  | _ => "_additional { id distance certainty }"
  end.

End Spec.

(* ================================================================== *)
(** * Credentials and environment (types/env.ts) *)
(* ================================================================== *)

Module Env.
Import JS Errors Entities Async.

(** The inbound request, as far as the credentials are read from it: its
    headers. *)
Definition RequestHeaders : Type := list (string * string).

(** [request.headers.get(name)], as [Async.Headers_get] on a response. *)
Definition header (name : string) (headers : RequestHeaders) : option string :=
  match filter (fun kv => String.eqb (toLowerCase (fst kv)) (toLowerCase name)) headers with
  | [] => None
  | l => Some (join ", " (map snd l))
  end.

(** [x || undefined] for the [string | null] a header read gives. *)
Definition or_undefined (x : option string) : option string :=
  match x with
  | Some s => if truthy_string s then Some s else None
  | None => None
  end.

Definition parseTenantCredentials (headers : RequestHeaders) : TenantCredentials :=
  {| weaviateUrl := or_undefined (header "X-Weaviate-URL" headers);
     apiKey := or_undefined (header "X-Weaviate-API-Key" headers);
     openaiApiKey := or_undefined (header "X-OpenAI-Api-Key" headers);
     cohereApiKey := or_undefined (header "X-Cohere-Api-Key" headers);
     huggingfaceApiKey := or_undefined (header "X-HuggingFace-Api-Key" headers);
     anthropicApiKey := or_undefined (header "X-Anthropic-Api-Key" headers);
     azureApiKey := or_undefined (header "X-Azure-Api-Key" headers) |}.

(** It returns nothing, or throws a plain [Error]. *)
Definition validateCredentials (credentials : TenantCredentials) : Outcome unit :=
  if negb (present (weaviateUrl credentials)) then
    Throws (Native "Error"
              "Missing X-Weaviate-URL header. Provide your Weaviate instance URL.")
  else Returns tt.

(** The variables of the environment; a variable that is not set reads as
    [undefined]. *)
Record Env : Type := mkEnv {
  CHARACTER_LIMIT : option string;
  DEFAULT_PAGE_SIZE : option string;
  MAX_PAGE_SIZE : option string
}.

(** [keyof Env]: the three variables and the three bindings. *)
Inductive EnvKey : Type :=
| K_CHARACTER_LIMIT | K_DEFAULT_PAGE_SIZE | K_MAX_PAGE_SIZE
| K_CACHE_KV | K_MCP_SESSIONS | K_AI.

(** [env[key]] when it is a string; a binding is an object, never one. *)
Definition stringAt (env : Env) (key : EnvKey) : option string :=
  match key with
  | K_CHARACTER_LIMIT => CHARACTER_LIMIT env
  | K_DEFAULT_PAGE_SIZE => DEFAULT_PAGE_SIZE env
  | K_MAX_PAGE_SIZE => MAX_PAGE_SIZE env
  | K_CACHE_KV | K_MCP_SESSIONS | K_AI => None
  end.

Definition getEnvNumber (env : Env) (key : EnvKey) (defaultValue : Z) : IntOrNaN :=
  match stringAt env key with
  | Some value =>
      match parseInt value with
      | NaN => Integer defaultValue
      | parsed => parsed
      end
  | None => Integer defaultValue
  end.

Definition getCharacterLimit (env : Env) : IntOrNaN := getEnvNumber env K_CHARACTER_LIMIT 50000.

Definition getDefaultPageSize (env : Env) : IntOrNaN := getEnvNumber env K_DEFAULT_PAGE_SIZE 20.

Definition getMaxPageSize (env : Env) : IntOrNaN := getEnvNumber env K_MAX_PAGE_SIZE 100.

End Env.

(* ================================================================== *)
(** * Pagination parameters (utils/pagination.ts) *)
(* ================================================================== *)

Module Normalize.
Import JS.

(** [PAGINATION_DEFAULTS] *)
Definition PAGINATION_DEFAULTS_limit : Z := 20.

Definition PAGINATION_DEFAULTS_maxLimit : Z := 100.

Record PaginationParams : Type := mkPaginationParams {
  limit : option Z;
  offset : option Z;
  cursor : option string
}.

(** The result type: the limit is there. *)
Record Normalized : Type := mkNormalized {
  n_limit : Z;
  n_cursor : option string;
  n_offset : option Z
}.

(** [maxLimit] is [None] when the caller leaves the argument out. *)
Definition normalizePaginationParams (params : option PaginationParams)
    (maxLimit : option Z) : Normalized :=
  let maxLimit :=
    match maxLimit with Some m => m | None => PAGINATION_DEFAULTS_maxLimit end in
  {| n_limit :=
       Z.min (Z_or (match params with Some p => limit p | None => None end)
                   PAGINATION_DEFAULTS_limit)
             maxLimit;
     n_cursor := match params with Some p => cursor p | None => None end;
     n_offset := match params with Some p => offset p | None => None end |}.

End Normalize.

(* ================================================================== *)
(** * Retryable errors (utils/errors.ts) *)
(* ================================================================== *)

Module Retry.
Import JS Errors.

(** A thrown value here is always an [Error]: a typed one carries its
    flag, any other is judged by its message. *)
Definition isRetryableError (error : Exn) : bool :=
  match error with
  | Typed e => retryable e
  | Native _ message =>
      (Spec.includes message "network"
       || Spec.includes message "timeout"
       || Spec.includes message "ECONNRESET")%bool
  end.

End Retry.

(* ================================================================== *)
(** * The worker entry point (index.ts) *)
(* ================================================================== *)

Module Worker.
Import JS Errors Entities Async Env.

Definition SERVER_NAME : string := "primrose-mcp-weaviate".

Definition SERVER_VERSION : string := "1.0.0".

(** What the handler does with a request: it answers with a response of
    its own (status, content type if it sets one, body), or it builds the
    server for the credentials and hands the request to the MCP handler. *)
Inductive Routed : Type :=
| Respond (status : Z) (contentType : option string) (body : string)
| Serve (credentials : TenantCredentials).

Definition json : option string := Some "application/json".

Definition optional_headers : list string :=
  [ "X-Weaviate-API-Key"; "X-OpenAI-Api-Key"; "X-Cohere-Api-Key";
    "X-HuggingFace-Api-Key"; "X-Anthropic-Api-Key"; "X-Azure-Api-Key" ].

(** The body of the default response. *)
Definition info : Json :=
  JObject
    [ ("name", JString SERVER_NAME);
      ("version", JString SERVER_VERSION);
      ("description", JString "Weaviate MCP Server - Vector Database Operations");
      ("endpoints",
       JObject [ ("mcp", JString "/mcp (POST) - Streamable HTTP MCP endpoint");
                 ("health", JString "/health - Health check") ]);
      ("authentication",
       JObject
         [ ("description", JString "Pass tenant credentials via request headers");
           ("required_headers",
            JObject
              [ ("X-Weaviate-URL",
                 JString
                   "Weaviate instance URL (e.g., https://your-cluster.weaviate.network)") ]);
           ("optional_headers",
            JObject
              [ ("X-Weaviate-API-Key", JString "Weaviate API key for authentication");
                ("X-OpenAI-Api-Key",
                 JString "OpenAI API key for text2vec-openai vectorizer");
                ("X-Cohere-Api-Key",
                 JString "Cohere API key for text2vec-cohere vectorizer");
                ("X-HuggingFace-Api-Key",
                 JString "HuggingFace API key for text2vec-huggingface vectorizer");
                ("X-Anthropic-Api-Key",
                 JString "Anthropic API key for generative modules");
                ("X-Azure-Api-Key", JString "Azure API key for Azure OpenAI") ]) ]);
      ("tools",
       JObject
         [ ("schema",
            strings [ "weaviate_get_schema"; "weaviate_get_class"; "weaviate_create_class";
                      "weaviate_update_class"; "weaviate_delete_class";
                      "weaviate_add_property" ]);
           ("objects",
            strings [ "weaviate_list_objects"; "weaviate_get_object";
                      "weaviate_create_object"; "weaviate_update_object";
                      "weaviate_patch_object"; "weaviate_delete_object";
                      "weaviate_object_exists" ]);
           ("batch",
            strings [ "weaviate_batch_create"; "weaviate_batch_delete";
                      "weaviate_batch_add_references" ]);
           ("search",
            strings [ "weaviate_graphql"; "weaviate_near_vector"; "weaviate_near_text";
                      "weaviate_near_object"; "weaviate_hybrid"; "weaviate_bm25" ]);
           ("references",
            strings [ "weaviate_add_reference"; "weaviate_update_references";
                      "weaviate_delete_reference" ]);
           ("tenants",
            strings [ "weaviate_get_tenants"; "weaviate_create_tenants";
                      "weaviate_update_tenants"; "weaviate_delete_tenants";
                      "weaviate_tenant_exists"; "weaviate_activate_tenants";
                      "weaviate_deactivate_tenants" ]);
           ("backups",
            strings [ "weaviate_create_backup"; "weaviate_get_backup_status";
                      "weaviate_restore_backup"; "weaviate_get_restore_status";
                      "weaviate_cancel_backup" ]);
           ("cluster",
            strings [ "weaviate_get_meta"; "weaviate_is_live"; "weaviate_is_ready";
                      "weaviate_get_nodes"; "weaviate_get_cluster_statistics" ]);
           ("classification",
            strings [ "weaviate_create_classification"; "weaviate_get_classification" ]);
           ("connection", strings [ "weaviate_test_connection" ]) ]) ].

(** The [fetch] handler of the worker, on the path of the URL, the method
    and the headers of the request. *)
Definition fetchHandler (pathname method : string) (headers : RequestHeaders) : Routed :=
  (* Health check endpoint *)
  if String.eqb pathname "/health" then
    Respond 200 json
      (JSON_stringify (JObject [("status", JString "ok"); ("server", JString SERVER_NAME)]))
  (* Stateless MCP with Streamable HTTP *)
  else if (String.eqb pathname "/mcp" && String.eqb method "POST")%bool then
    let credentials := parseTenantCredentials headers in
    match validateCredentials credentials with
    | Throws error =>
        Respond 401 json
          (JSON_stringify
             (JObject
                [ ("error", JString "Unauthorized");
                  ("message", JString (exn_message error));
                  ("required_headers", strings ["X-Weaviate-URL"]);
                  ("optional_headers", strings optional_headers) ]))
    | Returns _ => Serve credentials
    end
  (* SSE endpoint for legacy clients *)
  else if String.eqb pathname "/sse" then
    Respond 501 None "SSE endpoint requires Durable Objects. Enable in wrangler.jsonc."
  (* Default response *)
  else Respond 200 json (JSON_stringify info).

End Worker.

(* ================================================================== *)
(** * Notions the further properties are stated with *)
(* ================================================================== *)

Module Notions.
Import JS.

(** The value of a run of decimal digits read after [acc]. *)
Fixpoint digitsValue (acc : Z) (d : Decimal.uint) : Z :=
  match d with
  | Decimal.Nil => acc
  | Decimal.D0 l => digitsValue (10 * acc + 0) l
  | Decimal.D1 l => digitsValue (10 * acc + 1) l
  | Decimal.D2 l => digitsValue (10 * acc + 2) l
  | Decimal.D3 l => digitsValue (10 * acc + 3) l
  | Decimal.D4 l => digitsValue (10 * acc + 4) l
  | Decimal.D5 l => digitsValue (10 * acc + 5) l
  | Decimal.D6 l => digitsValue (10 * acc + 6) l
  | Decimal.D7 l => digitsValue (10 * acc + 7) l
  | Decimal.D8 l => digitsValue (10 * acc + 8) l
  | Decimal.D9 l => digitsValue (10 * acc + 9) l
  end.

(** The normalized parameters, passed again. *)
Definition again (n : Normalize.Normalized) : option Normalize.PaginationParams :=
  Some {| Normalize.limit := Some (Normalize.n_limit n);
          Normalize.offset := Normalize.n_offset n;
          Normalize.cursor := Normalize.n_cursor n |}.

(** The offsets a caller visits who starts at [offset] and follows
    [getNextOffset] until it is undefined, at most [fuel] times; the
    numbers are added and compared as JavaScript does. *)
Fixpoint offsetsFrom (fuel : nat) (offset limit total : IntOrNaN) : list IntOrNaN :=
  offset ::
  match fuel with
  | O => []
  | S fuel' =>
      match Pagination.getNextOffset JS.add JS.ltb offset limit total with
      | Some next => offsetsFrom fuel' next limit total
      | None => []
      end
  end.

(** The number of pages of [total] items, [limit] to a page: at least one. *)
Definition pageCount (limit total : Z) : Z := Z.max 1 ((total + limit - 1) / limit).

(** [o[k]] on an object with string keys: [None] is [undefined]. *)
Fixpoint property (k : string) (o : list (string * string)) : option string :=
  match o with
  | [] => None
  | (k', v) :: rest => if String.eqb k' k then Some v else property k rest
  end.

(** The header a credential gives: none when the credential is absent or
    empty. *)
Definition credentialHeader (name : string) (key : option string) (f : string -> string)
    : list (string * string) :=
  match key with
  | Some k => if truthy_string k then [(name, f k)] else []
  | None => []
  end.

(** How often a character occurs in a text. *)
Fixpoint count (c : ascii) (s : string) : nat :=
  match s with
  | EmptyString => O
  | String d rest => ((if Ascii.eqb d c then 1 else 0) + count c rest)%nat
  end.

(** The characters [encodeURIComponent] lets through or produces. *)
Definition uriSafe (c : ascii) : bool := (isAlphaNum c || one_of "-_.!~*'()%" c)%bool.

(** The characters the form encoding lets through or produces. *)
Definition formSafe (c : ascii) : bool := (isAlphaNum c || one_of "*-._+%" c)%bool.

(** The characters of the text of a number: digits, the sign, the point
    and the exponent mark. *)
Definition numberChar (c : ascii) : bool := (isDigit c || one_of "-.e+" c)%bool.

(** Every character of the text passes the test. *)
Fixpoint all (p : ascii -> bool) (s : string) : bool :=
  match s with
  | EmptyString => true
  | String d rest => (p d && all p rest)%bool
  end.

(** [t.name === tenantName] for an element that is not [null]. *)
Definition named (tenantName : string) (t : Json) : bool :=
  match get "name" t with
  | Some (JString n) => String.eqb n tenantName
  | _ => false
  end.

Definition notNull (t : Json) : bool :=
  match t with JNull => false | _ => true end.

(** The options of a call pair the method and the body soundly: a body
    comes with one of the four writing methods, and a method is one of
    those or HEAD. *)
Definition sound (init : Async.RequestInit) : bool :=
  match Async.method init, Async.body init with
  | None, None => true
  | None, Some _ => false
  | Some m, None => existsb (String.eqb m) ["POST"; "PUT"; "PATCH"; "DELETE"; "HEAD"]
  | Some m, Some _ => existsb (String.eqb m) ["POST"; "PUT"; "PATCH"; "DELETE"]
  end.

End Notions.

(* ================================================================== *)
(** * Filters, and reading a JSON text back *)
(* ================================================================== *)

Module Filter.
Import JS Entities.

(** The thirteen value properties of a filter node. *)
Definition valueFields : list string :=
  [ "valueInt"; "valueNumber"; "valueBoolean"; "valueString"; "valueText"; "valueDate";
    "valueGeoRange"; "valueIntArray"; "valueNumberArray"; "valueBooleanArray";
    "valueStringArray"; "valueTextArray"; "valueDateArray" ].

Definition isValueField (key : string) : bool := existsb (String.eqb key) valueFields.

(** The value properties a node populates, with their values. *)
Definition populated (w : WhereFilter) : list (string * Json) :=
  match w with
  | JObject members => filter (fun kv => isValueField (fst kv)) members
  | _ => []
  end.

(** The two combinators; every other operator is a leaf. *)
Definition isCombinator (w : WhereFilter) : bool :=
  match get "operator" w with
  | Some (JString op) => (String.eqb op "And" || String.eqb op "Or")%bool
  | _ => false
  end.

(** The operands among the properties of a node. *)
Fixpoint operandsIn (members : list (string * Json)) : list Json :=
  match members with
  | [] => []
  | (k, v) :: rest =>
      (if String.eqb k "operands"
       then match v with JArray ops => ops | _ => [] end
       else [])
      ++ operandsIn rest
  end.

Definition operandsOf (w : WhereFilter) : list WhereFilter :=
  match w with
  | JObject members => operandsIn members
  | _ => []
  end.

Definition isEmpty {A : Type} (l : list A) : bool :=
  match l with [] => true | _ :: _ => false end.

(** The invariant of the data model, at every node of the tree: a
    combinator carries operands, at least one, and no value; a leaf carries
    exactly one value. *)
Fixpoint holdsInvariant (w : WhereFilter) : bool :=
  match w with
  | JObject members =>
      if isCombinator w then
        (negb (isEmpty (operandsIn members))
         && isEmpty (populated w)
         && (fix each (ms : list (string * Json)) : bool :=
               match ms with
               | [] => true
               | (k, v) :: rest =>
                   ((if String.eqb k "operands" then
                       match v with
                       | JArray ops =>
                           (fix all (l : list Json) : bool :=
                              match l with
                              | [] => true
                              | o :: r => (holdsInvariant o && all r)%bool
                              end) ops
                       | _ => true
                       end
                     else true)
                    && each rest)%bool
               end) members)%bool
      else Nat.eqb (List.length (populated w)) 1
  | _ => false
  end.

(** The serialization of a filter node, as [buildGraphQLGetQuery] embeds
    it. *)
Definition filterText (w : WhereFilter) : string := JSON_stringify w.

(** A filter for the examples: name = x and age > 3. *)
Definition exampleFilter : WhereFilter :=
  JObject
    [ ("operator", JString "And");
      ("operands",
       JArray
         [ JObject [ ("path", strings ["name"]);
                     ("operator", JString "Equal");
                     ("valueString", JString "x") ];
           JObject [ ("operator", JString "GreaterThan");
                     ("valueInt", JNumber (Int 3));
                     ("path", strings ["age"]) ] ]) ].

(** A leaf whose number is an infinity, as [JSON.parse] gives it for
    1e999. *)
Definition unboundedFilter : WhereFilter :=
  JObject
    [ ("operator", JString "LessThan");
      ("path", strings ["price"]);
      ("valueNumber", JNumber (Infinity false)) ].

End Filter.

Module Reader.
Import JS.

(** ** Strings *)

Definition hexValue (c : ascii) : option Z :=
  let n := Z.of_nat (nat_of_ascii c) in
  if in_range 48 57 c then Some (n - 48)
  else if in_range 97 102 c then Some (n - 87)
  else if in_range 65 70 c then Some (n - 55)
  else None.

(** The code unit of four hexadecimal digits. *)
Definition codeUnit (h1 h2 h3 h4 : ascii) : option Z :=
  match hexValue h1, hexValue h2, hexValue h3, hexValue h4 with
  | Some a, Some b, Some c, Some d => Some (((a * 16 + b) * 16 + c) * 16 + d)
  | _, _, _, _ => None
  end.

(** The surrogates: D800 to DBFF the high ones, DC00 to DFFF the low. *)
Definition isHigh (n : Z) : bool := ((55296 <=? n) && (n <? 56320))%bool.
Definition isLow (n : Z) : bool := ((56320 <=? n) && (n <? 57344))%bool.

Definition byte (n : Z) : ascii := ascii_of_nat (Z.to_nat n).

(** The bytes of a code point; a surrogate has the three bytes of its code
    point. *)
Definition utf8 (n : Z) : string :=
  string_of_list_ascii
    (map byte
       (if n <? 128 then [n]
        else if n <? 2048 then [192 + n / 64; 128 + n mod 64]
        else if n <? 65536 then [224 + n / 4096; 128 + (n / 64) mod 64; 128 + n mod 64]
        else [240 + n / 262144; 128 + (n / 4096) mod 64; 128 + (n / 64) mod 64;
              128 + n mod 64])).

(** The escape of a low surrogate, if the text starts with one. *)
Definition lowAhead (s : string) : option (Z * string) :=
  match s with
  | String b (String u (String h1 (String h2 (String h3 (String h4 r))))) =>
      if (Ascii.eqb b backslash && Ascii.eqb u "u")%bool then
        match codeUnit h1 h2 h3 h4 with
        | Some m => if isLow m then Some (m, r) else None
        | None => None
        end
      else None
  | _ => None
  end.

(** What follows a backslash: the characters it stands for, and the rest.
    A high surrogate and the low surrogate that follows it are one
    character. *)
Definition readEscape (s : string) : option (string * string) :=
  match s with
  | String e r =>
      if Ascii.eqb e "b" then Some (bytes [8]%nat, r)
      else if Ascii.eqb e "t" then Some (bytes [9]%nat, r)
      else if Ascii.eqb e "n" then Some (bytes [10]%nat, r)
      else if Ascii.eqb e "f" then Some (bytes [12]%nat, r)
      else if Ascii.eqb e "r" then Some (bytes [13]%nat, r)
      else if Ascii.eqb e dquote then Some (char dquote, r)
      else if Ascii.eqb e backslash then Some (char backslash, r)
      else if Ascii.eqb e "/" then Some ("/", r)
      else if Ascii.eqb e "u" then
        match r with
        | String h1 (String h2 (String h3 (String h4 r'))) =>
            match codeUnit h1 h2 h3 h4 with
            | Some n =>
                if isHigh n then
                  match lowAhead r' with
                  | Some (m, r'') =>
                      Some (utf8 (65536 + (n - 55296) * 1024 + (m - 56320)), r'')
                  | None => Some (utf8 n, r')
                  end
                else Some (utf8 n, r')
            | None => None
            end
        | _ => None
        end
      else None
  | EmptyString => None
  end.

(** The characters of a string literal after its opening quote, up to the
    closing one, and what follows it. *)
Fixpoint readString (fuel : nat) (s : string) : option (string * string) :=
  match fuel with
  | O => None
  | S fuel' =>
      match s with
      | EmptyString => None
      | String c r =>
          if Ascii.eqb c dquote then Some (EmptyString, r)
          else if Ascii.eqb c backslash then
            match readEscape r with
            | Some (t, r') =>
                match readString fuel' r' with
                | Some (text, rest) => Some (t ++ text, rest)
                | None => None
                end
            | None => None
            end
          else if Nat.ltb (nat_of_ascii c) 32 then None
          else
            match readString fuel' r with
            | Some (text, rest) => Some (String c text, rest)
            | None => None
            end
      end
  end.

(** ** Numbers *)

(** The longest prefix of characters that pass the test, and the rest. *)
Fixpoint span (p : ascii -> bool) (s : string) : string * string :=
  match s with
  | EmptyString => (EmptyString, EmptyString)
  | String c r =>
      if p c then let '(a, b) := span p r in (String c a, b) else (EmptyString, s)
  end.

(** The text is empty or starts with a character that fails the test:
    a span ends there. *)
Definition stops (p : ascii -> bool) (s : string) : bool :=
  match s with
  | EmptyString => true
  | String c _ => negb (p c)
  end.

(** The value of a run of decimal digits read after [acc]. *)
Fixpoint valueOf (acc : Z) (digits : string) : Z :=
  match digits with
  | EmptyString => acc
  | String c r => valueOf (10 * acc + (Z.of_nat (nat_of_ascii c) - 48)) r
  end.

(** Digits, at least one, without a leading zero unless the zero is all
    there is. *)
Definition proper (digits : string) : bool :=
  match digits with
  | EmptyString => false
  | String c r =>
      (Notions.all isDigit digits
       && (negb (Ascii.eqb c "0") || match r with EmptyString => true | _ => false end))%bool
  end.

Definition endsWithZero (digits : string) : bool := Spec.endsWithChar "0" digits.

(** How many zeros the digits start with. *)
Fixpoint leadingZeros (digits : string) : nat :=
  match digits with
  | String c r => if Ascii.eqb c "0" then S (leadingZeros r) else O
  | EmptyString => O
  end.

Definition unsigned (token : string) : string :=
  match token with
  | String c body => if Ascii.eqb c "-" then body else token
  | EmptyString => token
  end.

Definition isNegative (token : string) : bool :=
  match token with
  | String c _ => Ascii.eqb c "-"
  | EmptyString => false
  end.

(** The text of a number that is not an integer, in the form
    [Number.prototype.toString] gives it: digits with a fraction that does
    not end in a zero, from a millionth on; below that one digit, a
    fraction if any, and a negative exponent of at least 7. *)
Definition canonicalFraction (token : string) : bool :=
  let '(whole, r1) := span isDigit (unsigned token) in
  match r1 with
  | String c1 f =>
      if Ascii.eqb c1 "." then
        let '(frac, r2) := span isDigit f in
        (proper whole
         && match frac with EmptyString => false | _ => negb (endsWithZero frac) end
         && match r2 with
            | EmptyString =>
                (negb (String.eqb whole "0") || Nat.leb (leadingZeros frac) 5)%bool
            | String e (String m ex) =>
                (Ascii.eqb e "e" && Ascii.eqb m "-"
                 && Nat.eqb (String.length whole) 1 && negb (String.eqb whole "0")
                 && proper ex && (7 <=? valueOf 0 ex))%bool
            | _ => false
            end)%bool
      else
        match f with
        | String m ex =>
            (Ascii.eqb c1 "e" && Ascii.eqb m "-"
             && Nat.eqb (String.length whole) 1 && negb (String.eqb whole "0")
             && proper ex && (7 <=? valueOf 0 ex))%bool
        | EmptyString => false
        end
  | EmptyString => false
  end.

(** The value of the text of an integer: digits, or digits with a fraction
    and a positive exponent that covers it. *)
Definition integerOf (token : string) : option Z :=
  let '(whole, r1) := span isDigit (unsigned token) in
  let sign := if isNegative token then -1 else 1 in
  if negb (proper whole) then None
  else
    match r1 with
    | EmptyString => Some (sign * valueOf 0 whole)
    | String c1 f =>
        let '(frac, r2) :=
          if Ascii.eqb c1 "." then span isDigit f else (EmptyString, r1) in
        if (Ascii.eqb c1 "." && match frac with EmptyString => true | _ => false end)%bool
        then None
        else
          match r2 with
          | String e (String p ex) =>
              if (Ascii.eqb e "e" && Ascii.eqb p "+" && proper ex
                  && (Z.of_nat (String.length frac) <=? valueOf 0 ex))%bool
              then Some (sign * valueOf 0 (whole ++ frac)
                         * 10 ^ (valueOf 0 ex - Z.of_nat (String.length frac)))
              else None
          | _ => None
          end
    end.

(** The number an integer value is. *)
Definition numberOfZ (z : Z) : number :=
  match toNumber z with
  | Integer r => Int r
  | Infinite negative => Infinity negative
  | NaN => NotANumber
  end.

Definition numberOf (token : string) : option number :=
  if canonicalFraction token then Some (Dec token)
  else option_map numberOfZ (integerOf token).

Definition readNumber (s : string) : option (number * string) :=
  let '(token, rest) := span Notions.numberChar s in
  match numberOf token with
  | Some n => Some (n, rest)
  | None => None
  end.

(** ** Values *)

(** The text starts with the word: what follows it. *)
Fixpoint after (word s : string) : option string :=
  match word with
  | EmptyString => Some s
  | String w ws =>
      match s with
      | String c r => if Ascii.eqb w c then after ws r else None
      | EmptyString => None
      end
  end.

Section Lists.
(** The reader of one value, and what follows the value. *)
Variable readValue : string -> option (Json * string).

(** The elements of an array after the first bracket, with the commas
    between them, up to the closing bracket. *)
Fixpoint readElements (fuel : nat) (s : string) : option (list Json * string) :=
  match fuel with
  | O => None
  | S fuel' =>
      match readValue s with
      | Some (v, String c r) =>
          if Ascii.eqb c "," then
            match readElements fuel' r with
            | Some (vs, r') => Some (v :: vs, r')
            | None => None
            end
          else if Ascii.eqb c "]" then Some ([v], r)
          else None
      | _ => None
      end
  end.

(** The members of an object after the brace, up to the closing brace. *)
Fixpoint readMembers (fuel : nat) (s : string) : option (list (string * Json) * string) :=
  match fuel with
  | O => None
  | S fuel' =>
      match s with
      | String q r =>
          if Ascii.eqb q dquote then
            match readString (String.length r) r with
            | Some (key, String colon r1) =>
                if Ascii.eqb colon ":" then
                  match readValue r1 with
                  | Some (v, String c r2) =>
                      if Ascii.eqb c "," then
                        match readMembers fuel' r2 with
                        | Some (ms, r') => Some ((key, v) :: ms, r')
                        | None => None
                        end
                      else if Ascii.eqb c "}" then Some ([(key, v)], r2)
                      else None
                  | _ => None
                  end
                else None
            | _ => None
            end
          else None
      | EmptyString => None
      end
  end.
End Lists.

(** One value of a JSON text without white space, as [JSON.stringify]
    writes it, and what follows the value; [fuel] bounds the nesting. *)
Fixpoint readValue (fuel : nat) (s : string) : option (Json * string) :=
  match fuel with
  | O => None
  | S fuel' =>
      match s with
      | EmptyString => None
      | String c r =>
          if Ascii.eqb c "n" then option_map (fun rest => (JNull, rest)) (after "ull" r)
          else if Ascii.eqb c "t" then
            option_map (fun rest => (JBool true, rest)) (after "rue" r)
          else if Ascii.eqb c "f" then
            option_map (fun rest => (JBool false, rest)) (after "alse" r)
          else if Ascii.eqb c dquote then
            match readString (String.length r) r with
            | Some (text, rest) => Some (JString text, rest)
            | None => None
            end
          else if Ascii.eqb c "[" then
            match r with
            | String d r' =>
                if Ascii.eqb d "]" then Some (JArray [], r')
                else
                  match readElements (readValue fuel') (String.length r) r with
                  | Some (vs, rest) => Some (JArray vs, rest)
                  | None => None
                  end
            | EmptyString => None
            end
          else if Ascii.eqb c "{" then
            match r with
            | String d r' =>
                if Ascii.eqb d "}" then Some (JObject [], r')
                else
                  match readMembers (readValue fuel') (String.length r) r with
                  | Some (ms, rest) => Some (JObject ms, rest)
                  | None => None
                  end
            | EmptyString => None
            end
          else
            match readNumber s with
            | Some (n, rest) => Some (JNumber n, rest)
            | None => None
            end
      end
  end.

(** The value a text denotes: the whole text is one value.  No value nests
    deeper than its text is long. *)
Definition read (s : string) : option Json :=
  match readValue (String.length s) s with
  | Some (v, EmptyString) => Some v
  | _ => None
  end.

(** ** The values that can be read back *)

(** The text starts with a low surrogate: ED, then B0 to BF. *)
Definition startsLow (s : string) : bool :=
  match s with
  | String d (String d2 _) => (Nat.eqb (nat_of_ascii d) 237 && in_range 176 191 d2)%bool
  | _ => false
  end.

(** The bytes are the text of a JavaScript string: no surrogate is cut
    short, and no high surrogate (ED, then A0 to AF) stands before a low
    one, the two being one character of four bytes. *)
Fixpoint isText (s : string) : bool :=
  match s with
  | EmptyString => true
  | String c r =>
      ((if startsSurrogate c r then
          match r with
          | String c2 (String c3 r3) =>
              (in_range 128 191 c3 && negb (in_range 160 175 c2 && startsLow r3))%bool
          | _ => false
          end
        else true)
       && isText r)%bool
  end.

(** A finite number as JSON writes it: an integer that is a double, or the
    text of a number that is not an integer. *)
Definition legibleNumber (n : number) : bool :=
  match n with
  | Int z => ((round z =? z) && (Z.abs z <=? MAX_VALUE))%bool
  | Dec text => canonicalFraction text
  | Infinity _ | NotANumber => false
  end.

(** A value whose numbers are finite and whose strings are texts. *)
Fixpoint legible (v : Json) : bool :=
  match v with
  | JNull | JBool _ => true
  | JNumber n => legibleNumber n
  | JString s => isText s
  | JArray elements =>
      (fix all (l : list Json) : bool :=
         match l with
         | [] => true
         | e :: r => (legible e && all r)%bool
         end) elements
  | JObject members =>
      (fix each (ms : list (string * Json)) : bool :=
         match ms with
         | [] => true
         | (k, x) :: rest => (isText k && legible x && each rest)%bool
         end) members
  end.

(** Value preservation as the specification words it: reading the text of
    a filter node that satisfies the invariant gives the node back. *)
Definition value_preservation_as_stated : Prop :=
  forall w : Entities.WhereFilter,
    Entities.isWhereFilter w = true ->
    Filter.holdsInvariant w = true ->
    read (Filter.filterText w) = Some w.

End Reader.

(* ================================================================== *)
(** * Properties *)
(* ================================================================== *)

(* ================================================================== *)
(** * Properties *)
(* ================================================================== *)

(* ------------------------------------------------------------------ *)
(** ** Numbers *)
(* ------------------------------------------------------------------ *)

Section NumberFacts.
Import JS.

Lemma safe_value : safe = 9007199254740992.
Proof. reflexivity. Qed.

(** Up to 2^53 rounding changes nothing. *)
Lemma round_safe (z : Z) : Z.abs z <= safe -> round z = z.
Proof.
  intros H. unfold round, roundNatural.
  destruct (z <? 0) eqn:Hneg.
  - apply Z.ltb_lt in Hneg.
    replace (- z <=? safe) with true by (symmetry; apply Z.leb_le; lia). lia.
  - apply Z.ltb_ge in Hneg.
    replace (z <=? safe) with true by (symmetry; apply Z.leb_le; lia). reflexivity.
Qed.

Lemma safe_below_MAX_VALUE : safe <= MAX_VALUE.
Proof. apply Z.leb_le. vm_compute. reflexivity. Qed.

Lemma toNumber_safe (z : Z) : Z.abs z <= safe -> toNumber z = Integer z.
Proof.
  intros H. unfold toNumber. rewrite (round_safe z H).
  replace (Z.abs z <=? MAX_VALUE) with true; [reflexivity |].
  symmetry. apply Z.leb_le. pose proof safe_below_MAX_VALUE. lia.
Qed.

Lemma add_safe (a b : Z) :
  Z.abs (a + b) <= safe -> add (Integer a) (Integer b) = Integer (a + b).
Proof. intros H. simpl. apply toNumber_safe, H. Qed.

Lemma String_of_Z_safe (z : Z) : Z.abs z <= safe -> String_of_Z z = decimal z.
Proof.
  intros H. unfold String_of_Z.
  replace (Z.abs z <=? safe) with true by (symmetry; apply Z.leb_le; exact H).
  reflexivity.
Qed.

(** Beyond 2^53 rounding stays at or beyond 2^53. *)
Lemma roundNatural_beyond (z : Z) : safe < z -> safe <= roundNatural z.
Proof.
  intros H. unfold roundNatural.
  replace (z <=? safe) with false by (symmetry; apply Z.leb_gt; exact H).
  cbv zeta.
  assert (Hz : 0 < z) by (unfold safe in H; lia).
  destruct (Z.log2_spec z Hz) as [Hlo Hhi].
  assert (He : 53 <= Z.log2 z).
  { apply Z.log2_le_pow2; [exact Hz |]. unfold safe in H. lia. }
  set (e := Z.log2 z) in *.
  set (unit := 2 ^ (e - 52)).
  assert (Hunit : 0 < unit) by (apply Z.pow_pos_nonneg; lia).
  assert (Hpow : unit * 2 ^ 52 = 2 ^ e).
  { unfold unit. rewrite <- Z.pow_add_r by lia. f_equal. lia. }
  assert (Hq : 2 ^ 52 <= z / unit).
  { apply Z.div_le_lower_bound; [exact Hunit |]. rewrite Hpow. exact Hlo. }
  assert (Hsafe : safe <= 2 ^ e).
  { unfold safe. apply Z.pow_le_mono_r; lia. }
  assert (Hbase : 2 ^ e <= z / unit * unit).
  { rewrite <- Hpow. rewrite (Z.mul_comm unit). apply Z.mul_le_mono_nonneg_r; lia. }
  destruct ((z mod unit <? unit / 2) || (z mod unit =? unit / 2) && Z.even (z / unit))%bool.
  - lia.
  - rewrite Z.mul_add_distr_r. lia.
Qed.

(** Comparing a sum with a total of at most 2^53 is exact. *)
Lemma ltb_toNumber (s total : Z) :
  0 <= s -> 0 <= total <= safe ->
  ltb (toNumber s) (Integer total) = (s <? total).
Proof.
  intros Hs Ht.
  destruct (Z_le_gt_dec s safe) as [Hle | Hgt].
  - rewrite toNumber_safe by lia. reflexivity.
  - replace (s <? total) with false by (symmetry; apply Z.ltb_ge; lia).
    unfold toNumber, round.
    replace (s <? 0) with false by (symmetry; apply Z.ltb_ge; lia).
    pose proof (roundNatural_beyond s ltac:(lia)) as Hr.
    destruct (Z.abs (roundNatural s) <=? MAX_VALUE); simpl.
    + apply Z.ltb_ge. lia.
    + reflexivity.
Qed.

End NumberFacts.

(* ------------------------------------------------------------------ *)
(** ** The pagination arithmetic *)
(* ------------------------------------------------------------------ *)

Section PaginationFacts.
Import Pagination.

(** C9. The worked examples of the pagination arithmetic:
    hasMoreItems(10, 10, 25) is true, hasMoreItems(20, 10, 25) is false,
    getNextOffset(0, 20, 45) is 20 and getNextOffset(40, 20, 45) is
    undefined; over the integers, and the same over the numbers of
    JavaScript with their addition and their comparison. *)
Theorem pagination_worked_examples :
  (hasMoreItems Z.add Z.ltb 10 10 25 = true /\
   hasMoreItems Z.add Z.ltb 20 10 25 = false /\
   getNextOffset Z.add Z.ltb 0 20 45 = Some 20 /\
   getNextOffset Z.add Z.ltb 40 20 45 = None) /\
  (hasMoreItems JS.add JS.ltb (JS.Integer 10) (JS.Integer 10) (JS.Integer 25) = true /\
   hasMoreItems JS.add JS.ltb (JS.Integer 20) (JS.Integer 10) (JS.Integer 25) = false /\
   getNextOffset JS.add JS.ltb (JS.Integer 0) (JS.Integer 20) (JS.Integer 45)
     = Some (JS.Integer 20) /\
   getNextOffset JS.add JS.ltb (JS.Integer 40) (JS.Integer 20) (JS.Integer 45) = None).
Proof. repeat split; vm_compute; reflexivity. Qed.

(** C10. For every offset, limit and total, over any carrier of numbers
    with its addition and its comparison, getNextOffset is defined exactly
    when hasMoreItems is true, and the value it then gives is offset +
    limit. *)
Theorem getNextOffset_iff_hasMoreItems :
  forall (number : Type) (add : number -> number -> number)
         (ltb : number -> number -> bool) (offset limit total : number),
    getNextOffset add ltb offset limit total =
      (if hasMoreItems add ltb offset limit total
       then Some (add offset limit) else None) /\
    (match getNextOffset add ltb offset limit total with
     | Some _ => true
     | None => false
     end) = hasMoreItems add ltb offset limit total.
Proof.
  intros number add ltb offset limit total.
  unfold getNextOffset, hasMoreItems.
  destruct (ltb (add offset limit) total); split; reflexivity.
Qed.

End PaginationFacts.

(* ------------------------------------------------------------------ *)
(** ** Running asynchronous programs *)
(* ------------------------------------------------------------------ *)

Section AsyncFacts.
Import JS Errors Async.
Context {A B : Type}.

(** A program bound to a continuation runs the program first; what it
    throws is thrown by the whole, with the same calls made. *)
Lemma run_bind (net : Network) (m : Prog A) (f : A -> Prog B) :
  run net (bind m f) =
  match run net m with
  | (Returns a, calls) => let '(o, calls') := run net (f a) in (o, (calls ++ calls')%list)
  | (Throws e, calls) => (Throws e, calls)
  end.
Proof.
  induction m as [a | e | url init k IH]; simpl.
  - destruct (run net (f a)); reflexivity.
  - reflexivity.
  - rewrite IH. destruct (run net (k (net url init))) as [[a | e] calls].
    + destruct (run net (f a)); reflexivity.
    + reflexivity.
Qed.

(** [try] ... [catch]: what the body throws goes to the handler. *)
Lemma run_try_catch (net : Network) (m : Prog A) (handler : Exn -> Prog A) :
  run net (try_catch m handler) =
  match run net m with
  | (Returns a, calls) => (Returns a, calls)
  | (Throws e, calls) => let '(o, calls') := run net (handler e) in (o, (calls ++ calls')%list)
  end.
Proof.
  induction m as [a | e | url init k IH]; simpl.
  - reflexivity.
  - destruct (run net (handler e)); reflexivity.
  - rewrite IH. destruct (run net (k (net url init))) as [[a | e] calls].
    + reflexivity.
    + destruct (run net (handler e)); reflexivity.
Qed.

Lemma run_bind_throws (net : Network) (m : Prog A) (f : A -> Prog B) e calls :
  run net m = (Throws e, calls) -> run net (bind m f) = (Throws e, calls).
Proof. intros H. rewrite run_bind, H. reflexivity. Qed.

End AsyncFacts.

(* ------------------------------------------------------------------ *)
(** ** The HTTP request pipeline *)
(* ------------------------------------------------------------------ *)

Section RequestFacts.
Import JS Errors Entities Async Client Spec.

Variable JSON_parse : string -> Json + Exn.

(** C5. With no base URL configured, [request] throws the authentication
    error before anything is awaited, whatever the path, method and body:
    the program is the bare [throw], and running it on any network makes no
    [fetch] call. *)
Theorem request_without_base_url :
  forall (this : WeaviateClientImpl) (endpoint : string) (options : RequestInit),
    baseUrl this = EmptyString ->
    let thrown :=
      Typed (AuthenticationError
               "No Weaviate URL provided. Include X-Weaviate-URL header.") in
    request JSON_parse this endpoint options = Throw thrown /\
    performsNoFetch (request JSON_parse this endpoint options) = true /\
    forall net : Network,
      run net (request JSON_parse this endpoint options) = (Throws thrown, []).
Proof.
  intros this endpoint options Hurl thrown.
  assert (E : request JSON_parse this endpoint options = Throw thrown).
  { unfold request. rewrite Hurl. reflexivity. }
  rewrite E. repeat split; reflexivity.
Qed.

Lemma truthy_nonempty (s : string) : s <> EmptyString -> truthy_string s = true.
Proof. destruct s; [intros H; now elim H | reflexivity]. Qed.

(** What [request] does once the response is there, for a client with a
    base URL. *)
Lemma run_request_answered (this : WeaviateClientImpl) endpoint options response :
  baseUrl this <> EmptyString ->
  run (answering response) (request JSON_parse this endpoint options) =
  let r := response in
  (if status r =? 429 then
     Throws (Typed (RateLimitError "Rate limit exceeded"
                      (match Headers_get "Retry-After" r with
                       | Some h => if truthy_string h then parseInt h else Integer 60
                       | None => Integer 60
                       end)))
   else if ((status r =? 401) || (status r =? 403))%bool then
     Throws (Typed (AuthenticationError
                      "Authentication failed. Check your Weaviate API key."))
   else if status r =? 404 then Throws (Typed (NotFoundError "Resource" endpoint))
   else if negb (ok r) then
     match ToString (errorMessage JSON_parse r) with
     | Some message =>
         Throws (Typed (WeaviateApiError message (Some (status r)) None false))
     | None => Throws TypeError_primitive
     end
   else if status r =? 204 then Returns None
   else if negb (truthy_string (text r)) then Returns None
   else match JSON_parse (text r) with
        | inl v => Returns (Some v)
        | inr e => Throws e
        end,
   [fetched this endpoint options]).
Proof.
  intros Hurl. unfold request. rewrite (truthy_nonempty _ Hurl). simpl.
  unfold answering, fetched.
  repeat match goal with
         | |- context [if ?c then _ else _] => destruct c; try reflexivity
         end.
  - destruct (ToString (errorMessage JSON_parse response)); reflexivity.
  - destruct (JSON_parse (text response)); reflexivity.
Qed.

(** C4. The classification is a decision list: a response with status 429
    gives the rate-limit error and a response with status 404 gives the
    not-found error, whatever the body is and whatever [JSON.parse] makes of
    it; the generic handling of a response that is not ok is not reached. *)
Theorem status_decision_list :
  forall (this : WeaviateClientImpl) (endpoint : string) (options : RequestInit)
         (response : Response),
    baseUrl this <> EmptyString ->
    (status response = 429 ->
     fst (run (answering response) (request JSON_parse this endpoint options)) =
     Throws (Typed (RateLimitError "Rate limit exceeded"
                      (match Headers_get "Retry-After" response with
                       | Some h => if truthy_string h then parseInt h else Integer 60
                       | None => Integer 60
                       end)))) /\
    (status response = 404 ->
     fst (run (answering response) (request JSON_parse this endpoint options)) =
     Throws (Typed (NotFoundError "Resource" endpoint))).
Proof.
  intros this endpoint options response Hurl.
  rewrite (run_request_answered this endpoint options response Hurl).
  split; intros Hs; cbv zeta; rewrite Hs; reflexivity.
Qed.

(** The retry-after value is 60 when the header is absent. *)
Lemma retry_after_absent (this : WeaviateClientImpl) endpoint options body :
  baseUrl this <> EmptyString ->
  fst (run (answering {| status := 429; responseHeaders := []; text := body |})
         (request JSON_parse this endpoint options)) =
  Throws (Typed (RateLimitError "Rate limit exceeded" (Integer 60))).
Proof.
  intros Hurl. rewrite (run_request_answered _ _ _ _ Hurl). reflexivity.
Qed.

(** The retry-after value is the integer the header starts with. *)
Example retry_after_parsed :
  fst (run (answering {| status := 429;
                         responseHeaders := [("retry-after", "120")];
                         text := "{" |})
         (request JSON_parse exampleClient "/schema" noInit)) =
  Throws (Typed (RateLimitError "Rate limit exceeded" (Integer 120))).
Proof. reflexivity. Qed.

(** C2, at a response the code mishandles.  The header is there and is not
    an integer (here the HTTP-date form of Retry-After): the value of the
    rate-limit error is NaN, not 60. *)
Theorem retry_after_unparsable_is_NaN :
  fst (run (answering {| status := 429;
                         responseHeaders :=
                           [("Retry-After", "Wed, 21 Oct 2015 07:28:00 GMT")];
                         text := EmptyString |})
         (request JSON_parse exampleClient "/schema" noInit)) =
  Throws (Typed (RateLimitError "Rate limit exceeded" NaN)) /\
  RateLimitError "Rate limit exceeded" NaN <>
  RateLimitError "Rate limit exceeded" (Integer 60).
Proof. split; [reflexivity | discriminate]. Qed.

End RequestFacts.

Lemma request_without_base_url_witness :
  Client.baseUrl Spec.clientWithoutUrl = EmptyString /\
  Async.run (Spec.failing (Errors.Native "TypeError" "fetch failed"))
      (Client.request (fun _ => inl JS.JNull) Spec.clientWithoutUrl "/schema"
         (Client.withBody "POST" (Some "{}")))
    = (Async.Throws
         (Errors.Typed
            (Errors.AuthenticationError
               "No Weaviate URL provided. Include X-Weaviate-URL header.")), []).
Proof.
  split.
  - reflexivity.
  - apply (request_without_base_url (fun _ => inl JS.JNull) Spec.clientWithoutUrl "/schema"
             (Client.withBody "POST" (Some "{}")) eq_refl).
Defined.

Lemma status_decision_list_witness :
  Client.baseUrl Spec.exampleClient <> EmptyString /\
  fst (Async.run
         (Spec.answering {| Async.status := 429;
                            Async.responseHeaders := [("Retry-After", "30")];
                            Async.text := "{ not json" |})
         (Client.request Spec.rejectingParser Spec.exampleClient "/objects" Async.noInit)) =
  Async.Throws (Errors.Typed (Errors.RateLimitError "Rate limit exceeded" (JS.Integer 30))) /\
  fst (Async.run
         (Spec.answering {| Async.status := 404;
                            Async.responseHeaders := [];
                            Async.text := "{ not json" |})
         (Client.request Spec.rejectingParser Spec.exampleClient "/objects" Async.noInit)) =
  Async.Throws (Errors.Typed (Errors.NotFoundError "Resource" "/objects")).
Proof.
  assert (Hurl : Client.baseUrl Spec.exampleClient <> EmptyString) by discriminate.
  split; [exact Hurl | split].
  - exact (proj1 (status_decision_list Spec.rejectingParser Spec.exampleClient "/objects"
                    Async.noInit
                    {| Async.status := 429;
                       Async.responseHeaders := [("Retry-After", "30")];
                       Async.text := "{ not json" |} Hurl) eq_refl).
  - exact (proj2 (status_decision_list Spec.rejectingParser Spec.exampleClient "/objects"
                    Async.noInit
                    {| Async.status := 404;
                       Async.responseHeaders := [];
                       Async.text := "{ not json" |} Hurl) eq_refl).
Defined.

(* ------------------------------------------------------------------ *)
(** ** The propagation policy of the client *)
(* ------------------------------------------------------------------ *)

Section PolicyFacts.
Import JS Errors Entities Async Client Spec.

Variable JSON_parse : string -> Json + Exn.

Ltac propagate :=
  eexists; eexists; intros net e calls H;
  repeat first [exact H | apply run_bind_throws].

Ltac unfold_operations :=
  unfold invoke, resolve;
  unfold getMeta, getSchema, getClass, createClass, updateClass, deleteClass,
    addProperty, listObjects, getObject, createObject, updateObject, patchObject,
    deleteObject, batchCreateObjects, batchDeleteObjects, batchAddReferences,
    addReference, updateReferences, deleteReference, nearVector, nearText,
    nearObject, hybridSearch, bm25Search, graphqlQuery, getTenants, createTenants,
    updateTenants, deleteTenants, createBackup, getBackupStatus, restoreBackup,
    getRestoreStatus, cancelBackup, getNodes, getClusterStatistics,
    createClassification, getClassification;
  unfold on, classPath, referencePath, tenantsPath, backendPath, backupPath;
  unfold objectPath, encodeURIComponent;
  cbv zeta.

(** The names split: each is well formed, or one of them is not. *)
Ltac split_names H :=
  unfold wellFormedNames, names in H; cbn [forallb] in H;
  repeat match type of H with
         | context [isWellFormed ?s] =>
             let E := fresh "E" in
             destruct (isWellFormed s) eqn:E; cbn [andb] in H
         end.

Lemma propagates_unless_caught (this : WeaviateClientImpl) (call : Call) :
  catchesLocally call = false -> wellFormedNames call = true ->
  propagates JSON_parse this call.
Proof.
  destruct call; simpl; intros Hc Hn; try discriminate Hc; clear Hc;
    split_names Hn; try discriminate Hn;
    unfold propagates; unfold_operations;
    repeat match goal with E : isWellFormed _ = true |- _ => rewrite E; clear E end;
    cbn [option_map throwing bind];
    propagate.
Qed.

(** An argument with a surrogate that stands alone: the operation throws
    the [URIError] of [encodeURIComponent] and makes no call. *)
Lemma malformed_name_throws (this : WeaviateClientImpl) (call : Call) (net : Network) :
  catchesLocally call = false -> wellFormedNames call = false ->
  run net (invoke JSON_parse this call) = (Throws URIError, []).
Proof.
  destruct call; simpl; intros Hc Hn; try discriminate Hc; clear Hc;
    split_names Hn; try discriminate Hn;
    unfold_operations;
    repeat match goal with E : isWellFormed _ = _ |- _ => rewrite E; clear E end;
    reflexivity.
Qed.

(** A probe: [try { await request; return ok } catch { return error }]. *)
Lemma run_probe (this : WeaviateClientImpl) (endpoint : string) (net : Network) :
  fst (run net (resolve Status
                  (try_catch (request JSON_parse this endpoint noInit ;; Return "ok")%prog
                             (fun _ => Return "error")))) =
  Returns (Status (match fst (run net (request JSON_parse this endpoint noInit)) with
                   | Returns _ => "ok"
                   | Throws _ => "error"
                   end)).
Proof.
  unfold resolve. rewrite run_bind, run_try_catch, run_bind.
  destruct (run net (request JSON_parse this endpoint noInit)) as [[v | e] calls];
    reflexivity.
Qed.

(** Scanning the tenants makes no call: it returns or throws at once. *)
Lemma some_named_pure (tenantName : string) (tenants : list Json) :
  exists o, forall net : Network, run net (some_named tenantName tenants) = (o, []).
Proof.
  induction tenants as [| t rest [o IH]].
  - eexists; reflexivity.
  - destruct t; simpl; try (exists o; exact IH); try (eexists; reflexivity).
    destruct (lookup "name" members) as [[ | | | n | | ] |];
      try (exists o; exact IH).
    destruct (String.eqb n tenantName); [eexists; reflexivity | exists o; exact IH].
Qed.

(** C3, as the code has it.  Every operation that does not catch locally
    propagates what the request pipeline throws, unchanged; when an
    argument that goes into the path holds a surrogate that stands alone
    there is no request, and the operation throws the URIError of the
    encoding.  Five operations catch: the two probes and the two existence
    checks, and the connection test as well.  None of the five ever throws;
    each turns a failure into its negative result, and the object-exists
    check gives false when the HEAD request is rejected by the transport. *)
Theorem error_propagation_policy :
  forall this : WeaviateClientImpl,
    (forall call,
       catchesLocally call = false ->
       (wellFormedNames call = true -> propagates JSON_parse this call) /\
       (wellFormedNames call = false ->
        forall net : Network,
          run net (invoke JSON_parse this call) = (Throws URIError, []))) /\
    (forall net : Network,
       fst (run net (invoke JSON_parse this IsLive)) =
         Returns (Status
           (match fst (run net (request JSON_parse this "/.well-known/live" noInit)) with
            | Returns _ => "ok"
            | Throws _ => "error"
            end)) /\
       fst (run net (invoke JSON_parse this IsReady)) =
         Returns (Status
           (match fst (run net (request JSON_parse this "/.well-known/ready" noInit)) with
            | Returns _ => "ok"
            | Throws _ => "error"
            end)) /\
       (forall className id tenant,
          fst (run net (invoke JSON_parse this (ObjectExists className id tenant))) =
            Returns (Boolean
              (match objectPath className id with
               | Some path =>
                   match net (baseUrl this ++ "/v1" ++ path
                                ++ querySuffix (tenantQuery tenant))
                             {| method := Some "HEAD";
                                body := None;
                                headers := Some (getAuthHeaders this) |} with
                   | Fulfilled r => (status r =? 204) || (status r =? 200)
                   | Rejected _ => false
                   end
               | None => false
               end))) /\
       (forall className tenantName,
          exists b,
            fst (run net (invoke JSON_parse this (TenantExists className tenantName))) =
              Returns (Boolean b) /\
            forall e, fst (run net (getTenants JSON_parse this className)) = Throws e ->
                      b = false) /\
       (exists connected message,
          fst (run net (invoke JSON_parse this TestConnection)) =
            Returns (Connection connected message) /\
          forall e, fst (run net (getMeta JSON_parse this)) = Throws e ->
                    connected = false /\ message = exn_message e)).
Proof.
  intros this. split.
  { intros call Hc. split.
    - apply propagates_unless_caught, Hc.
    - intros Hn net. apply malformed_name_throws; assumption. }
  intros net. repeat split.
  - apply run_probe.
  - apply run_probe.
  - intros className id tenant. unfold invoke, resolve, objectExists, on, fetch.
    destruct (objectPath className id) as [path |]; simpl; [| reflexivity].
    destruct (net _ _); reflexivity.
  - intros className tenantName.
    unfold invoke, resolve, tenantExists. cbv zeta.
    rewrite run_bind, run_try_catch, run_bind.
    destruct (run net (getTenants JSON_parse this className)) as [[v | e] calls].
    + destruct v as [[ | | | | tenants | ] |];
        try (exists false; split; [reflexivity | intros e H; discriminate H]).
      destruct (some_named_pure tenantName tenants) as [[b | e] Hpure];
        rewrite (Hpure net);
        [exists b | exists false]; (split; [reflexivity | intros e' H; discriminate H]).
    + exists false. split; [reflexivity | reflexivity].
  - unfold invoke, resolve, testConnection.
    rewrite run_bind, run_try_catch, run_bind.
    destruct (run net (getMeta JSON_parse this)) as [[meta | e] calls].
    + destruct (run net _) as [[[c m] | e] calls'].
      * exists c, m. split; [reflexivity | intros e H; discriminate H].
      * simpl. exists false, (exn_message e).
        split; [reflexivity | intros e' H; discriminate H].
    + simpl. eexists; eexists; split; [reflexivity |].
      intros e' H. injection H as <-. split; reflexivity.
Qed.

End PolicyFacts.

Lemma error_propagation_policy_witness :
  Spec.catchesLocally Client.GetSchema = false /\
  Spec.propagates Spec.rejectingParser Spec.exampleClient Client.GetSchema /\
  fst (Async.run (Spec.failing (Errors.Native "TypeError" "fetch failed"))
         (Client.invoke Spec.rejectingParser Spec.exampleClient
            (Client.ObjectExists "Article" "42" None))) =
  Async.Returns (Client.Boolean false).
Proof.
  split; [reflexivity | split].
  - exact (proj1 (proj1 (error_propagation_policy Spec.rejectingParser Spec.exampleClient)
                    Client.GetSchema eq_refl) eq_refl).
  - exact (proj1 (proj2 (proj2
             (proj2 (error_propagation_policy Spec.rejectingParser Spec.exampleClient)
                (Spec.failing (Errors.Native "TypeError" "fetch failed")))))
             "Article" "42" None).
Defined.

(** C3 as the specification words it does not hold: the connection test is
    not one of the four excepted operations, and it does not propagate.  On
    a network that answers 404 every request throws the not-found error,
    and the connection test returns. *)
Lemma connection_test_does_not_propagate : ~ Spec.propagation_policy_as_stated.
Proof.
  intros policy.
  destruct (policy Spec.rejectingParser Spec.exampleClient Client.TestConnection eq_refl)
    as [endpoint [options H]].
  specialize (H (Spec.answering (Spec.bare 404))
                (Errors.Typed (Errors.NotFoundError "Resource" endpoint))
                [Spec.fetched Spec.exampleClient endpoint options]).
  assert (Hrun : Async.run (Spec.answering (Spec.bare 404))
                   (Client.request Spec.rejectingParser Spec.exampleClient endpoint options) =
                 (Async.Throws (Errors.Typed (Errors.NotFoundError "Resource" endpoint)),
                  [Spec.fetched Spec.exampleClient endpoint options])).
  { rewrite run_request_answered by discriminate. reflexivity. }
  specialize (H Hrun). discriminate H.
Qed.

(* ------------------------------------------------------------------ *)
(** ** Paginated results and the listing operation *)
(* ------------------------------------------------------------------ *)

Section ListingFacts.
Import JS Errors Entities Async Client Spec Pagination.

Variable JSON_parse : string -> Json + Exn.

(** What [listObjects] returns, when it returns: the items are what the
    service sent as objects, and the bookkeeping is computed from their
    length, the limit and the offset alone. *)
Lemma listObjects_returns (this : WeaviateClientImpl) className params net page :
  fst (run net (listObjects JSON_parse this className params)) = Returns page ->
  let limit := Z_or (limitOf params) 20 in
  let offset := Z_or (offsetOf params) 0 in
  let more := strictEquals (lengthOf (items page)) limit in
  count page = lengthOf (items page) /\
  hasMore page = more /\
  nextCursor page =
    (if more then Some (String_of (add (Integer offset) (Integer limit))) else None).
Proof.
  unfold listObjects. cbv zeta. rewrite run_bind.
  fold (limitOf params). fold (offsetOf params).
  destruct (run net (request JSON_parse this _ noInit)) as [[response | e] calls];
    [| discriminate].
  destruct response as [[ | b | n | s | l | members] |];
    cbn [read bind get run fst]; try discriminate.
  destruct (lookup "objects" members) as [[ | b' | n' | s' | l' | members'] |];
    cbn [run fst]; try discriminate.
  all: intros H; injection H as <-;
    cbn [createPaginatedResponse count items hasMore nextCursor opt_hasMore opt_nextCursor];
    cbn [strictEquals lengthOf add];
    try match goal with
        | |- context [strictEquals ?x ?y] => destruct (strictEquals x y)
        end;
    try match goal with
        | |- context [?a =? ?b] => destruct (a =? b)
        end;
    repeat split; reflexivity.
Qed.

Lemma Z_or_statedLimit params :
  limitOf params <> Some 0 -> Z_or (limitOf params) 20 = statedLimit params.
Proof.
  unfold Z_or, statedLimit. destruct (limitOf params) as [[| l | l] |]; try reflexivity.
  intros H. now elim H.
Qed.

Lemma Z_or_statedOffset params : Z_or (offsetOf params) 0 = statedOffset params.
Proof.
  unfold Z_or, statedOffset. destruct (offsetOf params) as [[| o | o] |]; reflexivity.
Qed.

(** What [listObjects] returns depends on the items, the limit and the
    offset; no reported total enters hasMore or the token. *)
Lemma listObjects_bookkeeping (this : WeaviateClientImpl) className params net page :
  fst (run net (listObjects JSON_parse this className params)) = Returns page ->
  hasMore page = strictEquals (lengthOf (items page)) (Z_or (limitOf params) 20) /\
  nextCursor page =
    (if hasMore page
     then Some (String_of (add (Integer (Z_or (offsetOf params) 0))
                               (Integer (Z_or (limitOf params) 20))))
     else None).
Proof.
  intros H. destruct (listObjects_returns this className params net page H)
    as [_ [Hmore Hcursor]].
  cbv zeta in Hmore, Hcursor. split; [exact Hmore |]. rewrite Hmore. exact Hcursor.
Qed.

End ListingFacts.

Section HeuristicFacts.
Import JS Errors Entities Async Client Spec Pagination.

(** C8.  For every result of the listing, with the limit the tool passes
    (at least 1) or none: hasMore is true exactly when the length of what
    the service returned as objects is the effective limit, the limit of
    the caller, or 20 when none is given; for an array that length is the
    number of its items.  The continuation token is then the text of the
    sum of the offset (0 when none is given) and that limit, as JavaScript
    adds them, and is absent otherwise; up to 2^53 the sum is exact and the
    token is its decimal digits.  No reported total enters: two listings
    with the same parameters and the same items, whatever else the services
    answered, have the same hasMore and the same token. *)
Theorem listing_has_more_heuristic :
  forall JSON_parse (this : WeaviateClientImpl) className params (net : Network) page,
    limitOf params <> Some 0 ->
    fst (run net (listObjects JSON_parse this className params)) = Returns page ->
    hasMore page = strictEquals (lengthOf (items page)) (statedLimit params) /\
    (forall objects,
       items page = JArray objects ->
       hasMore page = (Z.of_nat (List.length objects) =? statedLimit params)) /\
    nextCursor page =
      (if hasMore page
       then Some (String_of (add (Integer (statedOffset params))
                                 (Integer (statedLimit params))))
       else None) /\
    (hasMore page = true ->
     Z.abs (statedOffset params + statedLimit params) <= safe ->
     nextCursor page = Some (decimal (statedOffset params + statedLimit params))) /\
    (forall JSON_parse' this' className' (net' : Network) page',
       fst (run net' (listObjects JSON_parse' this' className' params)) = Returns page' ->
       items page' = items page ->
       hasMore page' = hasMore page /\ nextCursor page' = nextCursor page).
Proof.
  intros JSON_parse this className params net page Hlimit H.
  destruct (listObjects_bookkeeping JSON_parse this className params net page H)
    as [Hmore Hcursor].
  rewrite (Z_or_statedLimit params Hlimit) in Hmore, Hcursor.
  rewrite Z_or_statedOffset in Hcursor.
  split; [exact Hmore |].
  split.
  { intros objects Hitems. rewrite Hmore, Hitems. reflexivity. }
  split; [exact Hcursor |].
  split.
  { intros Htrue Hsafe. rewrite Hcursor, Htrue.
    rewrite (add_safe _ _ Hsafe). cbn [String_of].
    rewrite (String_of_Z_safe _ Hsafe). reflexivity. }
  intros JSON_parse' this' className' net' page' H' Hitems.
  destruct (listObjects_bookkeeping JSON_parse' this' className' params net' page' H')
    as [Hmore' Hcursor'].
  rewrite (Z_or_statedLimit params Hlimit) in Hmore', Hcursor'.
  rewrite Z_or_statedOffset in Hcursor'.
  assert (E : hasMore page' = hasMore page) by (rewrite Hmore', Hmore, Hitems; reflexivity).
  split; [exact E |]. rewrite Hcursor', Hcursor, E. reflexivity.
Qed.

(** C1, as the code has it.  The count is the length of the items in every
    Paginated Result that createPaginatedResponse, emptyPaginatedResponse
    or listObjects produces (for listObjects, the length read from what the
    service sent as objects: the number of elements when that is an array).
    emptyPaginatedResponse and listObjects give a continuation token only
    with hasMore true (listObjects exactly then).  createPaginatedResponse
    copies the hasMore of the caller (false when omitted) and the nextCursor
    of the caller as they are, so its result has a token only with hasMore
    true exactly when the options of the caller do. *)
Theorem paginated_result_invariant :
  (forall (T Total : Type) (l : list T) (options : PageOptions Total),
     let r := createPaginatedResponse (@List.length T) l options in
     count r = List.length (items r) /\
     hasMore r = match opt_hasMore options with Some b => b | None => false end /\
     nextCursor r = opt_nextCursor options /\
     (wellFormed (@List.length T) r <->
      (opt_nextCursor options <> None -> opt_hasMore options = Some true))) /\
  (forall T Total : Type, wellFormed (@List.length T) (@emptyPaginatedResponse T Total)) /\
  (forall JSON_parse (this : WeaviateClientImpl) className params (net : Network) page,
     fst (run net (listObjects JSON_parse this className params)) = Returns page ->
     wellFormed lengthOf page /\
     (hasMore page = true -> nextCursor page <> None) /\
     (forall objects,
        items page = JArray objects ->
        count page = Some (JNumber (Int (Z.of_nat (List.length objects)))))).
Proof.
  split; [| split].
  - intros T Total l options r. subst r. unfold wellFormed. simpl.
    split; [reflexivity | split; [reflexivity | split; [reflexivity |]]].
    split.
    + intros [_ H] Hc. specialize (H Hc).
      destruct (opt_hasMore options) as [[|] |]; congruence.
    + intros H. split; [reflexivity |]. intros Hc. rewrite (H Hc). reflexivity.
  - intros T Total. split; [reflexivity |]. simpl. intros H. now elim H.
  - intros JSON_parse this className params net page H.
    destruct (listObjects_returns JSON_parse this className params net page H)
      as [Hcount [Hmore Hcursor]].
    cbv zeta in Hmore, Hcursor. rewrite <- Hmore in Hcursor.
    split; [split | split].
    + exact Hcount.
    + rewrite Hcursor. destruct (hasMore page); [reflexivity | intros Hc; now elim Hc].
    + rewrite Hcursor. intros ->. discriminate.
    + intros objects Hitems. rewrite Hcount, Hitems. reflexivity.
Qed.

End HeuristicFacts.

Lemma listing_has_more_heuristic_witness :
  let params := Some (Entities.mkListParams (Some 2) (Some 4) None None None) in
  let page : Client.Listing :=
    {| Pagination.items := JS.JArray [JS.JObject []; JS.JObject []];
       Pagination.count := Some (JS.JNumber (JS.Int 2));
       Pagination.total := None;
       Pagination.hasMore := true;
       Pagination.nextCursor := Some "6" |} in
  Spec.limitOf params <> Some 0 /\
  fst (Async.run (Spec.answering Spec.okBody)
         (Client.listObjects (Spec.listingOf 2) Spec.exampleClient "Article" params)) =
    Async.Returns page /\
  Pagination.hasMore page = (2 =? Spec.statedLimit params) /\
  Pagination.nextCursor page =
    Some (JS.decimal (Spec.statedOffset params + Spec.statedLimit params)).
Proof.
  assert (Hlimit : Spec.limitOf
                     (Some (Entities.mkListParams (Some 2) (Some 4) None None None))
                   <> Some 0) by discriminate.
  split; [exact Hlimit | split; [reflexivity |]].
  pose proof (listing_has_more_heuristic (Spec.listingOf 2) Spec.exampleClient "Article"
           (Some (Entities.mkListParams (Some 2) (Some 4) None None None))
           (Spec.answering Spec.okBody)
           {| Pagination.items := JS.JArray [JS.JObject []; JS.JObject []];
              Pagination.count := Some (JS.JNumber (JS.Int 2));
              Pagination.total := None;
              Pagination.hasMore := true;
              Pagination.nextCursor := Some "6" |}
           Hlimit eq_refl) as [_ [Harray [_ [Htoken _]]]].
  split.
  - exact (Harray _ eq_refl).
  - apply (Htoken eq_refl). vm_compute. discriminate.
Defined.

Lemma paginated_result_invariant_witness :
  let page : Client.Listing :=
    {| Pagination.items := JS.JArray [JS.JObject []; JS.JObject []];
       Pagination.count := Some (JS.JNumber (JS.Int 2));
       Pagination.total := None;
       Pagination.hasMore := true;
       Pagination.nextCursor := Some "6" |} in
  fst (Async.run (Spec.answering Spec.okBody)
         (Client.listObjects (Spec.listingOf 2) Spec.exampleClient "Article"
            (Some (Entities.mkListParams (Some 2) (Some 4) None None None)))) =
    Async.Returns page /\
  Spec.wellFormed JS.lengthOf page.
Proof.
  split; [reflexivity |].
  exact (proj1 (proj2 (proj2 paginated_result_invariant)
                  (Spec.listingOf 2) Spec.exampleClient "Article"
                  (Some (Entities.mkListParams (Some 2) (Some 4) None None None))
                  (Spec.answering Spec.okBody) _ eq_refl)).
Defined.

(** C1 as the specification words it does not hold: createPaginatedResponse
    gives a token without hasMore when the caller passes a nextCursor and no
    hasMore. *)
Lemma cursor_without_has_more : ~ Spec.paginated_invariant_as_stated.
Proof.
  intros [Hcreate _].
  destruct (Hcreate Z Z [] (Pagination.mkPageOptions None None (Some "20"))) as [_ H].
  simpl in H. discriminate H. discriminate.
Qed.

(* ------------------------------------------------------------------ *)
(** ** Text *)
(* ------------------------------------------------------------------ *)

Section TextFacts.
Import JS Spec.

Lemma append_assoc (a b c : string) : (a ++ b) ++ c = a ++ (b ++ c).
Proof. induction a as [| x a IH]; simpl; [reflexivity | now rewrite IH]. Qed.

Lemma startsWith_app (s r prefix : string) :
  startsWith s prefix = true -> startsWith (s ++ r) prefix = true.
Proof.
  revert s. induction prefix as [| p ps IH]; intros s H.
  - destruct s; reflexivity.
  - destruct s as [| c cs]; simpl in *; [discriminate |].
    apply andb_true_iff in H as [Hc Hs]. rewrite Hc. simpl. now apply IH.
Qed.

Lemma includes_app_l (s r needle : string) :
  includes s needle = true -> includes (s ++ r) needle = true.
Proof.
  induction s as [| c cs IH]; simpl; intros H.
  - destruct needle; [destruct r; reflexivity | discriminate H].
  - apply orb_true_iff in H as [H | H].
    + change (String c (cs ++ r)) with (String c cs ++ r).
      rewrite (startsWith_app _ r _ H). reflexivity.
    + rewrite (IH H). apply orb_true_r.
Qed.

Lemma includes_app_r (s r needle : string) :
  includes r needle = true -> includes (s ++ r) needle = true.
Proof.
  intros H. induction s as [| c cs IH]; simpl; [exact H |].
  rewrite IH. apply orb_true_r.
Qed.

(** A key that ends with a colon and has no parenthesis does not start
    inside a name without a colon that an opening parenthesis follows. *)
Lemma startsWith_name (name rest key : string) :
  has ":" name = false -> endsWithChar ":" key = true -> has "(" key = false ->
  startsWith (name ++ String "(" rest) key = false.
Proof.
  revert key. induction name as [| c cs IH]; intros key Hname Hend Hparen.
  - destruct key as [| k ks]; [discriminate Hend |].
    simpl in *. apply orb_false_iff in Hparen as [Hk _]. now rewrite Hk.
  - destruct key as [| k ks]; [discriminate Hend |].
    simpl in Hname. apply orb_false_iff in Hname as [Hc Hcs].
    simpl in Hparen. apply orb_false_iff in Hparen as [_ Hks].
    simpl. destruct ks as [| k' ks'].
    + simpl in Hend. apply Ascii.eqb_eq in Hend. subst k.
      rewrite Ascii.eqb_sym, Hc. reflexivity.
    + rewrite (IH (String k' ks') Hcs Hend Hks). apply andb_false_r.
Qed.

Lemma includes_name (name rest key : string) :
  has ":" name = false -> endsWithChar ":" key = true -> has "(" key = false ->
  includes (String "(" rest) key = false ->
  includes (name ++ String "(" rest) key = false.
Proof.
  intros Hname Hend Hparen Hrest. induction name as [| c cs IH]; [exact Hrest |].
  change (includes (String c cs ++ String "(" rest) key)
    with (startsWith (String c cs ++ String "(" rest) key
          || includes (cs ++ String "(" rest) key)%bool.
  rewrite (startsWith_name _ _ _ Hname Hend Hparen). simpl in Hname.
  apply orb_false_iff in Hname as [_ Hcs]. now rewrite (IH Hcs).
Qed.

Lemma startsWith_refl (s : string) : startsWith s s = true.
Proof. induction s as [| c s IH]; simpl; [reflexivity |]. now rewrite Ascii.eqb_refl. Qed.

Lemma includes_refl (s : string) : includes s s = true.
Proof. destruct s; simpl; [reflexivity |]. now rewrite Ascii.eqb_refl, startsWith_refl. Qed.

End TextFacts.

(* ------------------------------------------------------------------ *)
(** ** The calls of a request *)
(* ------------------------------------------------------------------ *)

Section RequestCalls.
Import JS Errors Entities Async Client Spec.

Variable JSON_parse : string -> Json + Exn.

(** The calls [request] makes: one when there is a base URL, whatever the
    network does, and none otherwise. *)
Lemma run_request_calls (this : WeaviateClientImpl) endpoint options (net : Network) :
  snd (run net (request JSON_parse this endpoint options)) =
  if truthy_string (baseUrl this) then [fetched this endpoint options] else [].
Proof.
  unfold request, fetched. destruct (truthy_string (baseUrl this)); [| reflexivity].
  cbn [negb]. cbv zeta. cbn [bind fetch run].
  destruct (net _ _) as [response | e]; [| reflexivity].
  cbn [bind].
  repeat match goal with
         | |- context [if ?c then _ else _] => destruct c; try reflexivity
         end.
  - destruct (ToString (errorMessage JSON_parse response)); reflexivity.
  - destruct (JSON_parse (text response)); reflexivity.
Qed.

End RequestCalls.

(* ------------------------------------------------------------------ *)
(** ** The query documents *)
(* ------------------------------------------------------------------ *)

Section QueryFacts.
Import JS Errors Entities Async Client Spec.

(** The document is the template with its seven holes filled, in order. *)
Lemma query_shape (className searchClause : string) (options : option SearchOptions) :
    buildGraphQLGetQuery className searchClause options =
    ("{" ++ char newline ++ "      Get {" ++ char newline ++ "        ")
    ++ className
    ++ ("(" ++ char newline ++ "          ")
    ++ searchClause
    ++ (char newline ++ "          limit: ")
    ++ String_of_Z
         (Z_or (match options with Some o => so_limit o | None => None end) 10)
    ++ (char newline ++ "          ")
    ++ whereClauseOf options
    ++ (char newline ++ "          ")
    ++ tenantClauseOf options
    ++ (char newline ++ "        ) {" ++ char newline ++ "          ")
    ++ fieldsOf options
    ++ (char newline ++ "        }" ++ char newline ++ "      }" ++ char newline ++ "    }").
Proof.
  unfold buildGraphQLGetQuery. cbv zeta.
  replace (match match options with Some o => so_where o | None => None end with
           | Some w => if truthy w then ", where: " ++ JSON_stringify w else EmptyString
           | None => EmptyString end) with (whereClauseOf options)
    by (destruct options as [[l f [w |] t] |]; reflexivity).
  replace (match match options with Some o => so_tenant o | None => None end with
           | Some t => if truthy_string t then ", tenant: " ++ char dquote ++ t ++ char dquote
                  else EmptyString
           | None => EmptyString end) with (tenantClauseOf options)
    by (destruct options as [[l f w [t |]] |]; reflexivity).
  replace (match match options with Some o => so_fields o | None => None end with
           | Some (f :: fs) => join " " (f :: fs)
           | _ => "_additional { id distance certainty }" end) with (fieldsOf options)
    by (destruct options as [[l [[| f fs] |] w t] |]; reflexivity).
  generalize (whereClauseOf options) (tenantClauseOf options) (fieldsOf options)
             (String_of_Z (Z_or match options with Some o => so_limit o | None => None end 10)).
  intros w t f l.
  unfold join. cbn [String.concat].
  repeat rewrite append_assoc.
  reflexivity.
Qed.

(** A character that is not the first of the needle is skipped. *)
Lemma includes_cons_other (c k : ascii) (rest ks : string) :
  Ascii.eqb k c = false ->
  includes (String c rest) (String k ks) = includes rest (String k ks).
Proof. intros H. simpl. rewrite H. reflexivity. Qed.

Ltac skip_prefix :=
  cbn [append]; repeat (rewrite includes_cons_other by reflexivity).

(** The whole document of the worked example, for the class Article. *)
Example cat_document :
  buildGraphQLGetQuery "Article" (nearTextClause catParams)
    (Some {| so_limit := Some 5; so_fields := None; so_where := None; so_tenant := None |}) =
  join (char newline)
    [ "{";
      "      Get {";
      "        Article(";
      "          " ++ catClause;
      "          limit: 5";
      "          ";
      "          ";
      "        ) {";
      "          _additional { id distance certainty }";
      "        }";
      "      }";
      "    }" ].
Proof. reflexivity. Qed.

(** C7. The near-text search for the concept cat with limit 5 and no
    certainty, distance, moveTo or moveAwayFrom makes one call, a POST to
    the GraphQL endpoint whose body is the JSON object with the query
    document that buildGraphQLGetQuery builds from the class name, the
    near-text clause of the parameters and the options.  That document
    contains the near-text clause with the quoted concept and nothing else,
    and the line of the limit, whatever the class name and the other
    options.  The clause has no certainty and no distance in it; with no
    further option and a class name without a colon, the whole document has
    no certainty key and no distance key. *)
Theorem near_text_cat_query :
  forall JSON_parse (this : WeaviateClientImpl) (net : Network) (className : string)
         (fields : option (list string)) (where_ : option WhereFilter)
         (tenant : option string),
    baseUrl this <> EmptyString ->
    let document := buildGraphQLGetQuery className (nearTextClause catParams) in
    let given :=
      Some {| so_limit := Some 5; so_fields := fields;
              so_where := where_; so_tenant := tenant |} in
    let plain :=
      Some {| so_limit := Some 5; so_fields := None;
              so_where := None; so_tenant := None |} in
    (forall options,
       snd (run net (nearText JSON_parse this className catParams options)) =
       [(baseUrl this ++ "/v1/graphql",
         {| method := Some "POST";
            body := Some (JSON_stringify (JObject [("query", JString (document options))]));
            headers := Some (getAuthHeaders this) |})]) /\
    nearTextClause catParams = catClause /\
    includes (document given) catClause = true /\
    includes (document given) "limit: 5" = true /\
    includes (nearTextClause catParams) "certainty" = false /\
    includes (nearTextClause catParams) "distance" = false /\
    (has ":" className = false ->
     includes (document plain) "certainty:" = false /\
     includes (document plain) "distance:" = false).
Proof.
  intros JSON_parse this net className fields where_ tenant Hurl document given plain.
  subst document. cbv beta.
  split.
  { intros options. unfold nearText, graphqlQuery. cbv zeta.
    rewrite run_request_calls, (truthy_nonempty _ Hurl). reflexivity. }
  split; [reflexivity |].
  split.
  { rewrite query_shape.
    apply includes_app_r, includes_app_r, includes_app_r, includes_app_l.
    reflexivity. }
  split.
  { rewrite query_shape.
    do 4 apply includes_app_r. rewrite <- append_assoc.
    apply includes_app_l. reflexivity. }
  split; [reflexivity |].
  split; [reflexivity |].
  intros Hname. rewrite query_shape.
  match goal with
  | |- includes (?P ++ className ++ ?R) _ = false /\ _ =>
      let R' := eval vm_compute in R in
      let P' := eval vm_compute in P in
      change R with R'; change P with P'
  end.
  split; skip_prefix; apply includes_name; auto.
Qed.

End QueryFacts.

Lemma near_text_cat_query_witness :
  let options := Some (Entities.mkSearchOptions (Some 5) None None None) in
  let document :=
    Client.buildGraphQLGetQuery "Article" (Client.nearTextClause Spec.catParams) options in
  Client.baseUrl Spec.exampleClient <> EmptyString /\
  snd (Async.run (Spec.answering Spec.okBody)
         (Client.nearText Spec.rejectingParser Spec.exampleClient "Article" Spec.catParams
            options)) =
    [("https://db.example/v1/graphql",
      {| Async.method := Some "POST";
         Async.body :=
           Some (JS.JSON_stringify (JS.JObject [("query", JS.JString document)]));
         Async.headers := Some (Client.getAuthHeaders Spec.exampleClient) |})] /\
  Spec.includes document Spec.catClause = true /\
  Spec.includes document "limit: 5" = true /\
  Spec.includes document "certainty:" = false /\
  Spec.includes document "distance:" = false.
Proof.
  assert (Hurl : Client.baseUrl Spec.exampleClient <> EmptyString) by discriminate.
  pose proof (near_text_cat_query Spec.rejectingParser Spec.exampleClient
                (Spec.answering Spec.okBody) "Article" None None None Hurl)
    as [Hcall [_ [Hclause [Hlimit [_ [_ Homit]]]]]].
  split; [exact Hurl |].
  split; [exact (Hcall (Some (Entities.mkSearchOptions (Some 5) None None None))) |].
  split; [exact Hclause |].
  split; [exact Hlimit |].
  exact (Homit eq_refl).
Defined.

(* ------------------------------------------------------------------ *)
(** ** Decimal texts *)
(* ------------------------------------------------------------------ *)

Section DecimalFacts.
Import JS Notions.

Lemma parseDigits_digits (d : Decimal.uint) (acc : Z) :
  parseDigits (Some acc) (NilEmpty.string_of_uint d) = Some (digitsValue acc d).
Proof.
  revert acc. induction d; intros acc; simpl; try reflexivity; apply IHd.
Qed.

Lemma digitsValue_acc (d : Decimal.uint) (acc : positive) :
  Z.pos (Pos.of_uint_acc d acc) = digitsValue (Z.pos acc) d.
Proof.
  revert acc. induction d; intros acc; cbn [Pos.of_uint_acc digitsValue];
    try reflexivity; rewrite IHd; f_equal; lia.
Qed.

Lemma digitsValue_of_uint (d : Decimal.uint) :
  Z.of_N (Pos.of_uint d) = digitsValue 0 d.
Proof.
  induction d; cbn [Pos.of_uint digitsValue Z.of_N]; try reflexivity;
    try exact IHd; apply digitsValue_acc.
Qed.

Lemma parseDigits_positive (p : positive) :
  parseDigits None (NilZero.string_of_uint (Pos.to_uint p)) = Some (Z.pos p).
Proof.
  pose proof (DecimalPos.Unsigned.of_to p) as Hp.
  pose proof (DecimalPos.Unsigned.to_uint_nonnil p) as Hnil.
  apply (f_equal Z.of_N) in Hp. rewrite digitsValue_of_uint in Hp. simpl in Hp.
  destruct (Pos.to_uint p) as [| d | d | d | d | d | d | d | d | d | d];
    [now elim Hnil | ..]; simpl in *; rewrite parseDigits_digits; f_equal; exact Hp.
Qed.

(** A text that starts with a digit starts with no white space. *)
Lemma trimStart_digits (p : positive) :
  trimStart (NilZero.string_of_uint (Pos.to_uint p)) =
  NilZero.string_of_uint (Pos.to_uint p).
Proof.
  pose proof (DecimalPos.Unsigned.to_uint_nonnil p) as Hnil.
  destruct (Pos.to_uint p); [now elim Hnil | ..]; reflexivity.
Qed.

(** [parseInt] of the digits of an integer is the number that integer
    becomes: itself up to 2^53, the nearest double beyond. *)
Lemma parseInt_decimal (z : Z) : parseInt (decimal z) = toNumber z.
Proof.
  unfold decimal, parseInt. destruct z as [| p | p]; cbn [Z.to_int NilZero.string_of_int].
  - reflexivity.
  - rewrite trimStart_digits.
    pose proof (parseDigits_positive p) as H.
    pose proof (DecimalPos.Unsigned.to_uint_nonnil p) as Hnil.
    destruct (Pos.to_uint p); [now elim Hnil | ..];
      cbn [NilZero.string_of_uint NilEmpty.string_of_uint] in *; rewrite H; reflexivity.
  - change (trimStart (String "-" (NilZero.string_of_uint (Pos.to_uint p))))
      with (String "-" (NilZero.string_of_uint (Pos.to_uint p))).
    cbv iota beta. rewrite parseDigits_positive. reflexivity.
Qed.

Lemma parseInt_decimal_safe (z : Z) : Z.abs z <= safe -> parseInt (decimal z) = Integer z.
Proof. intros H. rewrite parseInt_decimal. apply toNumber_safe, H. Qed.

Lemma all_app (p : ascii -> bool) (a b : string) :
  all p (a ++ b) = (all p a && all p b)%bool.
Proof. induction a as [| x a IH]; simpl; [reflexivity | now rewrite IH, andb_assoc]. Qed.

Lemma all_weaken (p q : ascii -> bool) (s : string) :
  (forall c, p c = true -> q c = true) -> all p s = true -> all q s = true.
Proof.
  intros Hpq. induction s as [| c r IH]; simpl; [reflexivity |].
  intros H. apply andb_true_iff in H as [Hc Hr]. now rewrite (Hpq c Hc), IH.
Qed.

Lemma has_none (p : ascii -> bool) (c : ascii) (s : string) :
  p c = false -> all p s = true -> Spec.has c s = false.
Proof.
  intros Hc. induction s as [| d r IH]; simpl; [reflexivity |].
  intros H. apply andb_true_iff in H as [Hd Hr]. rewrite (IH Hr), orb_false_r.
  destruct (Ascii.eqb_spec d c) as [-> | _]; [congruence | reflexivity].
Qed.

Lemma digits_uint (d : Decimal.uint) : all isDigit (NilEmpty.string_of_uint d) = true.
Proof. induction d; simpl; [reflexivity | exact IHd ..]. Qed.

Lemma digits_NilZero (d : Decimal.uint) : all isDigit (NilZero.string_of_uint d) = true.
Proof. destruct d; try reflexivity; apply (digits_uint (_ d)). Qed.

Lemma isDigit_numberChar (c : ascii) : isDigit c = true -> numberChar c = true.
Proof. intros H. unfold numberChar. now rewrite H. Qed.

(** The digits of an integer: digits, after a sign if it is negative. *)
Lemma decimal_chars (z : Z) : all numberChar (decimal z) = true.
Proof.
  unfold decimal. destruct z as [| p | p]; cbn [Z.to_int NilZero.string_of_int].
  - reflexivity.
  - apply (all_weaken isDigit), digits_NilZero. exact isDigit_numberChar.
  - cbn [all]. rewrite (all_weaken isDigit numberChar); [reflexivity | |].
    + exact isDigit_numberChar.
    + apply digits_NilZero.
Qed.

Lemma decimal_digits (z : Z) : 0 <= z -> all isDigit (decimal z) = true.
Proof.
  unfold decimal. destruct z as [| p | p]; cbn [Z.to_int NilZero.string_of_int]; intros H.
  - reflexivity.
  - apply digits_NilZero.
  - lia.
Qed.

Lemma decimal_truthy (z : Z) : truthy_string (decimal z) = true.
Proof.
  unfold decimal. destruct z as [| p | p]; try reflexivity.
  simpl. pose proof (DecimalPos.Unsigned.to_uint_nonnil p) as Hnil.
  destruct (Pos.to_uint p); [now elim Hnil | ..]; reflexivity.
Qed.

Lemma dropTrailingZeros_chars (p : ascii -> bool) (s zeros : string) :
  all p zeros = true -> all p s = true -> all p (dropTrailingZeros_from zeros s) = true.
Proof.
  revert zeros. induction s as [| c r IH]; intros zeros Hz Hs; [reflexivity |].
  cbn [all] in Hs. apply andb_true_iff in Hs as [Hc Hr].
  cbn [dropTrailingZeros_from]. destruct (Ascii.eqb c "0").
  - apply IH; [| exact Hr]. cbn [all]. now rewrite Hc, Hz.
  - rewrite all_app. cbn [all]. rewrite Hz, Hc. simpl. apply IH; [reflexivity | exact Hr].
Qed.

Lemma exponential_chars (digits : string) :
  all isDigit digits = true -> all numberChar (exponential digits) = true.
Proof.
  intros H. unfold exponential, dropTrailingZeros.
  pose proof (dropTrailingZeros_chars isDigit digits EmptyString eq_refl H) as Hd.
  apply (all_weaken _ _ _ isDigit_numberChar) in Hd.
  destruct (dropTrailingZeros_from EmptyString digits) as [| d rest]; [reflexivity |].
  cbn [all] in Hd. apply andb_true_iff in Hd as [Hd Hrest].
  change (String d (match rest with
                    | EmptyString => EmptyString
                    | String _ _ => "." ++ rest
                    end) ++ "e+" ++ decimal (Z.of_nat (String.length digits) - 1))
    with (String d ((match rest with
                     | EmptyString => EmptyString
                     | String _ _ => "." ++ rest
                     end) ++ "e+" ++ decimal (Z.of_nat (String.length digits) - 1))).
  cbn [all]. rewrite Hd. cbn [andb].
  rewrite all_app, all_app, decimal_chars.
  change (all numberChar "e+") with true. cbn [andb]. rewrite andb_true_r.
  destruct rest; [reflexivity |]. rewrite all_app. now rewrite Hrest.
Qed.

Lemma exponential_truthy (digits : string) : truthy_string (exponential digits) = true.
Proof. unfold exponential. destruct (dropTrailingZeros digits); reflexivity. Qed.

(** The digits written for a double are those of an integer that is not
    negative. *)
Lemma shortestFrom_nonneg (x : Z) :
  0 <= x -> forall fuel j found, 0 <= found -> 0 <= shortestFrom fuel x j found.
Proof.
  intros Hx. induction fuel as [| fuel IH]; intros j found Hf; cbn [shortestFrom];
    [exact Hf |].
  destruct (candidate x (j + 1)) as [v |] eqn:Hv; [| exact Hf].
  apply IH. unfold candidate in Hv. cbv zeta in Hv.
  assert (Hp : 0 <= 10 ^ (j + 1)) by (apply Z.pow_nonneg; lia).
  assert (Hv0 : 0 <= x / 10 ^ (j + 1) * 10 ^ (j + 1)).
  { destruct (Z.eq_dec (10 ^ (j + 1)) 0) as [H0 | H0]; [rewrite H0; lia |].
    apply Z.mul_nonneg_nonneg; [apply Z.div_pos; lia | lia]. }
  repeat match type of Hv with
         | context [if ?c then _ else _] => destruct c
         end; try discriminate Hv; injection Hv as <-; lia.
Qed.

Lemma shortest_nonneg (x : Z) : 0 <= x -> 0 <= shortest x.
Proof. intros Hx. apply shortestFrom_nonneg; exact Hx. Qed.

(** The text of an integer is made of the characters of numbers. *)
Lemma String_of_Z_chars (z : Z) : all numberChar (String_of_Z z) = true.
Proof.
  unfold String_of_Z. destruct (Z.abs z <=? safe); [apply decimal_chars |].
  cbv zeta. rewrite all_app.
  pose proof (shortest_nonneg (Z.abs z) (Z.abs_nonneg z)) as Hv.
  replace (all numberChar
             (if shortest (Z.abs z) <? 10 ^ 21
              then decimal (shortest (Z.abs z))
              else exponential (decimal (shortest (Z.abs z))))) with true.
  - rewrite andb_true_r. destruct (z <? 0); reflexivity.
  - symmetry. destruct (shortest (Z.abs z) <? 10 ^ 21); [apply decimal_chars |].
    apply exponential_chars, decimal_digits, Hv.
Qed.

(** The text of an integer is never empty. *)
Lemma String_of_Z_truthy (z : Z) : truthy_string (String_of_Z z) = true.
Proof.
  unfold String_of_Z. destruct (Z.abs z <=? safe); [apply decimal_truthy |].
  cbv zeta. destruct (z <? 0); [reflexivity |]. cbn [append].
  destruct (shortest (Z.abs z) <? 10 ^ 21); [apply decimal_truthy | apply exponential_truthy].
Qed.

(** The text of an integer has no colon. *)
Lemma has_colon_String_of_Z (z : Z) : Spec.has ":" (String_of_Z z) = false.
Proof. apply (has_none numberChar); [reflexivity | apply String_of_Z_chars]. Qed.

End DecimalFacts.

(* ------------------------------------------------------------------ *)
(** ** Reading strings back *)
(* ------------------------------------------------------------------ *)

Section StringFacts.
Import JS Notions Reader.

Lemma length_append (a b : string) :
  String.length (a ++ b) = (String.length a + String.length b)%nat.
Proof. induction a as [| c a IH]; simpl; [reflexivity | now rewrite IH]. Qed.

(** One character of a string, escaped or not, is read as that character,
    in one step. *)
Lemma readString_char (c : ascii) (fuel : nat) (tail : string) :
  readString (S fuel) (escapeChar c ++ tail) =
  match readString fuel tail with
  | Some (text, rest) => Some (String c text, rest)
  | None => None
  end.
Proof.
  destruct c as [[|] [|] [|] [|] [|] [|] [|] [|]]; reflexivity.
Qed.

Lemma in_range_spec (lo hi : nat) (c : ascii) :
  in_range lo hi c = true <-> (lo <= nat_of_ascii c <= hi)%nat.
Proof.
  unfold in_range. rewrite andb_true_iff, !Nat.leb_le. reflexivity.
Qed.

Lemma hexValue_hexDigit (k : nat) :
  (k < 16)%nat -> hexValue (hexDigit false k) = Some (Z.of_nat k).
Proof.
  intros H. do 16 (destruct k as [| k]; [reflexivity |]). lia.
Qed.

(** The code unit that [escapeSurrogate] writes, read back. *)
Lemma codeUnit_surrogate (k : nat) :
  (k < 4096)%nat ->
  codeUnit "d" (hexDigit false (k / 256))
    (hexDigit false (nat_of_ascii (ascii_of_nat (k mod 256)) / 16))
    (hexDigit false (nat_of_ascii (ascii_of_nat (k mod 256)) mod 16)) =
  Some (53248 + Z.of_nat k).
Proof.
  intros Hk.
  pose proof (Nat.div_mod_eq k 256) as E1.
  pose proof (Nat.mod_upper_bound k 256 ltac:(lia)) as B1.
  rewrite nat_ascii_embedding by lia.
  pose proof (Nat.div_mod_eq (k mod 256) 16) as E2.
  pose proof (Nat.mod_upper_bound (k mod 256) 16 ltac:(lia)) as B2.
  assert (B3 : (k / 256 < 16)%nat) by (apply Nat.Div0.div_lt_upper_bound; lia).
  assert (B4 : (k mod 256 / 16 < 16)%nat) by (apply Nat.Div0.div_lt_upper_bound; lia).
  unfold codeUnit. change (hexValue "d") with (Some 13).
  rewrite !hexValue_hexDigit by assumption. f_equal. lia.
Qed.

Lemma readString_backslash (fuel : nat) (r : string) :
  readString (S fuel) (String backslash r) =
  match readEscape r with
  | Some (t, r') =>
      match readString fuel r' with
      | Some (text, rest) => Some (t ++ text, rest)
      | None => None
      end
  | None => None
  end.
Proof. reflexivity. Qed.

Lemma readEscape_u (h1 h2 h3 h4 : ascii) (r : string) :
  readEscape (String "u" (String h1 (String h2 (String h3 (String h4 r))))) =
  match codeUnit h1 h2 h3 h4 with
  | Some n =>
      if isHigh n then
        match lowAhead r with
        | Some (m, r'') => Some (utf8 (65536 + (n - 55296) * 1024 + (m - 56320)), r'')
        | None => Some (utf8 n, r)
        end
      else Some (utf8 n, r)
  | None => None
  end.
Proof. reflexivity. Qed.

(** The bytes of a surrogate, from its code unit. *)
Lemma utf8_surrogate (c2 c3 : ascii) :
  in_range 160 191 c2 = true ->
  in_range 128 191 c3 = true ->
  let k := (nat_of_ascii c2 mod 64 * 64 + nat_of_ascii c3 mod 64)%nat in
  (k < 4096)%nat /\
  utf8 (53248 + Z.of_nat k) = String "237" (String c2 (String c3 EmptyString)) /\
  isHigh (53248 + Z.of_nat k) = in_range 160 175 c2.
Proof.
  intros H2 H3 k. apply in_range_spec in H2. apply in_range_spec in H3.
  pose proof (Nat.div_mod_eq (nat_of_ascii c2) 64) as E2.
  pose proof (Nat.mod_upper_bound (nat_of_ascii c2) 64 ltac:(lia)) as B2.
  pose proof (Nat.div_mod_eq (nat_of_ascii c3) 64) as E3.
  pose proof (Nat.mod_upper_bound (nat_of_ascii c3) 64 ltac:(lia)) as B3.
  assert (D2 : (nat_of_ascii c2 / 64 = 2)%nat) by lia.
  assert (D3 : (nat_of_ascii c3 / 64 = 2)%nat) by lia.
  assert (Hk : (k < 4096)%nat) by (subst k; lia).
  split; [exact Hk | split].
  - unfold utf8.
    assert (N1 : (53248 + Z.of_nat k <? 128) = false) by (apply Z.ltb_ge; lia).
    assert (N2 : (53248 + Z.of_nat k <? 2048) = false) by (apply Z.ltb_ge; lia).
    assert (N3 : (53248 + Z.of_nat k <? 65536) = true) by (apply Z.ltb_lt; lia).
    rewrite N1, N2, N3. cbn [map string_of_list_ascii].
    assert (Q1 : (53248 + Z.of_nat k) / 4096 = 13).
    { symmetry. apply Z.div_unique with (r := Z.of_nat k); lia. }
    assert (Q2 : (53248 + Z.of_nat k) / 64 = 832 + Z.of_nat (nat_of_ascii c2 mod 64)).
    { symmetry. apply Z.div_unique with (r := Z.of_nat (nat_of_ascii c3 mod 64)); subst k; lia. }
    assert (Q3 : (53248 + Z.of_nat k) mod 64 = Z.of_nat (nat_of_ascii c3 mod 64)).
    { symmetry.
      apply Z.mod_unique with (q := 832 + Z.of_nat (nat_of_ascii c2 mod 64)); subst k; lia. }
    assert (Q4 : (832 + Z.of_nat (nat_of_ascii c2 mod 64)) mod 64
                 = Z.of_nat (nat_of_ascii c2 mod 64)).
    { symmetry. apply Z.mod_unique with (q := 13); lia. }
    rewrite Q1, Q2, Q3, Q4. unfold byte.
    replace (Z.to_nat (128 + Z.of_nat (nat_of_ascii c2 mod 64))) with (nat_of_ascii c2) by lia.
    replace (Z.to_nat (128 + Z.of_nat (nat_of_ascii c3 mod 64))) with (nat_of_ascii c3) by lia.
    rewrite !ascii_nat_embedding. reflexivity.
  - unfold isHigh, in_range.
    destruct (Nat.leb_spec 160 (nat_of_ascii c2)); [| lia].
    destruct (Nat.leb_spec (nat_of_ascii c2) 175); cbn [andb].
    + apply andb_true_iff. split; [apply Z.leb_le | apply Z.ltb_lt]; subst k; lia.
    + apply andb_false_iff. right. apply Z.ltb_ge. subst k. lia.
Qed.

(** The escape of a surrogate is read as its three bytes, in one step,
    when no escape of a low surrogate follows the escape of a high one. *)
Lemma readString_surrogate (c2 c3 : ascii) (r3 : string) (fuel : nat) (tail : string) :
  in_range 160 191 c2 = true ->
  in_range 128 191 c3 = true ->
  (in_range 160 175 c2 = true -> lowAhead tail = None) ->
  readString (S fuel) (escapeSurrogate (String c2 (String c3 r3)) ++ tail) =
  match readString fuel tail with
  | Some (text, rest) => Some (String "237" (String c2 (String c3 text)), rest)
  | None => None
  end.
Proof.
  intros H2 H3 Hlow.
  destruct (utf8_surrogate c2 c3 H2 H3) as [Hk [Hbytes Hhigh]].
  unfold escapeSurrogate. unfold hex2. cbn [append].
  rewrite readString_backslash, readEscape_u, (codeUnit_surrogate _ Hk), Hhigh.
  destruct (in_range 160 175 c2).
  - rewrite (Hlow eq_refl), Hbytes. destruct (readString fuel tail) as [[text rest] |]; reflexivity.
  - rewrite Hbytes. destruct (readString fuel tail) as [[text rest] |]; reflexivity.
Qed.

(** No escape of a low surrogate is ahead. *)
Lemma lowAhead_first (b : ascii) (t : string) :
  Ascii.eqb b backslash = false -> lowAhead (String b t) = None.
Proof.
  intros H. destruct t as [| u [| h1 [| h2 [| h3 [| h4 r]]]]]; cbn [lowAhead];
    try reflexivity. rewrite H. reflexivity.
Qed.

Lemma lowAhead_second (u : ascii) (t : string) :
  Ascii.eqb u "u" = false -> lowAhead (String backslash (String u t)) = None.
Proof.
  intros H. destruct t as [| h1 [| h2 [| h3 [| h4 r]]]]; cbn [lowAhead];
    try reflexivity. rewrite H, andb_false_r. reflexivity.
Qed.

Lemma lowAhead_char (c : ascii) (tail : string) : lowAhead (escapeChar c ++ tail) = None.
Proof.
  destruct c as [[|] [|] [|] [|] [|] [|] [|] [|]];
    match goal with
    | |- lowAhead (?e ++ tail) = None =>
        let e' := eval vm_compute in e in change e with e'
    end;
    cbn [append];
    first [ apply lowAhead_first; reflexivity
          | apply lowAhead_second; reflexivity
          | reflexivity ].
Qed.

Lemma startsSurrogate_spec (c : ascii) (r : string) :
  startsSurrogate c r = true ->
  c = "237"%char /\ exists c2 r2, r = String c2 r2 /\ in_range 160 191 c2 = true.
Proof.
  unfold startsSurrogate. intros H. apply andb_true_iff in H as [Hc Hr].
  apply Nat.eqb_eq in Hc. split.
  - rewrite <- (ascii_nat_embedding c), Hc. reflexivity.
  - destruct r as [| c2 r2]; [discriminate Hr |]. exists c2, r2. split; [reflexivity | exact Hr].
Qed.

Lemma escape_from_surrogate (c c2 c3 : ascii) (r3 : string) :
  startsSurrogate c (String c2 (String c3 r3)) = true ->
  escape_from 0 (String c (String c2 (String c3 r3))) =
  escapeSurrogate (String c2 (String c3 r3)) ++ escape_from 0 r3.
Proof. intros H. cbn [escape_from]. rewrite H. reflexivity. Qed.

Lemma escape_from_char (c : ascii) (r : string) :
  startsSurrogate c r = false ->
  escape_from 0 (String c r) = escapeChar c ++ escape_from 0 r.
Proof. intros H. cbn [escape_from]. rewrite H. reflexivity. Qed.

(** A byte from 80 to BF starts no surrogate. *)
Lemma continuation_starts_none (c : ascii) (r : string) :
  in_range 128 191 c = true -> startsSurrogate c r = false.
Proof.
  intros H. apply in_range_spec in H. unfold startsSurrogate.
  destruct (Nat.eqb_spec (nat_of_ascii c) 237); [lia | reflexivity].
Qed.

Lemma in_range_widen (lo hi lo' hi' : nat) (c : ascii) :
  (lo' <= lo)%nat -> (hi <= hi')%nat -> in_range lo hi c = true -> in_range lo' hi' c = true.
Proof. intros Hlo Hhi H. apply in_range_spec in H. apply in_range_spec. lia. Qed.

(** The parts of a text that starts with a surrogate. *)
Lemma isText_surrogate (c : ascii) (r : string) :
  startsSurrogate c r = true -> isText (String c r) = true ->
  exists c2 c3 r3,
    r = String c2 (String c3 r3) /\
    in_range 160 191 c2 = true /\ in_range 128 191 c3 = true /\
    (in_range 160 175 c2 = true -> startsLow r3 = false) /\
    isText r3 = true.
Proof.
  intros Hs Ht. cbn [isText] in Ht. rewrite Hs in Ht.
  destruct (startsSurrogate_spec c r Hs) as [_ [c2 [r2 [-> H2]]]].
  destruct r2 as [| c3 r3]; [discriminate Ht |].
  apply andb_true_iff in Ht as [Hcond Hrest].
  apply andb_true_iff in Hcond as [H3 Hpair].
  exists c2, c3, r3. split; [reflexivity | split; [exact H2 | split; [exact H3 | split]]].
  - intros Hhigh. rewrite Hhigh in Hpair. cbn [andb] in Hpair.
    now apply negb_true_iff in Hpair.
  - cbn [isText] in Hrest.
    rewrite (continuation_starts_none c2) in Hrest
      by (apply (in_range_widen 160 191); [lia | lia | exact H2]).
    rewrite (continuation_starts_none c3) in Hrest by exact H3.
    cbn [andb] in Hrest. exact Hrest.
Qed.

Lemma lowAhead_escape (s rest : string) :
  isText s = true -> startsLow s = false ->
  lowAhead (escape_from 0 s ++ String dquote rest) = None.
Proof.
  intros Ht Hlow. destruct s as [| c r].
  - apply lowAhead_first. reflexivity.
  - destruct (startsSurrogate c r) eqn:Hs.
    + destruct (isText_surrogate c r Hs Ht) as [c2 [c3 [r3 [-> [H2 [H3 _]]]]]].
      destruct (startsSurrogate_spec _ _ Hs) as [-> _].
      rewrite (escape_from_surrogate _ _ _ _ Hs).
      destruct (utf8_surrogate c2 c3 H2 H3) as [Hk [_ Hhigh]].
      unfold escapeSurrogate, hex2. cbn [append lowAhead].
      change (Ascii.eqb backslash backslash && Ascii.eqb "u" "u")%bool with true.
      cbv iota. rewrite (codeUnit_surrogate _ Hk).
      assert (Hc2 : in_range 160 175 c2 = true).
      { cbn [startsLow] in Hlow. change (Nat.eqb (nat_of_ascii "237") 237) with true in Hlow.
        cbn [andb] in Hlow. apply in_range_spec in H2. apply in_range_spec.
        destruct (in_range 176 191 c2) eqn:E; [discriminate Hlow |].
        unfold in_range in E. apply andb_false_iff in E.
        rewrite !Nat.leb_gt in E. lia. }
      rewrite Hc2 in Hhigh. unfold isHigh in Hhigh. apply andb_true_iff in Hhigh as [_ Hhigh].
      apply Z.ltb_lt in Hhigh. unfold isLow.
      replace (56320 <=? 53248 + Z.of_nat _) with false by (symmetry; apply Z.leb_gt; lia).
      reflexivity.
    + rewrite (escape_from_char _ _ Hs), append_assoc. apply lowAhead_char.
Qed.

(** A string literal that [JSON.stringify] wrote is read back as the
    string, with enough fuel for its bytes. *)
Lemma readString_escape (n : nat) :
  forall s : string,
    (String.length s <= n)%nat -> isText s = true ->
    forall (fuel : nat) (rest : string),
      (String.length s < fuel)%nat ->
      readString fuel (escape_from 0 s ++ String dquote rest) = Some (s, rest).
Proof.
  induction n as [| n IH]; intros s Hn Ht fuel rest Hfuel.
  - destruct s; [| cbn in Hn; lia]. destruct fuel; [lia | reflexivity].
  - destruct s as [| c r]; [destruct fuel; [lia | reflexivity] |].
    destruct fuel as [| fuel]; [lia |]. cbn [String.length] in Hn, Hfuel.
    destruct (startsSurrogate c r) eqn:Hs.
    + destruct (isText_surrogate c r Hs Ht) as [c2 [c3 [r3 [-> [H2 [H3 [Hpair Hr3]]]]]]].
      destruct (startsSurrogate_spec _ _ Hs) as [-> _].
      rewrite (escape_from_surrogate _ _ _ _ Hs), append_assoc.
      cbn [String.length] in Hn, Hfuel.
      rewrite readString_surrogate; [| exact H2 | exact H3 |].
      * rewrite (IH r3) by (try assumption; lia). reflexivity.
      * intros Hhigh. apply lowAhead_escape; [exact Hr3 | exact (Hpair Hhigh)].
    + rewrite (escape_from_char _ _ Hs), append_assoc, readString_char.
      cbn [isText] in Ht. rewrite Hs in Ht. cbn [andb] in Ht.
      rewrite (IH r) by (try assumption; lia). reflexivity.
Qed.

(** A text is no longer than what [JSON.stringify] writes for it. *)
Lemma length_escapeChar (c : ascii) : (1 <= String.length (escapeChar c))%nat.
Proof. apply Nat.leb_le. destruct c as [[|] [|] [|] [|] [|] [|] [|] [|]]; reflexivity. Qed.

Lemma length_escape (n : nat) :
  forall s : string,
    (String.length s <= n)%nat -> isText s = true ->
    (String.length s <= String.length (escape_from 0 s))%nat.
Proof.
  induction n as [| n IH]; intros s Hn Ht.
  - destruct s; [cbn; lia | cbn in Hn; lia].
  - destruct s as [| c r]; [cbn; lia |]. cbn [String.length] in Hn.
    destruct (startsSurrogate c r) eqn:Hs.
    + destruct (isText_surrogate c r Hs Ht) as [c2 [c3 [r3 [-> [H2 [H3 [_ Hr3]]]]]]].
      rewrite (escape_from_surrogate _ _ _ _ Hs), length_append.
      cbn [String.length] in Hn |- *.
      pose proof (IH r3 ltac:(lia) Hr3).
      unfold escapeSurrogate, hex2. cbn [String.length]. lia.
    + rewrite (escape_from_char _ _ Hs), length_append.
      cbn [isText] in Ht. rewrite Hs in Ht. cbn [andb] in Ht.
      pose proof (IH r ltac:(lia) Ht). pose proof (length_escapeChar c).
      cbn [String.length]. lia.
Qed.

(** Reading a quoted string: the string, and what follows the quote. *)
Lemma readString_quote (s rest : string) :
  isText s = true ->
  readString (String.length (escape_from 0 s ++ String dquote rest))
    (escape_from 0 s ++ String dquote rest) = Some (s, rest).
Proof.
  intros Ht. apply (readString_escape (String.length s)); [lia | exact Ht |].
  rewrite length_append. cbn [String.length].
  pose proof (length_escape _ s (le_n _) Ht). lia.
Qed.

End StringFacts.

(* ------------------------------------------------------------------ *)
(** ** Reading numbers back *)
(* ------------------------------------------------------------------ *)

Section TokenFacts.
Import JS Notions Reader.

Lemma span_all (p : ascii -> bool) (a b : string) :
  all p a = true -> stops p b = true -> span p (a ++ b) = (a, b).
Proof.
  intros Ha Hb. induction a as [| c a IH]; cbn [append].
  - destruct b as [| d b]; [reflexivity |]. cbn [stops] in Hb. cbn [span].
    apply negb_true_iff in Hb. now rewrite Hb.
  - cbn [all] in Ha. apply andb_true_iff in Ha as [Hc Ha].
    cbn [span]. rewrite Hc, (IH Ha). reflexivity.
Qed.

Lemma span_whole (p : ascii -> bool) (a : string) :
  all p a = true -> span p a = (a, EmptyString).
Proof.
  intros Ha. induction a as [| c a IH]; [reflexivity |].
  cbn [all] in Ha. apply andb_true_iff in Ha as [Hc Ha].
  cbn [span]. rewrite Hc, (IH Ha). reflexivity.
Qed.

(** What [span] splits off passes the test, and the two parts are the
    text. *)
Lemma span_spec (p : ascii -> bool) (s : string) :
  let '(a, b) := span p s in s = a ++ b /\ all p a = true /\ stops p b = true.
Proof.
  induction s as [| c r IH]; cbn [span]; [repeat split |].
  destruct (p c) eqn:Hc.
  - destruct (span p r) as [a b]. destruct IH as [-> [Ha Hb]].
    cbn [append all]. rewrite Hc, Ha. repeat split. exact Hb.
  - cbn [append all stops]. rewrite Hc. repeat split.
Qed.

Lemma valueOf_digits (d : Decimal.uint) (acc : Z) :
  valueOf acc (NilEmpty.string_of_uint d) = digitsValue acc d.
Proof.
  revert acc. induction d; intros acc; cbn [NilEmpty.string_of_uint valueOf digitsValue];
    try reflexivity; rewrite IHd; reflexivity.
Qed.

Lemma valueOf_positive (p : positive) :
  valueOf 0 (NilZero.string_of_uint (Pos.to_uint p)) = Z.pos p.
Proof.
  pose proof (DecimalPos.Unsigned.of_to p) as Hp.
  pose proof (DecimalPos.Unsigned.to_uint_nonnil p) as Hnil.
  apply (f_equal Z.of_N) in Hp. rewrite digitsValue_of_uint in Hp. simpl in Hp.
  destruct (Pos.to_uint p) as [| d | d | d | d | d | d | d | d | d | d];
    [now elim Hnil | ..];
    cbn [NilZero.string_of_uint]; rewrite valueOf_digits; exact Hp.
Qed.

(** The digits of a positive number do not start with a zero. *)
Lemma nzhead_head (d : Decimal.uint) :
  match Decimal.nzhead d with Decimal.D0 _ => False | _ => True end.
Proof. induction d; cbn [Decimal.nzhead]; try exact I. exact IHd. Qed.

Lemma to_uint_head (p : positive) :
  match Pos.to_uint p with Decimal.D0 _ | Decimal.Nil => False | _ => True end.
Proof.
  pose proof (DecimalPos.Unsigned.to_of (Pos.to_uint p)) as H.
  rewrite DecimalPos.Unsigned.of_to in H. cbn [N.to_uint] in H.
  pose proof (DecimalPos.Unsigned.to_uint_nonzero p) as Hnz.
  pose proof (nzhead_head (Pos.to_uint p)) as Hh.
  unfold Decimal.unorm in H.
  destruct (Decimal.nzhead (Pos.to_uint p)) eqn:E; rewrite H; try exact I;
    contradiction.
Qed.

Lemma proper_positive (p : positive) :
  proper (NilZero.string_of_uint (Pos.to_uint p)) = true.
Proof.
  pose proof (to_uint_head p) as Hh.
  pose proof (digits_NilZero (Pos.to_uint p)) as Hd.
  destruct (Pos.to_uint p) as [| d | d | d | d | d | d | d | d | d | d];
    try contradiction;
    cbn [NilZero.string_of_uint NilEmpty.string_of_uint proper] in *;
    rewrite Hd; reflexivity.
Qed.

(** The digits of a number that is not negative: digits only, properly
    written, with the number for their value. *)
Lemma decimal_natural (v : Z) :
  0 <= v ->
  all isDigit (decimal v) = true /\ proper (decimal v) = true /\
  valueOf 0 (decimal v) = v /\ unsigned (decimal v) = decimal v /\
  isNegative (decimal v) = false.
Proof.
  intros Hv. destruct v as [| p | p]; [repeat split | | lia].
  unfold decimal. cbn [Z.to_int NilZero.string_of_int].
  pose proof (proper_positive p) as Hp.
  pose proof (to_uint_head p) as Hh.
  split; [apply digits_NilZero | split; [exact Hp | split; [apply valueOf_positive |]]].
  destruct (Pos.to_uint p); try contradiction; split; reflexivity.
Qed.

Lemma decimal_negative (p : positive) :
  decimal (Z.neg p) = String "-" (decimal (Z.pos p)).
Proof. reflexivity. Qed.

(** The value of the digits of an integer is the integer. *)
Lemma integerOf_decimal (z : Z) : integerOf (decimal z) = Some z.
Proof.
  destruct z as [| p | p]; [reflexivity | |].
  - destruct (decimal_natural (Z.pos p) ltac:(lia)) as [Hd [Hp [Hv [Hu Hn]]]].
    unfold integerOf. rewrite Hu, Hn, (span_whole _ _ Hd), Hp, Hv. reflexivity.
  - destruct (decimal_natural (Z.pos p) ltac:(lia)) as [Hd [Hp [Hv [Hu Hn]]]].
    rewrite decimal_negative. unfold integerOf. cbn [unsigned isNegative].
    change (Ascii.eqb "-" "-") with true. cbv iota.
    rewrite (span_whole _ _ Hd), Hp, Hv. reflexivity.
Qed.

Lemma canonicalFraction_digits (sign digits : string) :
  all isDigit digits = true -> unsigned (sign ++ digits) = digits ->
  canonicalFraction (sign ++ digits) = false.
Proof.
  intros Hd Hu. unfold canonicalFraction. rewrite Hu, (span_whole _ _ Hd). reflexivity.
Qed.

Lemma canonicalFraction_decimal (z : Z) : canonicalFraction (decimal z) = false.
Proof.
  destruct z as [| p | p]; [reflexivity | |];
    destruct (decimal_natural (Z.pos p) ltac:(lia)) as [Hd [Hp [Hv [Hu Hn]]]].
  - apply (canonicalFraction_digits EmptyString); assumption.
  - rewrite decimal_negative. apply (canonicalFraction_digits "-"); [exact Hd | reflexivity].
Qed.

(** The digits of an integer denote the number that integer becomes. *)
Lemma numberOf_decimal (z : Z) : numberOf (decimal z) = Some (numberOfZ z).
Proof.
  unfold numberOf. rewrite canonicalFraction_decimal, integerOf_decimal. reflexivity.
Qed.

End TokenFacts.

(* ------------------------------------------------------------------ *)
(** ** The digits written for a double denote it *)
(* ------------------------------------------------------------------ *)

Section RoundingFacts.
Import JS.

(** How an integer beyond 2^53 is rounded, from its quotient and its
    remainder by the unit of its binade. *)
Lemma roundNatural_at (v e q r : Z) :
  safe < v -> 0 <= e -> 2 ^ e <= v < 2 ^ (e + 1) ->
  v = q * 2 ^ (e - 52) + r -> 0 <= r < 2 ^ (e - 52) ->
  roundNatural v =
  (if (r <? 2 ^ (e - 52) / 2) || ((r =? 2 ^ (e - 52) / 2) && Z.even q) then q else q + 1)
  * 2 ^ (e - 52).
Proof.
  intros Hv He Hbinade Hq Hr. unfold roundNatural.
  replace (v <=? safe) with false by (symmetry; apply Z.leb_gt; exact Hv).
  assert (Hlog : Z.log2 v = e).
  { apply Z.log2_unique; [exact He |]. replace (Z.succ e) with (e + 1) by lia. exact Hbinade. }
  rewrite Hlog. cbv zeta.
  assert (Hdiv : v / 2 ^ (e - 52) = q).
  { symmetry. apply Z.div_unique with (r := r); [left; exact Hr | lia]. }
  assert (Hmod : v mod 2 ^ (e - 52) = r).
  { symmetry. apply Z.mod_unique with (q := q); [left; exact Hr | lia]. }
  rewrite Hdiv, Hmod. reflexivity.
Qed.

(** A double beyond 2^53 is 53 bits times the unit of its binade. *)
Lemma double_form (x : Z) :
  safe < x -> roundNatural x = x ->
  exists e q,
    53 <= e /\ 2 ^ 52 <= q < 2 ^ 53 /\ x = q * 2 ^ (e - 52) /\ 2 ^ e <= x < 2 ^ (e + 1).
Proof.
  intros Hx Hround.
  assert (Hpos : 0 < x) by (unfold safe in Hx; lia).
  destruct (Z.log2_spec x Hpos) as [Hlo Hhi].
  replace (Z.succ (Z.log2 x)) with (Z.log2 x + 1) in Hhi by lia.
  assert (He : 53 <= Z.log2 x).
  { apply Z.log2_le_pow2; [exact Hpos |]. unfold safe in Hx. lia. }
  set (e := Z.log2 x) in *.
  assert (Hu : 0 < 2 ^ (e - 52)) by (apply Z.pow_pos_nonneg; lia).
  assert (Hpow : 2 ^ e = 2 ^ 52 * 2 ^ (e - 52)).
  { rewrite <- Z.pow_add_r by lia. f_equal. lia. }
  assert (Hpow' : 2 ^ (e + 1) = 2 ^ 53 * 2 ^ (e - 52)).
  { rewrite <- Z.pow_add_r by lia. f_equal. lia. }
  pose proof (Z.div_mod x (2 ^ (e - 52)) ltac:(lia)) as Hdm.
  pose proof (Z.mod_pos_bound x (2 ^ (e - 52)) Hu) as Hr.
  rewrite (roundNatural_at x e (x / 2 ^ (e - 52)) (x mod 2 ^ (e - 52)))
    in Hround by (try assumption; lia).
  set (u := 2 ^ (e - 52)) in *. set (q := x / u) in *. set (r := x mod u) in *.
  assert (Hzero : r = 0).
  { destruct ((r <? u / 2) || (r =? u / 2) && Z.even q)%bool; nia. }
  exists e, q. split; [exact He |].
  assert (Hx' : x = q * u) by lia.
  split; [| split; [exact Hx' | split; assumption]].
  rewrite Hpow in Hlo. rewrite Hpow' in Hhi. nia.
Qed.

(** An integer within half a unit of a double rounds to it; at exactly half
    a unit it does when the double is even, and below a power of two the
    unit is half as wide. *)
Lemma rounds_to (x e q v : Z) :
  safe < x -> 53 <= e -> 2 ^ 52 <= q < 2 ^ 53 -> x = q * 2 ^ (e - 52) ->
  let unit := 2 ^ (e - 52) in
  let below := if q =? 2 ^ 52 then unit / 2 else unit in
  (if Z.even q
   then ((2 * x - below <=? 2 * v) && (2 * v <=? 2 * x + unit))%bool
   else ((2 * x - below <? 2 * v) && (2 * v <? 2 * x + unit))%bool) = true ->
  roundNatural v = x.
Proof.
  intros Hx He Hq Hform unit below Hadm.
  assert (Hu : unit = 2 * 2 ^ (e - 53)).
  { unfold unit. rewrite <- Z.pow_succ_r by lia. f_equal. lia. }
  assert (Hh : 0 < 2 ^ (e - 53)) by (apply Z.pow_pos_nonneg; lia).
  assert (Hhalf : unit / 2 = 2 ^ (e - 53)).
  { rewrite Hu. rewrite Z.mul_comm. apply Z.div_mul. lia. }
  assert (Hpow : 2 ^ e = 2 ^ 52 * unit).
  { unfold unit. rewrite <- Z.pow_add_r by lia. f_equal. lia. }
  assert (Hpow' : 2 ^ (e + 1) = 2 ^ 53 * unit).
  { unfold unit. rewrite <- Z.pow_add_r by lia. f_equal. lia. }
  assert (Hsafe : safe = 2 ^ 53) by reflexivity.
  assert (Hin : 2 * x - below <= 2 * v <= 2 * x + unit /\
                (Z.even q = false -> 2 * x - below < 2 * v < 2 * x + unit)).
  { destruct (Z.even q).
    - apply andb_true_iff in Hadm as [H1 H2]. apply Z.leb_le in H1. apply Z.leb_le in H2.
      split; [lia | discriminate].
    - apply andb_true_iff in Hadm as [H1 H2]. apply Z.ltb_lt in H1. apply Z.ltb_lt in H2.
      split; [lia | intros _; lia]. }
  clear Hadm. destruct Hin as [Hin Hopen].
  set (h := 2 ^ (e - 53)) in *.
  destruct (Z_le_gt_dec x v) as [Hge | Hlt].
  - (* at or above the double *)
    rewrite (roundNatural_at v e q (v - x)) by (try fold unit; nia).
    fold unit. rewrite Hhalf.
    destruct (Z.ltb_spec (v - x) h) as [Hr | Hr]; cbn [orb]; [lia |].
    destruct (Z.eqb_spec (v - x) h) as [Htie | Hne]; [| lia].
    destruct (Z.even q) eqn:Heven; cbn [andb]; [lia |].
    specialize (Hopen eq_refl). lia.
  - destruct (Z.eqb_spec q (2 ^ 52)) as [Hq52 | Hq52].
    + (* just below a power of two: the binade below, with half the unit *)
      assert (He54 : 54 <= e).
      { destruct (Z.eq_dec e 53) as [E | E]; [| lia].
        subst e. unfold unit in Hform. rewrite Hq52 in Hform. cbn in Hform. lia. }
      assert (Hh2 : h = 2 * 2 ^ (e - 54)).
      { unfold h. rewrite <- Z.pow_succ_r by lia. f_equal. lia. }
      assert (Hq2 : 0 < 2 ^ (e - 54)) by (apply Z.pow_pos_nonneg; lia).
      set (h2 := 2 ^ (e - 54)) in *.
      assert (Hunit' : 2 ^ (e - 1 - 52) = h) by (unfold h; f_equal; lia).
      assert (Hhalf' : h / 2 = h2).
      { rewrite Hh2, Z.mul_comm. apply Z.div_mul. lia. }
      assert (Hbelow : below = h).
      { unfold below. destruct (Z.eqb_spec q (2 ^ 52)); [exact Hhalf | contradiction]. }
      assert (Hpe : 2 ^ e = 2 * 2 ^ (e - 1)).
      { rewrite <- Z.pow_succ_r by lia. f_equal. lia. }
      assert (Hpe1 : 2 ^ (e - 1) = 2 ^ 52 * h).
      { unfold h. rewrite <- Z.pow_add_r by lia. f_equal. lia. }
      assert (Hx2 : x = 2 ^ 53 * h).
      { rewrite Hform, Hq52. fold unit. rewrite Hu. lia. }
      rewrite (roundNatural_at v (e - 1) (2 ^ 53 - 1) (v - (2 ^ 53 - 1) * h))
        by (try replace (e - 1 + 1) with e by lia; try rewrite Hunit'; lia).
      rewrite Hunit', Hhalf'.
      destruct (Z.ltb_spec (v - (2 ^ 53 - 1) * h) h2) as [Hr | Hr]; cbn [orb]; [lia |].
      change (Z.even (2 ^ 53 - 1)) with false. rewrite andb_false_r. lia.
    + (* below the double, in its binade *)
      assert (Hbelow : below = unit).
      { unfold below. destruct (Z.eqb_spec q (2 ^ 52)); [contradiction | reflexivity]. }
      rewrite (roundNatural_at v e (q - 1) (v - (q - 1) * unit))
        by (try fold unit; nia).
      fold unit. rewrite Hhalf.
      destruct (Z.ltb_spec (v - (q - 1) * unit) h) as [Hr | Hr]; cbn [orb]; [lia |].
      assert (Hx' : x = q * unit) by exact Hform.
      destruct (Z.eqb_spec (v - (q - 1) * unit) h) as [Htie | Hne]; cbn [andb]; [| lia].
      destruct (Z.even q) eqn:Heven.
      * replace (q - 1) with (Z.pred q) by lia. rewrite Z.even_pred, <- Z.negb_even, Heven.
        cbn [negb andb]. lia.
      * specialize (Hopen eq_refl). lia.
Qed.

(** What [candidate] finds rounds to the double. *)
Lemma candidate_rounds (x j v : Z) :
  safe < x -> roundNatural x = x -> candidate x j = Some v -> roundNatural v = x.
Proof.
  intros Hx Hround Hc.
  destruct (double_form x Hx Hround) as (e & q & He & Hq & Hform & Hbin).
  assert (Hlog : Z.log2 x = e).
  { apply Z.log2_unique; [lia |]. replace (Z.succ e) with (e + 1) by lia. exact Hbin. }
  assert (Hu : 0 < 2 ^ (e - 52)) by (apply Z.pow_pos_nonneg; lia).
  assert (Hdiv : x / 2 ^ (e - 52) = q).
  { rewrite Hform at 1. apply Z.div_mul. lia. }
  apply (rounds_to x e q v Hx He Hq Hform). cbv zeta.
  unfold candidate in Hc. rewrite Hlog, Hdiv in Hc. cbv zeta in Hc.
  set (a := x / 10 ^ j * 10 ^ j) in *. set (p := 10 ^ j) in *.
  set (lo := 2 * x - (if q =? 2 ^ 52 then 2 ^ (e - 52) / 2 else 2 ^ (e - 52))) in *.
  set (hi := 2 * x + 2 ^ (e - 52)) in *.
  destruct (Z.even q).
  - destruct ((lo <=? 2 * a) && (2 * a <=? hi))%bool eqn:H0;
      destruct ((lo <=? 2 * (a + p)) && (2 * (a + p) <=? hi))%bool eqn:H1;
      repeat match type of Hc with (if ?c then _ else _) = _ => destruct c end;
      try discriminate; injection Hc as <-; assumption.
  - destruct ((lo <? 2 * a) && (2 * a <? hi))%bool eqn:H0;
      destruct ((lo <? 2 * (a + p)) && (2 * (a + p) <? hi))%bool eqn:H1;
      repeat match type of Hc with (if ?c then _ else _) = _ => destruct c end;
      try discriminate; injection Hc as <-; assumption.
Qed.

(** The digits written for a double beyond 2^53 round to it. *)
Lemma shortestFrom_rounds (fuel : nat) (x j found : Z) :
  safe < x -> roundNatural x = x -> roundNatural found = x ->
  roundNatural (shortestFrom fuel x j found) = x.
Proof.
  intros Hx Hround. revert j found.
  induction fuel as [| fuel IH]; intros j found Hfound; cbn [shortestFrom]; [exact Hfound |].
  destruct (candidate x (j + 1)) as [v |] eqn:Hc; [| exact Hfound].
  apply IH. exact (candidate_rounds x (j + 1) v Hx Hround Hc).
Qed.

Lemma shortest_rounds (x : Z) :
  safe < x -> roundNatural x = x -> roundNatural (shortest x) = x.
Proof.
  intros Hx Hround. unfold shortest. apply shortestFrom_rounds; assumption.
Qed.

Lemma shortest_positive (x : Z) :
  safe < x -> roundNatural x = x -> 0 < shortest x.
Proof.
  intros Hx Hround. pose proof (shortest_rounds x Hx Hround) as H.
  unfold roundNatural in H. destruct (Z.leb_spec (shortest x) safe) as [Hle | Hgt].
  - rewrite H. unfold safe in Hx. lia.
  - unfold safe in Hgt. lia.
Qed.

End RoundingFacts.

(* ------------------------------------------------------------------ *)
(** ** Reading the exponent form *)
(* ------------------------------------------------------------------ *)

Section ExponentFacts.
Import JS Notions Reader.

Lemma append_empty (s : string) : s ++ EmptyString = s.
Proof. induction s as [| c s IH]; simpl; [reflexivity | now rewrite IH]. Qed.

Lemma zeros_shift (zs r : string) :
  all (fun c : ascii => Ascii.eqb c "0") zs = true -> zs ++ String "0" r = String "0" (zs ++ r).
Proof.
  induction zs as [| c zs IH]; cbn [append all]; intros H; [reflexivity |].
  apply andb_true_iff in H as [Hc Hz]. apply Ascii.eqb_eq in Hc. subst c.
  rewrite (IH Hz). reflexivity.
Qed.

(** The digits are what is kept and the zeros that were dropped. *)
Lemma dropTrailingZeros_from_spec (s zs : string) :
  all (fun c : ascii => Ascii.eqb c "0") zs = true ->
  exists z, all (fun c : ascii => Ascii.eqb c "0") z = true /\ zs ++ s = dropTrailingZeros_from zs s ++ z.
Proof.
  revert zs. induction s as [| c r IH]; intros zs Hz; cbn [dropTrailingZeros_from].
  - exists zs. split; [exact Hz |]. apply append_empty.
  - destruct (Ascii.eqb c "0") eqn:Hc.
    + apply Ascii.eqb_eq in Hc. subst c.
      destruct (IH (String "0" zs)) as (z & Hz' & E).
      { cbn [all]. rewrite Hz. reflexivity. }
      exists z. split; [exact Hz' |]. rewrite <- E. apply zeros_shift. exact Hz.
    + destruct (IH EmptyString eq_refl) as (z & Hz' & E). cbn [append] in E.
      exists z. split; [exact Hz' |]. rewrite E at 1.
      rewrite append_assoc. reflexivity.
Qed.

Lemma valueOf_app (a b : string) (acc : Z) :
  valueOf acc (a ++ b) = valueOf (valueOf acc a) b.
Proof.
  revert acc. induction a as [| c a IH]; intros acc; cbn [append valueOf];
    [reflexivity | apply IH].
Qed.

Lemma valueOf_zeros (z : string) (acc : Z) :
  all (fun c : ascii => Ascii.eqb c "0") z = true -> valueOf acc z = acc * 10 ^ Z.of_nat (String.length z).
Proof.
  revert acc. induction z as [| c z IH]; intros acc H; cbn [valueOf String.length all] in *.
  - change (10 ^ Z.of_nat 0) with 1. lia.
  - apply andb_true_iff in H as [Hc Hz]. apply Ascii.eqb_eq in Hc. subst c.
    rewrite (IH _ Hz), Nat2Z.inj_succ, Z.pow_succ_r by lia.
    change (Z.of_nat (nat_of_ascii "0")) with 48. lia.
Qed.

Lemma digit_is_no_sign (d : ascii) :
  isDigit d = true -> Ascii.eqb d "-" = false /\ Ascii.eqb d "." = false.
Proof.
  destruct d as [[] [] [] [] [] [] [] []]; intros H; try discriminate H; split; reflexivity.
Qed.

Lemma proper_digits (ex : string) : proper ex = true -> all isDigit ex = true.
Proof.
  destruct ex as [| c r]; [discriminate |]. unfold proper.
  intros H. apply andb_true_iff in H as [H _]. exact H.
Qed.

(** The parts of the exponent form of a positive integer: a digit, the
    digits after the point, and an exponent that covers them. *)
Lemma exponential_parts (v : Z) :
  0 < v ->
  exists d rest ex,
    exponential (decimal v) =
    String d (match rest with EmptyString => EmptyString | _ => "." ++ rest end) ++ "e+" ++ ex
    /\ isDigit d = true /\ all isDigit rest = true /\ proper ex = true
    /\ Z.of_nat (String.length rest) <= valueOf 0 ex
    /\ valueOf 0 (String d rest) * 10 ^ (valueOf 0 ex - Z.of_nat (String.length rest)) = v.
Proof.
  intros Hv.
  destruct (decimal_natural v ltac:(lia)) as [Hd [_ [Hval _]]].
  destruct (dropTrailingZeros_from_spec (decimal v) EmptyString eq_refl) as (z & Hz & E).
  cbn [append] in E. fold (dropTrailingZeros (decimal v)) in E.
  unfold exponential.
  assert (Hkept : all isDigit (dropTrailingZeros (decimal v)) = true).
  { apply dropTrailingZeros_chars; [reflexivity | exact Hd]. }
  assert (Hlen : String.length (decimal v) =
                 (String.length (dropTrailingZeros (decimal v)) + String.length z)%nat).
  { rewrite E at 1. apply length_append. }
  assert (Hvalue : valueOf 0 (dropTrailingZeros (decimal v)) * 10 ^ Z.of_nat (String.length z) = v).
  { rewrite <- Hval at 2. rewrite E at 2. rewrite valueOf_app. symmetry. apply valueOf_zeros.
    exact Hz. }
  destruct (dropTrailingZeros (decimal v)) as [| d rest].
  - cbn [valueOf] in Hvalue. lia.
  - cbn [all] in Hkept. apply andb_true_iff in Hkept as [Hdigit Hrest].
    cbn [String.length] in Hlen.
    destruct (decimal_natural (Z.of_nat (String.length (decimal v)) - 1) ltac:(lia))
      as [_ [Hp [Hex _]]].
    exists d, rest, (decimal (Z.of_nat (String.length (decimal v)) - 1)).
    split; [reflexivity |]. split; [exact Hdigit |]. split; [exact Hrest |].
    split; [exact Hp |]. rewrite Hex. split; [lia |].
    rewrite <- Hvalue at 2. f_equal. f_equal. lia.
Qed.

(** Reading the exponent form gives the digits times the power of ten that
    is left. *)
Lemma integerOf_exponent (negative : bool) (d : ascii) (rest ex : string) :
  isDigit d = true -> all isDigit rest = true -> proper ex = true ->
  Z.of_nat (String.length rest) <= valueOf 0 ex ->
  let token :=
    (if negative then "-" else EmptyString)
    ++ (String d (match rest with EmptyString => EmptyString | _ => "." ++ rest end)
        ++ "e+" ++ ex) in
  integerOf token =
  Some ((if negative then -1 else 1) * valueOf 0 (String d rest)
        * 10 ^ (valueOf 0 ex - Z.of_nat (String.length rest)))
  /\ canonicalFraction token = false.
Proof.
  intros Hd Hrest Hex Hcover token.
  destruct (digit_is_no_sign d Hd) as [Hsign Hpoint].
  set (body := String d (match rest with EmptyString => EmptyString | _ => "." ++ rest end)
               ++ "e+" ++ ex) in *.
  assert (Hu : unsigned token = body).
  { unfold token. destruct negative; [reflexivity |].
    unfold body. cbn [append unsigned]. rewrite Hsign. reflexivity. }
  assert (Hn : isNegative token = negative).
  { unfold token. destruct negative; [reflexivity |].
    unfold body. cbn [append isNegative]. exact Hsign. }
  assert (Hone : proper (String d EmptyString) = true).
  { unfold proper. cbn [all]. rewrite Hd. cbn [andb]. apply orb_true_r. }
  unfold integerOf, canonicalFraction. rewrite Hu, Hn. unfold body.
  destruct rest as [| c r].
  - cbn [append span]. rewrite Hd. change (isDigit "e") with false. cbv iota.
    rewrite Hone. cbn [negb]. change (Ascii.eqb "e" ".") with false. cbn [andb].
    change (Ascii.eqb "e" "e") with true. change (Ascii.eqb "+" "+") with true.
    change (Ascii.eqb "+" "-") with false.
    rewrite Hex. cbn [andb String.length] in *.
    replace (Z.of_nat 0 <=? valueOf 0 ex) with true by (symmetry; apply Z.leb_le; exact Hcover).
    split; reflexivity.
  - cbn [append span]. rewrite Hd. change (isDigit ".") with false. cbv iota.
    rewrite Hone. cbn [negb]. change (Ascii.eqb "." ".") with true. cbv iota.
    change (String c (r ++ String "e" (String "+" ex)))
      with (String c r ++ String "e" (String "+" ex)).
    rewrite (span_all isDigit (String c r) (String "e" (String "+" ex)) Hrest eq_refl).
    cbn [andb].
    change (Ascii.eqb "e" "e") with true. change (Ascii.eqb "+" "+") with true.
    change (Ascii.eqb "+" "-") with false.
    rewrite Hex. cbn [andb].
    replace (Z.of_nat (String.length (String c r)) <=? valueOf 0 ex) with true
      by (symmetry; apply Z.leb_le; exact Hcover).
    split; [reflexivity |]. apply andb_false_r.
Qed.

End ExponentFacts.

(* ------------------------------------------------------------------ *)
(** ** A finite number is read back from its text *)
(* ------------------------------------------------------------------ *)

Section NumberFacts.
Import JS Notions Reader.

Lemma numberOfZ_signed (z v : Z) :
  0 < v -> roundNatural v = Z.abs z -> Z.abs z <= MAX_VALUE ->
  numberOfZ ((if z <? 0 then -1 else 1) * v) = Int z.
Proof.
  intros Hv Hr Hmax. unfold numberOfZ, toNumber, round. cbv zeta.
  destruct (Z.ltb_spec z 0) as [Hneg | Hpos].
  - replace (-1 * v <? 0) with true by (symmetry; apply Z.ltb_lt; lia).
    replace (- (-1 * v)) with v by lia. rewrite Hr.
    replace (Z.abs (- Z.abs z) <=? MAX_VALUE) with true by (symmetry; apply Z.leb_le; lia).
    f_equal. lia.
  - replace (1 * v <? 0) with false by (symmetry; apply Z.ltb_ge; lia).
    replace (1 * v) with v by lia. rewrite Hr.
    replace (Z.abs (Z.abs z) <=? MAX_VALUE) with true by (symmetry; apply Z.leb_le; lia).
    f_equal. lia.
Qed.

Lemma round_magnitude (z : Z) : round z = z -> roundNatural (Z.abs z) = Z.abs z.
Proof.
  unfold round. destruct (Z.ltb_spec z 0) as [Hneg | Hpos]; intros H.
  - replace (Z.abs z) with (- z) by lia. lia.
  - replace (Z.abs z) with z by lia. exact H.
Qed.

(** The text of an integer that is a double denotes it. *)
Lemma numberOf_String_of_Z (z : Z) :
  round z = z -> Z.abs z <= MAX_VALUE -> numberOf (String_of_Z z) = Some (Int z).
Proof.
  intros Hround Hmax. unfold String_of_Z.
  destruct (Z.leb_spec (Z.abs z) safe) as [Hsafe | Hbeyond].
  - rewrite numberOf_decimal. unfold numberOfZ, toNumber. cbv zeta. rewrite Hround.
    replace (Z.abs z <=? MAX_VALUE) with true by (symmetry; apply Z.leb_le; exact Hmax).
    reflexivity.
  - cbv zeta.
    pose proof (round_magnitude z Hround) as Hx.
    pose proof (shortest_rounds (Z.abs z) Hbeyond Hx) as Hv.
    pose proof (shortest_positive (Z.abs z) Hbeyond Hx) as Hpos.
    set (v := shortest (Z.abs z)) in *.
    pose proof (numberOfZ_signed z v Hpos Hv Hmax) as Hnumber.
    destruct (Z.ltb_spec v (10 ^ 21)) as [Hshort | Hlong].
    + destruct (Z.ltb_spec z 0) as [Hneg | Hnonneg].
      * destruct v as [| p | p]; try lia.
        change ("-" ++ decimal (Z.pos p)) with (String "-" (decimal (Z.pos p))).
        rewrite <- decimal_negative, numberOf_decimal.
        rewrite <- Hnumber. reflexivity.
      * cbn [append]. rewrite numberOf_decimal. rewrite <- Hnumber. f_equal. f_equal. lia.
    + destruct (exponential_parts v Hpos) as (d & rest & ex & E & Hd & Hrest & Hex & Hcover & Hval).
      rewrite E.
      destruct (integerOf_exponent (z <? 0) d rest ex Hd Hrest Hex Hcover) as [Hint Hcanon].
      cbv zeta in Hint, Hcanon.
      unfold numberOf. rewrite Hcanon, Hint. cbn [option_map].
      rewrite <- Z.mul_assoc, Hval, Hnumber. reflexivity.
Qed.

(** The characters of the text of a number that is not an integer. *)
Lemma canonicalFraction_chars (text : string) :
  canonicalFraction text = true -> all numberChar text = true.
Proof.
  unfold canonicalFraction. intros H.
  assert (Hbody : all numberChar (unsigned text) = true -> all numberChar text = true).
  { destruct text as [| c body]; [trivial |]. cbn [unsigned].
    destruct (Ascii.eqb_spec c "-") as [-> | _]; [| trivial].
    intros Hb. cbn [all]. rewrite Hb. reflexivity. }
  apply Hbody. clear Hbody.
  pose proof (span_spec isDigit (unsigned text)) as Hspan.
  destruct (span isDigit (unsigned text)) as [whole r1].
  destruct Hspan as (-> & Hwhole & _).
  rewrite all_app. rewrite (all_weaken _ _ _ isDigit_numberChar Hwhole). cbn [andb].
  assert (Hexp : forall e m ex,
             (Ascii.eqb e "e" && Ascii.eqb m "-"
              && Nat.eqb (String.length whole) 1 && negb (String.eqb whole "0")
              && proper ex && (7 <=? valueOf 0 ex))%bool = true ->
             all numberChar (String e (String m ex)) = true).
  { intros e m ex Hc.
    apply andb_true_iff in Hc as [Hc _]. apply andb_true_iff in Hc as [Hc Hp].
    apply andb_true_iff in Hc as [Hc _]. apply andb_true_iff in Hc as [Hc _].
    apply andb_true_iff in Hc as [He Hm].
    apply Ascii.eqb_eq in He. apply Ascii.eqb_eq in Hm. subst e m.
    cbn [all]. change (numberChar "e") with true. change (numberChar "-") with true.
    cbn [andb]. exact (all_weaken _ _ _ isDigit_numberChar (proper_digits ex Hp)). }
  destruct r1 as [| c1 f]; [discriminate H |].
  destruct (Ascii.eqb_spec c1 ".") as [-> | _].
  - pose proof (span_spec isDigit f) as Hfrac.
    destruct (span isDigit f) as [frac r2]. destruct Hfrac as (-> & Hfrac & _).
    apply andb_true_iff in H as [_ H].
    cbn [all]. change (numberChar ".") with true. cbn [andb].
    rewrite all_app, (all_weaken _ _ _ isDigit_numberChar Hfrac). cbn [andb].
    destruct r2 as [| e [| m ex]]; [reflexivity | discriminate H |].
    apply Hexp. exact H.
  - destruct f as [| m ex]; [discriminate H |].
    apply Hexp. exact H.
Qed.

(** A finite number is read back from its text, up to a character that no
    number has. *)
Lemma readNumber_legible (n : number) (rest : string) :
  legibleNumber n = true -> stops numberChar rest = true ->
  readNumber (Number_toString n ++ rest) = Some (n, rest).
Proof.
  intros Hn Hstop. unfold readNumber.
  destruct n as [z | text | |]; try discriminate Hn; cbn [legibleNumber Number_toString] in *.
  - apply andb_true_iff in Hn as [Hround Hmax].
    apply Z.eqb_eq in Hround. apply Z.leb_le in Hmax.
    rewrite (span_all _ _ _ (String_of_Z_chars z) Hstop).
    rewrite (numberOf_String_of_Z z Hround Hmax). reflexivity.
  - rewrite (span_all _ _ _ (canonicalFraction_chars text Hn) Hstop).
    unfold numberOf. rewrite Hn. reflexivity.
Qed.

End NumberFacts.

(* ------------------------------------------------------------------ *)
(** ** A value is read back from its text *)
(* ------------------------------------------------------------------ *)

Section ValueFacts.
Import JS Notions Reader.

Lemma join_cons (sep x y : string) (l : list string) :
  join sep (x :: y :: l) = x ++ sep ++ join sep (y :: l).
Proof. reflexivity. Qed.

Lemma join_length (l : list string) :
  (List.length l <= S (String.length (join "," l)))%nat.
Proof.
  induction l as [| x [| y l] IH]; [cbn; lia | cbn; lia |].
  rewrite join_cons, !length_append. cbn [List.length String.length] in *. lia.
Qed.

Lemma join_member_length (sep x : string) (l : list string) :
  In x l -> (String.length x <= String.length (join sep l))%nat.
Proof.
  induction l as [| y [| z l] IH]; intros Hin; [contradiction | |].
  - destruct Hin as [-> | []]. cbn. lia.
  - rewrite join_cons, !length_append.
    destruct Hin as [-> | Hin]; [lia |]. specialize (IH Hin). lia.
Qed.

Lemma legible_elements (l : list Json) :
  legible (JArray l) = true -> Forall (fun e => legible e = true) l.
Proof.
  induction l as [| e l IH]; intros H; [constructor |].
  change (legible (JArray (e :: l))) with (legible e && legible (JArray l))%bool in H.
  apply andb_true_iff in H as [He Hl]. constructor; [exact He | exact (IH Hl)].
Qed.

Lemma legible_members (ms : list (string * Json)) :
  legible (JObject ms) = true ->
  Forall (fun kv => isText (fst kv) = true /\ legible (snd kv) = true) ms.
Proof.
  induction ms as [| [k x] ms IH]; intros H; [constructor |].
  change (legible (JObject ((k, x) :: ms)))
    with (isText k && legible x && legible (JObject ms))%bool in H.
  apply andb_true_iff in H as [H Hl]. apply andb_true_iff in H as [Hk Hx].
  constructor; [split; assumption | exact (IH Hl)].
Qed.

(** No number starts like a word, a string, an array or an object, or ends
    one. *)
Lemma numberChar_head (c : ascii) :
  numberChar c = true ->
  Ascii.eqb c "n" = false /\ Ascii.eqb c "t" = false /\ Ascii.eqb c "f" = false /\
  Ascii.eqb c dquote = false /\ Ascii.eqb c "[" = false /\ Ascii.eqb c "{" = false /\
  Ascii.eqb c "]" = false.
Proof.
  destruct c as [[] [] [] [] [] [] [] []]; intros H; try discriminate H;
    repeat split; reflexivity.
Qed.

Lemma number_head (n : number) :
  legibleNumber n = true ->
  exists c t, Number_toString n = String c t /\ numberChar c = true.
Proof.
  destruct n as [z | text | |]; try discriminate; cbn [legibleNumber Number_toString]; intros H.
  - pose proof (String_of_Z_chars z) as Hc. pose proof (String_of_Z_truthy z) as Ht.
    destruct (String_of_Z z) as [| c t]; [discriminate Ht |].
    cbn [all] in Hc. apply andb_true_iff in Hc as [Hc _]. exists c, t. split; [reflexivity | exact Hc].
  - pose proof (canonicalFraction_chars text H) as Hc.
    destruct text as [| c t]; [discriminate H |].
    cbn [all] in Hc. apply andb_true_iff in Hc as [Hc _]. exists c, t. split; [reflexivity | exact Hc].
Qed.

Lemma legibleNumber_finite (n : number) : legibleNumber n = true -> isFinite n = true.
Proof. destruct n; [reflexivity | reflexivity | discriminate | discriminate]. Qed.

(** No text of a value is empty or starts with a closing bracket. *)
Lemma stringify_head (v : Json) :
  legible v = true ->
  exists c t, JSON_stringify v = String c t /\ Ascii.eqb c "]" = false.
Proof.
  destruct v as [| [] | n | s | l | ms]; intros H;
    try (cbn [JSON_stringify append quote]; eexists; eexists; split; reflexivity).
  cbn [legible] in H. cbn [JSON_stringify]. rewrite (legibleNumber_finite n H).
  destruct (number_head n H) as (c & t & E & Hc). exists c, t. split; [exact E |].
  apply (numberChar_head c Hc).
Qed.

Lemma readValue_step (fuel : nat) (c : ascii) (r : string) :
  readValue (S fuel) (String c r) =
  if Ascii.eqb c "n" then option_map (fun rest => (JNull, rest)) (after "ull" r)
  else if Ascii.eqb c "t" then option_map (fun rest => (JBool true, rest)) (after "rue" r)
  else if Ascii.eqb c "f" then option_map (fun rest => (JBool false, rest)) (after "alse" r)
  else if Ascii.eqb c dquote then
    match readString (String.length r) r with
    | Some (text, rest) => Some (JString text, rest)
    | None => None
    end
  else if Ascii.eqb c "[" then
    match r with
    | String d r' =>
        if Ascii.eqb d "]" then Some (JArray [], r')
        else
          match readElements (readValue fuel) (String.length r) r with
          | Some (vs, rest) => Some (JArray vs, rest)
          | None => None
          end
    | EmptyString => None
    end
  else if Ascii.eqb c "{" then
    match r with
    | String d r' =>
        if Ascii.eqb d "}" then Some (JObject [], r')
        else
          match readMembers (readValue fuel) (String.length r) r with
          | Some (ms, rest) => Some (JObject ms, rest)
          | None => None
          end
    | EmptyString => None
    end
  else
    match readNumber (String c r) with
    | Some (n, rest) => Some (JNumber n, rest)
    | None => None
    end.
Proof. reflexivity. Qed.

(** The elements are read back from their texts with the commas between
    them, by a reader that reads each of them back. *)
Lemma readElements_join (read1 : string -> option (Json * string)) (l : list Json) :
  Forall (fun e => forall rest, stops numberChar rest = true ->
                     read1 (JSON_stringify e ++ rest) = Some (e, rest)) l ->
  l <> [] ->
  forall (fuel : nat) (rest : string),
    (List.length l <= fuel)%nat ->
    readElements read1 fuel (join "," (map JSON_stringify l) ++ "]" ++ rest) = Some (l, rest).
Proof.
  induction l as [| e l IH]; intros HF Hne fuel rest Hfuel; [contradiction |].
  destruct fuel as [| fuel]; [cbn in Hfuel; lia |].
  inversion HF as [| ? ? He Hl]; subst.
  destruct l as [| e' l'].
  - cbn [map join String.concat readElements].
    rewrite (He ("]" ++ rest) eq_refl). reflexivity.
  - cbn [map]. rewrite join_cons, !append_assoc. cbn [readElements].
    rewrite (He ("," ++ join "," (JSON_stringify e' :: map JSON_stringify l') ++ "]" ++ rest)
               eq_refl).
    cbn [append]. change (Ascii.eqb "," ",") with true. cbv iota.
    change (JSON_stringify e' :: map JSON_stringify l') with (map JSON_stringify (e' :: l')).
    change (String "]" rest) with ("]" ++ rest).
    rewrite (IH Hl ltac:(discriminate) fuel rest ltac:(cbn [List.length] in *; lia)).
    reflexivity.
Qed.

(** The text of a member followed by more text: the key between quotes, a
    colon, the text of the value. *)
Lemma member_text (k : string) (x : Json) (more : string) :
  (quote k ++ ":" ++ JSON_stringify x) ++ more =
  String dquote (escape_from 0 k ++ String dquote (String ":" (JSON_stringify x ++ more))).
Proof.
  unfold quote, char. cbn [append]. rewrite !append_assoc. cbn [append]. reflexivity.
Qed.

Lemma readMembers_join (read1 : string -> option (Json * string)) (ms : list (string * Json)) :
  Forall (fun kv => isText (fst kv) = true /\
                    forall rest, stops numberChar rest = true ->
                      read1 (JSON_stringify (snd kv) ++ rest) = Some (snd kv, rest)) ms ->
  ms <> [] ->
  forall (fuel : nat) (rest : string),
    (List.length ms <= fuel)%nat ->
    readMembers read1 fuel
      (join "," (map (fun kv => quote (fst kv) ++ ":" ++ JSON_stringify (snd kv)) ms)
       ++ "}" ++ rest) = Some (ms, rest).
Proof.
  induction ms as [| [k x] ms IH]; intros HF Hne fuel rest Hfuel; [contradiction |].
  destruct fuel as [| fuel]; [cbn in Hfuel; lia |].
  inversion HF as [| ? ? [Hk Hx] Hl]; subst. cbn [fst snd] in Hk, Hx.
  destruct ms as [| m' ms'].
  - cbn [map join String.concat fst snd]. rewrite member_text. cbn [readMembers].
    change (Ascii.eqb dquote dquote) with true. cbv iota.
    rewrite (readString_quote k _ Hk). change (Ascii.eqb ":" ":") with true. cbv iota.
    rewrite (Hx ("}" ++ rest) eq_refl). reflexivity.
  - cbn [map]. rewrite join_cons. cbn [fst snd].
    rewrite append_assoc, member_text. cbn [readMembers].
    change (Ascii.eqb dquote dquote) with true. cbv iota.
    rewrite (readString_quote k _ Hk). change (Ascii.eqb ":" ":") with true. cbv iota.
    rewrite append_assoc.
    rewrite (Hx ("," ++ _) eq_refl).
    cbn [append]. change (Ascii.eqb "," ",") with true. cbv iota.
    pose proof (IH Hl ltac:(discriminate) fuel rest ltac:(cbn [List.length] in *; lia))
      as Hrec.
    cbn [map append] in Hrec. rewrite Hrec. reflexivity.
Qed.

(** Reading the text of a value gives the value back, with fuel for its
    text, up to a character that no number has. *)
Lemma readValue_stringify (fuel : nat) :
  forall (v : Json) (rest : string),
    (String.length (JSON_stringify v) <= fuel)%nat ->
    legible v = true -> stops numberChar rest = true ->
    readValue fuel (JSON_stringify v ++ rest) = Some (v, rest).
Proof.
  induction fuel as [| fuel IH]; intros v rest Hlen Hv Hstop.
  - destruct (stringify_head v Hv) as (c & t & E & _). rewrite E in Hlen. cbn in Hlen. lia.
  - destruct v as [| [] | n | s | l | ms].
    + reflexivity.
    + reflexivity.
    + reflexivity.
    + cbn [legible] in Hv. cbn [JSON_stringify]. rewrite (legibleNumber_finite n Hv).
      destruct (number_head n Hv) as (c & t & E & Hc).
      pose proof (readNumber_legible n rest Hv Hstop) as Hread.
      rewrite E in Hread |- *. cbn [append] in Hread |- *. rewrite readValue_step.
      destruct (numberChar_head c Hc) as (H1 & H2 & H3 & H4 & H5 & H6 & _).
      rewrite H1, H2, H3, H4, H5, H6, Hread. reflexivity.
    + cbn [legible] in Hv. cbn [JSON_stringify]. unfold quote, char. cbn [append].
      rewrite append_assoc. cbn [append]. rewrite readValue_step.
      change (Ascii.eqb dquote "n") with false. change (Ascii.eqb dquote "t") with false.
      change (Ascii.eqb dquote "f") with false. change (Ascii.eqb dquote dquote) with true.
      cbv iota. rewrite (readString_quote s rest Hv). reflexivity.
    + destruct l as [| e l']; [reflexivity |].
      pose proof (legible_elements _ Hv) as Hall.
      cbn [JSON_stringify] in Hlen |- *.
      set (J := join "," (map JSON_stringify (e :: l'))) in *.
      change ("[" ++ J ++ "]") with (String "[" (J ++ "]")) in *.
      cbn [append String.length] in Hlen |- *. rewrite length_append in Hlen.
      cbn [String.length] in Hlen.
      rewrite append_assoc. rewrite readValue_step.
      change (Ascii.eqb "[" "n") with false. change (Ascii.eqb "[" "t") with false.
      change (Ascii.eqb "[" "f") with false. change (Ascii.eqb "[" dquote) with false.
      change (Ascii.eqb "[" "[") with true. cbv iota.
      assert (He : legible e = true) by (inversion Hall; assumption).
      destruct (stringify_head e He) as (c & t & E & Hc).
      assert (HR : exists t', J ++ "]" ++ rest = String c t').
      { unfold J.
        destruct l'; cbn [map]; [cbn [join String.concat] | rewrite join_cons]; rewrite E;
          cbn [append]; eexists; reflexivity. }
      assert (Hread : readElements (readValue fuel) (String.length (J ++ "]" ++ rest))
                        (J ++ "]" ++ rest) = Some (e :: l', rest)).
      { apply readElements_join; [| discriminate |].
        - apply Forall_forall. intros x Hin rest' Hstop'. apply IH; [| | exact Hstop'].
          + pose proof (join_member_length "," (JSON_stringify x)
                          (map JSON_stringify (e :: l')) (in_map _ _ _ Hin)) as Hx.
            fold J in Hx. lia.
          + exact (proj1 (Forall_forall _ _) Hall x Hin).
        - pose proof (join_length (map JSON_stringify (e :: l'))) as Hj. fold J in Hj.
          rewrite length_map in Hj. rewrite !length_append. cbn [String.length]. lia. }
      destruct HR as (t' & ER). rewrite ER in Hread |- *. rewrite Hc, Hread. reflexivity.
    + destruct ms as [| [k x] ms']; [reflexivity |].
      pose proof (legible_members _ Hv) as Hall.
      cbn [JSON_stringify] in Hlen |- *.
      set (J := join "," (map (fun kv => quote (fst kv) ++ ":" ++ JSON_stringify (snd kv))
                            ((k, x) :: ms'))) in *.
      change ("{" ++ J ++ "}") with (String "{" (J ++ "}")) in *.
      cbn [append String.length] in Hlen |- *. rewrite length_append in Hlen.
      cbn [String.length] in Hlen.
      rewrite append_assoc. rewrite readValue_step.
      change (Ascii.eqb "{" "n") with false. change (Ascii.eqb "{" "t") with false.
      change (Ascii.eqb "{" "f") with false. change (Ascii.eqb "{" dquote) with false.
      change (Ascii.eqb "{" "[") with false. change (Ascii.eqb "{" "{") with true. cbv iota.
      assert (HR : exists t', J ++ "}" ++ rest = String dquote t').
      { unfold J.
        destruct ms'; cbn [map fst snd]; [cbn [join String.concat] | rewrite join_cons];
          unfold quote; cbn [append]; eexists; reflexivity. }
      assert (Hread : readMembers (readValue fuel) (String.length (J ++ "}" ++ rest))
                        (J ++ "}" ++ rest) = Some ((k, x) :: ms', rest)).
      { apply readMembers_join; [| discriminate |].
        - apply Forall_forall. intros kv Hin.
          destruct (proj1 (Forall_forall _ _) Hall kv Hin) as [Hkey Hvalue].
          split; [exact Hkey |]. intros rest' Hstop'. apply IH; [| exact Hvalue | exact Hstop'].
          pose proof (join_member_length ","
                        (quote (fst kv) ++ ":" ++ JSON_stringify (snd kv))
                        (map (fun kv => quote (fst kv) ++ ":" ++ JSON_stringify (snd kv))
                           ((k, x) :: ms'))
                        (in_map (fun kv => quote (fst kv) ++ ":" ++ JSON_stringify (snd kv))
                           _ _ Hin)) as Hx.
          fold J in Hx. rewrite !length_append in Hx. lia.
        - pose proof (join_length (map (fun kv => quote (fst kv) ++ ":" ++ JSON_stringify (snd kv))
                                     ((k, x) :: ms'))) as Hj.
          fold J in Hj. rewrite length_map in Hj. rewrite !length_append.
          cbn [String.length]. lia. }
      destruct HR as (t' & ER). rewrite ER in Hread |- *.
      change (Ascii.eqb dquote "}") with false. cbv iota. rewrite Hread. reflexivity.
Qed.

(** Reading the text of a value whose numbers are finite gives the value
    back. *)
Lemma read_stringify (v : Json) : legible v = true -> read (JSON_stringify v) = Some v.
Proof.
  intros Hv. unfold read.
  pose proof (readValue_stringify (String.length (JSON_stringify v)) v EmptyString
                (le_n _) Hv eq_refl) as H.
  rewrite append_empty in H. rewrite H. reflexivity.
Qed.

End ValueFacts.

(* ------------------------------------------------------------------ *)
(** ** C6: the serialization of a filter *)
(* ------------------------------------------------------------------ *)

Section FilterFacts.
Import JS Entities Client Spec Notions Filter Reader.

Lemma includes_inside (a needle b : string) : includes (a ++ needle ++ b) needle = true.
Proof. apply includes_app_r, includes_app_l, includes_refl. Qed.

Lemma join_decompose (sep x : string) (l : list string) :
  In x l -> exists a b, join sep l = a ++ x ++ b.
Proof.
  induction l as [| y [| z l] IH]; intros Hin; [contradiction | |].
  - destruct Hin as [-> | []]. exists EmptyString, EmptyString.
    cbn [join String.concat append]. symmetry. apply append_empty.
  - rewrite join_cons. destruct Hin as [-> | Hin].
    + exists EmptyString, (sep ++ join sep (z :: l)). reflexivity.
    + destruct (IH Hin) as (a & b & E). rewrite E.
      exists (y ++ sep ++ a), b. rewrite !append_assoc. reflexivity.
Qed.

(** The text of an object holds the text of each member. *)
Lemma member_inside (members : list (string * Json)) (k : string) (v : Json) :
  In (k, v) members ->
  exists a b, JSON_stringify (JObject members) = a ++ (quote k ++ ":" ++ JSON_stringify v) ++ b.
Proof.
  intros Hin. cbn [JSON_stringify].
  destruct (join_decompose "," _ _
              (in_map (fun kv => quote (fst kv) ++ ":" ++ JSON_stringify (snd kv)) _ _ Hin))
    as (a & b & E).
  rewrite E. cbn [fst snd]. exists ("{" ++ a), (b ++ "}").
  rewrite !append_assoc. reflexivity.
Qed.

(** The text of an array holds the text of each element. *)
Lemma element_inside (elements : list Json) (e : Json) :
  In e elements ->
  exists a b, JSON_stringify (JArray elements) = a ++ JSON_stringify e ++ b.
Proof.
  intros Hin. cbn [JSON_stringify].
  destruct (join_decompose "," _ _ (in_map JSON_stringify _ _ Hin)) as (a & b & E).
  rewrite E. exists ("[" ++ a), (b ++ "]"). rewrite !append_assoc. reflexivity.
Qed.

Lemma operandsIn_cons (k : string) (v : Json) (members : list (string * Json)) :
  operandsIn ((k, v) :: members) =
  ((if String.eqb k "operands" then match v with JArray ops => ops | _ => [] end else [])
   ++ operandsIn members)%list.
Proof. reflexivity. Qed.

Lemma operandsIn_spec (members : list (string * Json)) (o : Json) :
  In o (operandsIn members) ->
  exists ops, In ("operands", JArray ops) members /\ In o ops.
Proof.
  induction members as [| [k v] members IH]; cbn [operandsIn]; intros Hin; [contradiction |].
  apply in_app_or in Hin as [Hin | Hin].
  - destruct (String.eqb_spec k "operands") as [-> | _]; [| contradiction].
    destruct v as [| | | | ops |]; try contradiction.
    exists ops. split; [left; reflexivity | exact Hin].
  - destruct (IH Hin) as (ops & Hm & Ho). exists ops. split; [right; exact Hm | exact Ho].
Qed.

(** The text of a node holds the text of each operand. *)
Lemma operand_inside (members : list (string * Json)) (o : Json) :
  In o (operandsIn members) ->
  includes (JSON_stringify (JObject members)) (JSON_stringify o) = true.
Proof.
  intros Hin. destruct (operandsIn_spec members o Hin) as (ops & Hm & Ho).
  destruct (member_inside members _ _ Hm) as (a & b & E).
  destruct (element_inside ops o Ho) as (a' & b' & E').
  rewrite E, E'.
  replace (a ++ (quote "operands" ++ ":" ++ a' ++ JSON_stringify o ++ b') ++ b)
    with ((a ++ quote "operands" ++ ":" ++ a') ++ JSON_stringify o ++ (b' ++ b))
    by (rewrite !append_assoc; reflexivity).
  apply includes_inside.
Qed.

(** The invariant at a node, with the operands as a list. *)
Lemma holdsInvariant_node (members : list (string * Json)) :
  holdsInvariant (JObject members) =
  if isCombinator (JObject members)
  then (negb (isEmpty (operandsIn members)) && isEmpty (populated (JObject members))
        && forallb holdsInvariant (operandsIn members))%bool
  else Nat.eqb (List.length (populated (JObject members))) 1.
Proof.
  assert (Hall : forall ops,
             (fix all (l : list Json) : bool :=
                match l with
                | [] => true
                | o :: r => (holdsInvariant o && all r)%bool
                end) ops = forallb holdsInvariant ops).
  { induction ops as [| o ops IH]; [reflexivity |]. cbn [forallb]. rewrite <- IH. reflexivity. }
  assert (Heach : forall ms,
             (fix each (ms : list (string * Json)) : bool :=
                match ms with
                | [] => true
                | (k, v) :: rest =>
                    ((if String.eqb k "operands" then
                        match v with
                        | JArray ops =>
                            (fix all (l : list Json) : bool :=
                               match l with
                               | [] => true
                               | o :: r => (holdsInvariant o && all r)%bool
                               end) ops
                        | _ => true
                        end
                      else true)
                     && each rest)%bool
                end) ms = forallb holdsInvariant (operandsIn ms)).
  { induction ms as [| [k v] ms IH]; [reflexivity |].
    rewrite operandsIn_cons, forallb_app. f_equal; [| exact IH].
    destruct (String.eqb k "operands"); [| reflexivity].
    destruct v; reflexivity. }
  rewrite <- Heach. reflexivity.
Qed.

(** The operands of a value of the interface are values of the
    interface. *)
Lemma isWhereFilter_operands (members : list (string * Json)) :
  isWhereFilter (JObject members) = true ->
  forallb isWhereFilter (operandsIn members) = true.
Proof.
  assert (Hall : forall ops,
             (fix all (l : list Json) : bool :=
                match l with
                | [] => true
                | o :: r => (isWhereFilter o && all r)%bool
                end) ops = forallb isWhereFilter ops).
  { induction ops as [| o ops IH]; [reflexivity |]. cbn [forallb]. rewrite <- IH. reflexivity. }
  assert (Heach : forall ms,
             (fix each (ms : list (string * Json)) : bool :=
                match ms with
                | [] => true
                | (k, v) :: rest =>
                    ((if String.eqb k "operator" then
                        match v with
                        | JString s => existsb (String.eqb s) operators
                        | _ => false
                        end
                      else if String.eqb k "operands" then
                        match v with
                        | JArray ops =>
                            (fix all (l : list Json) : bool :=
                               match l with
                               | [] => true
                               | o :: r => (isWhereFilter o && all r)%bool
                               end) ops
                        | _ => false
                        end
                      else if String.eqb k "path" then isArrayOf isString v
                      else match valueType k with
                           | Some type => type v
                           | None => false
                           end)
                     && each rest)%bool
                end) ms = true -> forallb isWhereFilter (operandsIn ms) = true).
  { induction ms as [| [k v] ms IH]; [reflexivity |]. intros H.
    apply andb_true_iff in H as [Hhere Hrest].
    rewrite operandsIn_cons, forallb_app, (IH Hrest), andb_true_r.
    destruct (String.eqb_spec k "operator") as [-> | _]; [reflexivity |].
    destruct (String.eqb k "operands"); [| reflexivity].
    destruct v; try reflexivity. rewrite <- Hall. exact Hhere. }
  intros H.
  change (isWhereFilter (JObject members))
    with (distinct (map fst members)
          && existsb (fun kv => String.eqb (fst kv) "operator") members
          && (fix each (ms : list (string * Json)) : bool :=
                match ms with
                | [] => true
                | (k, v) :: rest =>
                    ((if String.eqb k "operator" then
                        match v with
                        | JString s => existsb (String.eqb s) operators
                        | _ => false
                        end
                      else if String.eqb k "operands" then
                        match v with
                        | JArray ops =>
                            (fix all (l : list Json) : bool :=
                               match l with
                               | [] => true
                               | o :: r => (isWhereFilter o && all r)%bool
                               end) ops
                        | _ => false
                        end
                      else if String.eqb k "path" then isArrayOf isString v
                      else match valueType k with
                           | Some type => type v
                           | None => false
                           end)
                     && each rest)%bool
                end) members)%bool in H.
  apply andb_true_iff in H as [_ H]. exact (Heach members H).
Qed.

(** The operands of a value that can be read back can be read back. *)
Lemma legible_operands (members : list (string * Json)) :
  legible (JObject members) = true ->
  Forall (fun o => legible o = true) (operandsIn members).
Proof.
  intros H. apply Forall_forall. intros o Hin.
  destruct (operandsIn_spec members o Hin) as (ops & Hm & Ho).
  pose proof (proj1 (Forall_forall _ _) (legible_members _ H) _ Hm) as [_ Hops].
  exact (proj1 (Forall_forall _ _) (legible_elements _ Hops) o Ho).
Qed.

(** The where clause of the query document is the text of the filter. *)
Lemma where_clause_embedded (w : WhereFilter) (className searchClause : string)
    (limit : option Z) (fields : option (list string)) (tenant : option string) :
  truthy w = true ->
  includes
    (buildGraphQLGetQuery className searchClause
       (Some {| so_limit := limit; so_fields := fields; so_where := Some w;
                so_tenant := tenant |}))
    (", where: " ++ filterText w) = true.
Proof.
  intros Htruthy. rewrite query_shape. unfold whereClauseOf. cbn [so_where]. rewrite Htruthy.
  unfold filterText.
  repeat (apply includes_app_r; try (apply includes_app_l; apply includes_refl)).
Qed.

End FilterFacts.

Section FilterClaim.
Import JS Entities Client Spec Notions Filter Reader.

(** C6 (as amended).  For every filter node that satisfies the invariant of
    the data model, with the text [JSON.stringify] gives for it, which
    [buildGraphQLGetQuery] embeds after [, where: ] in the query document:
    reading the text gives the node back, value for value, provided the
    node holds no NaN and no infinity; a combinator populates no value
    property, has operands, and its text holds the text of every operand,
    each of them a node of the same kind; a leaf populates exactly one
    value property, whose member, the name and the text of the value, is in
    its text, and reading that text gives the value back, with the same
    proviso. *)
Theorem filter_serialization :
  forall w : WhereFilter,
    isWhereFilter w = true ->
    holdsInvariant w = true ->
    (legible w = true -> read (filterText w) = Some w) /\
    (if isCombinator w then
       populated w = [] /\ operandsOf w <> [] /\
       Forall (fun o => isWhereFilter o = true /\ holdsInvariant o = true /\
                        includes (filterText w) (filterText o) = true /\
                        (legible w = true -> legible o = true))
              (operandsOf w)
     else
       exists k v,
         populated w = [(k, v)] /\
         includes (filterText w) (quote k ++ ":" ++ JSON_stringify v) = true /\
         (legible w = true -> read (JSON_stringify v) = Some v)) /\
    (forall className searchClause limit fields tenant,
       includes
         (buildGraphQLGetQuery className searchClause
            (Some {| so_limit := limit; so_fields := fields;
                     so_where := Some w; so_tenant := tenant |}))
         (", where: " ++ filterText w) = true).
Proof.
  intros w Hw Hinv.
  destruct w as [| | | | | members]; try discriminate Hw.
  split; [intros Hleg; apply read_stringify; exact Hleg |].
  split; [| intros; apply where_clause_embedded; reflexivity].
  rewrite holdsInvariant_node in Hinv. cbn [operandsOf].
  destruct (isCombinator (JObject members)).
  - apply andb_true_iff in Hinv as [Hinv Hoperands].
    apply andb_true_iff in Hinv as [Hsome Hnone].
    split; [destruct (populated (JObject members)); [reflexivity | discriminate Hnone] |].
    split; [destruct (operandsIn members); [discriminate Hsome | discriminate] |].
    apply Forall_forall. intros o Hin.
    split; [exact (proj1 (forallb_forall _ _) (isWhereFilter_operands members Hw) o Hin) |].
    split; [exact (proj1 (forallb_forall _ _) Hoperands o Hin) |].
    split; [exact (operand_inside members o Hin) |].
    intros Hleg. exact (proj1 (Forall_forall _ _) (legible_operands members Hleg) o Hin).
  - destruct (populated (JObject members)) as [| [k v] [| other rest]] eqn:Hp;
      try discriminate Hinv.
    exists k, v. split; [reflexivity |].
    assert (Hin : In (k, v) members).
    { assert (H : In (k, v) (populated (JObject members))) by (rewrite Hp; left; reflexivity).
      cbn [populated] in H. apply filter_In in H as [H _]. exact H. }
    split.
    + destruct (member_inside members k v Hin) as (a & b & E).
      unfold filterText. rewrite E. apply includes_inside.
    + intros Hleg. apply read_stringify.
      exact (proj2 (proj1 (Forall_forall _ _) (legible_members _ Hleg) _ Hin)).
Qed.

End FilterClaim.

Lemma filter_serialization_witness :
  Entities.isWhereFilter Filter.exampleFilter = true /\
  Filter.holdsInvariant Filter.exampleFilter = true /\
  Reader.legible Filter.exampleFilter = true /\
  Reader.read (Filter.filterText Filter.exampleFilter) = Some Filter.exampleFilter /\
  Filter.populated Filter.exampleFilter = [] /\
  Spec.includes
    (Client.buildGraphQLGetQuery "Article" EmptyString
       (Some (Entities.mkSearchOptions None None (Some Filter.exampleFilter) None)))
    (", where: " ++ Filter.filterText Filter.exampleFilter) = true.
Proof.
  pose proof (filter_serialization Filter.exampleFilter eq_refl eq_refl)
    as [Hread [Hnode Hquery]].
  split; [reflexivity |]. split; [reflexivity |]. split; [reflexivity |].
  split; [exact (Hread eq_refl) |].
  split; [exact (proj1 Hnode) |].
  exact (Hquery "Article" EmptyString None None None).
Defined.

(** C6 as the specification words it does not hold: a leaf whose number is
    an infinity satisfies the invariant, and its text has null for the
    number, so the text does not give the value back. *)
Lemma infinity_is_written_null :
  Entities.isWhereFilter Filter.unboundedFilter = true /\
  Filter.holdsInvariant Filter.unboundedFilter = true /\
  Reader.read (Filter.filterText Filter.unboundedFilter) =
    Some (JS.JObject [ ("operator", JS.JString "LessThan");
                       ("path", Entities.strings ["price"]);
                       ("valueNumber", JS.JNull) ]) /\
  ~ Reader.value_preservation_as_stated.
Proof.
  split; [reflexivity |]. split; [reflexivity |]. split; [reflexivity |].
  intros H. specialize (H Filter.unboundedFilter eq_refl eq_refl). discriminate H.
Qed.

(* ------------------------------------------------------------------ *)
(** ** Pagination parameters and the walk over the pages *)
(* ------------------------------------------------------------------ *)

Section NormalizeFacts.
Import JS Normalize Notions.

(** X1: normalizePaginationParams never gives a limit above the cap (the
    second argument, or 100); a caller's limit that is not zero and within
    the cap is kept; without parameters, without a limit or with the limit
    zero the limit is the smaller of 20 and the cap; and normalizing the
    result again changes nothing. *)
Theorem normalize_caps_and_is_idempotent :
  forall (params : option PaginationParams) (maxLimit : option Z),
    let cap := match maxLimit with Some m => m | None => 100 end in
    let n := normalizePaginationParams params maxLimit in
    n_limit n <= cap /\
    (forall p l, params = Some p -> limit p = Some l -> l <> 0 -> l <= cap ->
                 n_limit n = l) /\
    ((params = None \/ (exists p, params = Some p /\ (limit p = None \/ limit p = Some 0))) ->
     n_limit n = Z.min 20 cap) /\
    normalizePaginationParams (again n) maxLimit = n.
Proof.
  intros params maxLimit cap n. subst n cap.
  unfold normalizePaginationParams, again, PAGINATION_DEFAULTS_limit,
    PAGINATION_DEFAULTS_maxLimit, Z_or.
  cbn [n_limit n_cursor n_offset limit offset cursor].
  set (cap := match maxLimit with Some m => m | None => 100 end).
  split; [apply Z.le_min_r | split; [| split]].
  - intros p l -> Hl Hnz Hcap. rewrite Hl.
    destruct (Z.eqb_spec l 0); [contradiction | lia].
  - intros [-> | [p [-> [-> | ->]]]]; reflexivity.
  - f_equal.
    set (l := match match params with Some p => limit p | None => None end with
              | Some z => if z =? 0 then 20 else z
              | None => 20
              end).
    assert (Hl : l <> 0).
    { subst l. destruct params as [[[l |] o c] |]; cbn; try discriminate.
      destruct (Z.eqb_spec l 0); [discriminate | assumption]. }
    destruct (Z.eqb_spec (Z.min l cap) 0) as [H0 | H0]; lia.
Qed.

End NormalizeFacts.

Lemma normalize_caps_and_is_idempotent_witness :
  let p := Normalize.mkPaginationParams (Some 50) (Some 40) None in
  50 <> 0 /\ 50 <= 100 /\
  Normalize.n_limit (Normalize.normalizePaginationParams (Some p) None) = 50.
Proof.
  assert (Hnz : 50 <> 0) by discriminate.
  assert (Hcap : 50 <= 100) by (intros H; discriminate H).
  split; [exact Hnz | split; [exact Hcap |]].
  exact (proj1 (proj2 (normalize_caps_and_is_idempotent
                         (Some (Normalize.mkPaginationParams (Some 50) (Some 40) None)) None))
           _ 50 eq_refl eq_refl Hnz Hcap).
Defined.

Section WalkFacts.
Import JS Pagination Normalize Notions.

Lemma next_page_iff (limit total k : Z) :
  0 < limit -> 0 <= total -> 0 <= k ->
  ((k + 1) * limit < total <-> k + 1 < pageCount limit total).
Proof.
  intros Hl Ht Hk. unfold pageCount.
  pose proof (Z.mul_div_le (total + limit - 1) limit Hl).
  pose proof (Z.mul_succ_div_gt (total + limit - 1) limit Hl).
  set (c := (total + limit - 1) / limit) in *.
  split; intros H1; nia.
Qed.

(** Below a total of at most 2^53, the next offset is the exact sum, and it
    is there exactly when the sum is below the total. *)
Lemma getNextOffset_exact (offset limit total : Z) :
  0 <= offset -> 0 < limit -> 0 <= total <= safe ->
  getNextOffset add ltb (Integer offset) (Integer limit) (Integer total) =
  if offset + limit <? total then Some (Integer (offset + limit)) else None.
Proof.
  intros Ho Hl Ht. unfold getNextOffset. cbn [add].
  rewrite ltb_toNumber by lia.
  destruct (Z.ltb_spec (offset + limit) total) as [Hlt | Hge]; [| reflexivity].
  rewrite toNumber_safe by lia. reflexivity.
Qed.

Lemma offsetsFrom_pages (limit total : Z) :
  0 < limit -> 0 <= total <= safe ->
  forall (fuel : nat) (k : Z),
    0 <= k < pageCount limit total ->
    (Z.to_nat (pageCount limit total - 1 - k) <= fuel)%nat ->
    offsetsFrom fuel (Integer (k * limit)) (Integer limit) (Integer total) =
    map (fun i => Integer (Z.of_nat i * limit))
        (seq (Z.to_nat k) (Z.to_nat (pageCount limit total - k))).
Proof.
  intros Hl Ht fuel. induction fuel as [| fuel IH]; intros k Hk Hfuel.
  - assert (Hlast : pageCount limit total - k = 1) by lia.
    rewrite Hlast. simpl. rewrite Z2Nat.id by lia. reflexivity.
  - replace (Z.to_nat (pageCount limit total - k))
      with (S (Z.to_nat (pageCount limit total - (k + 1)))) by lia.
    cbn [offsetsFrom seq map]. rewrite Z2Nat.id by lia. f_equal.
    rewrite getNextOffset_exact by nia.
    destruct (Z.ltb_spec (k * limit + limit) total) as [Hlt | Hge].
    + assert (Hnext : k + 1 < pageCount limit total).
      { apply next_page_iff; lia. }
      replace (k * limit + limit) with ((k + 1) * limit) by lia.
      rewrite IH by lia.
      replace (S (Z.to_nat k)) with (Z.to_nat (k + 1)) by lia. reflexivity.
    + assert (Hnext : ~ k + 1 < pageCount limit total).
      { intros H. apply next_page_iff in H; lia. }
      replace (Z.to_nat (pageCount limit total - (k + 1))) with O by lia.
      reflexivity.
Qed.

(** X2: with the numbers of JavaScript, for a positive limit and a total of
    at most 2^53, a caller who starts at offset 0 and follows getNextOffset
    until it is undefined visits the offsets 0, limit, 2 limit, ... of the
    pages of the total, each once and in order, and then stops: at the last
    of them getNextOffset is undefined and hasMoreItems is false.  The walk
    needs no more steps than there are items.  Beyond 2^53 a sum is rounded:
    at offset 2^53 with limit 1 and total 2^53 + 2 the next offset is 2^53
    again. *)
Theorem following_next_offset_visits_every_page :
  forall (limit total : Z) (fuel : nat),
    0 < limit -> 0 <= total <= safe -> (Z.to_nat total <= fuel)%nat ->
    offsetsFrom fuel (Integer 0) (Integer limit) (Integer total) =
      map (fun i => Integer (Z.of_nat i * limit))
          (seq 0 (Z.to_nat (pageCount limit total))) /\
    getNextOffset add ltb (Integer ((pageCount limit total - 1) * limit))
      (Integer limit) (Integer total) = None /\
    hasMoreItems add ltb (Integer ((pageCount limit total - 1) * limit))
      (Integer limit) (Integer total) = false /\
    getNextOffset add ltb (Integer safe) (Integer 1) (Integer (safe + 2)) =
      Some (Integer safe).
Proof.
  intros limit total fuel Hl Ht Hfuel.
  assert (Hpages : 1 <= pageCount limit total <= Z.max 1 total).
  { unfold pageCount.
    pose proof (Z.mul_div_le (total + limit - 1) limit Hl).
    set (c := (total + limit - 1) / limit) in *. nia. }
  assert (Hlast : ((pageCount limit total - 1) * limit + limit <? total) = false).
  { apply Z.ltb_ge.
    destruct (Z.lt_ge_cases ((pageCount limit total - 1) * limit + limit) total)
      as [Hlt | Hge]; [| lia].
    assert (H : pageCount limit total - 1 + 1 < pageCount limit total).
    { apply next_page_iff; lia. }
    lia. }
  assert (Hnone : getNextOffset add ltb (Integer ((pageCount limit total - 1) * limit))
                    (Integer limit) (Integer total) = None).
  { rewrite getNextOffset_exact by nia. now rewrite Hlast. }
  split; [| split; [| split]].
  - pose proof (offsetsFrom_pages limit total Hl Ht fuel 0) as H.
    rewrite !Z.sub_0_r, Z.mul_0_l in H. apply H; lia.
  - exact Hnone.
  - unfold getNextOffset in Hnone. unfold hasMoreItems.
    destruct (ltb (add (Integer ((pageCount limit total - 1) * limit)) (Integer limit))
                  (Integer total)); [discriminate Hnone | reflexivity].
  - vm_compute. reflexivity.
Qed.

End WalkFacts.

Lemma following_next_offset_visits_every_page_witness :
  0 < 20 /\ 0 <= 45 <= JS.safe /\ (Z.to_nat 45 <= 45)%nat /\
  Notions.offsetsFrom 45 (JS.Integer 0) (JS.Integer 20) (JS.Integer 45) =
    [JS.Integer 0; JS.Integer 20; JS.Integer 40].
Proof.
  assert (Hl : 0 < 20) by reflexivity.
  assert (Ht : 0 <= 45 <= JS.safe) by (split; intros H; discriminate H).
  assert (Hfuel : (Z.to_nat 45 <= 45)%nat) by (vm_compute; apply le_n).
  split; [exact Hl | split; [exact Ht | split; [exact Hfuel |]]].
  exact (proj1 (following_next_offset_visits_every_page 20 45 45%nat Hl Ht Hfuel)).
Defined.

(* ------------------------------------------------------------------ *)
(** ** What a request resolves to, and what it throws *)
(* ------------------------------------------------------------------ *)

Section PipelineFacts.
Import JS Errors Entities Async Client Spec.

Variable JSON_parse : string -> Json + Exn.

(** X3: request resolves only on a response with a 2xx status.  It resolves
    to undefined exactly on a 204 or an empty body, and otherwise to what
    JSON.parse makes of the body. *)
Theorem request_returns_only_when_ok :
  forall (this : WeaviateClientImpl) endpoint options response v,
    baseUrl this <> EmptyString ->
    fst (run (answering response) (request JSON_parse this endpoint options)) = Returns v ->
    ok response = true /\
    match v with
    | None => status response = 204 \/ text response = EmptyString
    | Some j =>
        status response <> 204 /\ text response <> EmptyString /\
        JSON_parse (text response) = inl j
    end.
Proof.
  intros this endpoint options response v Hurl.
  rewrite (run_request_answered JSON_parse this endpoint options response Hurl).
  cbv zeta. cbn [fst].
  destruct (Z.eqb_spec (status response) 429); [discriminate |].
  destruct (_ || _)%bool; [discriminate |].
  destruct (Z.eqb_spec (status response) 404); [discriminate |].
  destruct (ok response);
    [| cbn [negb]; destruct (ToString (errorMessage JSON_parse response)); discriminate].
  cbn [negb].
  destruct (Z.eqb_spec (status response) 204) as [H204 | H204].
  - intros H. injection H as <-. split; [reflexivity | now left].
  - destruct (text response) as [| c body] eqn:Htext; cbn [truthy_string negb].
    + intros H. injection H as <-. split; [reflexivity | now right].
    + destruct (JSON_parse (String c body)) as [j | e] eqn:Hparse; [| discriminate].
      intros H. injection H as <-.
      split; [reflexivity | split; [assumption | split; [discriminate | reflexivity]]].
Qed.

(** X4: on a response whose status is not 2xx, request throws one of the
    typed errors whenever the status is 429, 401, 403 or 404, and for any
    other status whenever the message selected from the body has a text.
    The statusCode of the error is the status of the response, but 401 for
    a 403; its code is the one of the branch the status selects; and
    isRetryableError holds of it exactly for a 429.  For any other status,
    when the selected message is an object without a primitive value, the
    constructor of the error throws the TypeError instead.  A body that
    JSON.parse rejects always gives a message with a text. *)
Theorem failed_response_throws_typed_error :
  forall (this : WeaviateClientImpl) endpoint options response,
    baseUrl this <> EmptyString ->
    ok response = false ->
    let classified :=
      ((status response =? 429) || (status response =? 401)
       || (status response =? 403) || (status response =? 404))%bool in
    (classified = true \/ ToString (errorMessage JSON_parse response) <> None ->
     exists e,
       fst (run (answering response) (request JSON_parse this endpoint options)) =
         Throws (Typed e) /\
       statusCode e = Some (if status response =? 403 then 401 else status response) /\
       code e = (if status response =? 429 then "RATE_LIMIT_EXCEEDED"
                 else if ((status response =? 401) || (status response =? 403))%bool
                      then "AUTHENTICATION_FAILED"
                 else if status response =? 404 then "NOT_FOUND"
                 else "WEAVIATE_ERROR") /\
       Retry.isRetryableError (Typed e) = (status response =? 429)) /\
    (classified = false ->
     ToString (errorMessage JSON_parse response) = None ->
     fst (run (answering response) (request JSON_parse this endpoint options)) =
       Throws TypeError_primitive) /\
    (forall e, JSON_parse (text response) = inr e ->
               ToString (errorMessage JSON_parse response) <> None).
Proof.
  intros this endpoint options response Hurl Hok classified. subst classified.
  rewrite (run_request_answered JSON_parse this endpoint options response Hurl).
  cbv zeta. cbn [fst]. rewrite Hok. cbn [negb].
  split; [| split].
  - intros Hcase.
    destruct (Z.eqb_spec (status response) 429) as [H429 | H429].
    { eexists. split; [reflexivity |]. rewrite H429. repeat split. }
    destruct (Z.eqb_spec (status response) 401) as [H401 | H401].
    { eexists. split; [reflexivity |]. rewrite H401. repeat split. }
    destruct (Z.eqb_spec (status response) 403) as [H403 | H403].
    { eexists. split; [reflexivity |]. repeat split. }
    cbn [orb].
    destruct (Z.eqb_spec (status response) 404) as [H404 | H404].
    { eexists. split; [reflexivity |]. rewrite H404. repeat split. }
    cbn [orb] in Hcase.
    destruct (ToString (errorMessage JSON_parse response)) as [message |].
    + eexists. split; [reflexivity |]. repeat split.
    + destruct Hcase as [Hcase | Hcase]; [discriminate Hcase | now elim Hcase].
  - intros Hclass Hnone.
    destruct (status response =? 429); [discriminate Hclass |].
    destruct (status response =? 401); [discriminate Hclass |].
    destruct (status response =? 403); [discriminate Hclass |].
    destruct (status response =? 404); [discriminate Hclass |].
    cbn [orb]. rewrite Hnone. reflexivity.
  - intros e He. unfold errorMessage. rewrite He.
    destruct (truthy_string (text response)); discriminate.
Qed.

(** X5: a 429 whose Retry-After header is the decimal text of an integer
    gives a rate limit error that carries the number that integer becomes,
    whatever the body is: exactly that integer up to 2^53 in magnitude, and
    the nearest double beyond (9007199254740992 for 9007199254740993). *)
Theorem retry_after_integer_round_trip :
  forall (this : WeaviateClientImpl) endpoint options (seconds : Z) (body : string),
    baseUrl this <> EmptyString ->
    fst (run (answering {| status := 429;
                           responseHeaders := [("Retry-After", decimal seconds)];
                           text := body |})
           (request JSON_parse this endpoint options)) =
    Throws (Typed (RateLimitError "Rate limit exceeded" (toNumber seconds))) /\
    (Z.abs seconds <= safe -> toNumber seconds = Integer seconds) /\
    toNumber 9007199254740993 = Integer 9007199254740992.
Proof.
  intros this endpoint options seconds body Hurl.
  split; [| split; [apply toNumber_safe | vm_compute; reflexivity]].
  rewrite (run_request_answered JSON_parse this endpoint options _ Hurl).
  cbv zeta. cbn [fst status Z.eqb Pos.eqb].
  change (Headers_get "Retry-After"
            {| status := 429;
               responseHeaders := [("Retry-After", decimal seconds)];
               text := body |})
    with (Some (decimal seconds)).
  cbv beta iota.
  rewrite decimal_truthy, parseInt_decimal. reflexivity.
Qed.

End PipelineFacts.

Lemma request_returns_only_when_ok_witness :
  Client.baseUrl Spec.exampleClient <> EmptyString /\
  fst (Async.run (Spec.answering Spec.okBody)
         (Client.request (fun _ => inl (JS.JObject [])) Spec.exampleClient "/meta"
            Async.noInit)) = Async.Returns (Some (JS.JObject [])) /\
  Async.ok Spec.okBody = true.
Proof.
  assert (Hurl : Client.baseUrl Spec.exampleClient <> EmptyString) by discriminate.
  split; [exact Hurl | split; [reflexivity |]].
  exact (proj1 (request_returns_only_when_ok (fun _ => inl (JS.JObject []))
                  Spec.exampleClient "/meta" Async.noInit Spec.okBody
                  (Some (JS.JObject [])) Hurl eq_refl)).
Defined.

Lemma failed_response_throws_typed_error_witness :
  let parser := fun _ : string =>
    @inl JS.Json Errors.Exn
      (JS.JObject [("error", JS.JObject [("toString", JS.JNumber (JS.Int 1))])]) in
  let response := {| Async.status := 500; Async.responseHeaders := []; Async.text := "{}" |} in
  Client.baseUrl Spec.exampleClient <> EmptyString /\
  Async.ok (Spec.bare 403) = false /\
  Async.ok response = false /\
  (exists e,
     fst (Async.run (Spec.answering (Spec.bare 403))
            (Client.request Spec.rejectingParser Spec.exampleClient "/schema" Async.noInit)) =
       Async.Throws (Errors.Typed e) /\
     Errors.statusCode e = Some 401 /\
     Errors.code e = "AUTHENTICATION_FAILED" /\
     Retry.isRetryableError (Errors.Typed e) = false) /\
  fst (Async.run (Spec.answering response)
         (Client.request parser Spec.exampleClient "/schema" Async.noInit)) =
    Async.Throws Errors.TypeError_primitive.
Proof.
  assert (Hurl : Client.baseUrl Spec.exampleClient <> EmptyString) by discriminate.
  split; [exact Hurl | split; [reflexivity | split; [reflexivity | split]]].
  - exact (proj1 (failed_response_throws_typed_error Spec.rejectingParser Spec.exampleClient
                    "/schema" Async.noInit (Spec.bare 403) Hurl eq_refl)
             (or_introl eq_refl)).
  - exact (proj1 (proj2 (failed_response_throws_typed_error
                           (fun _ : string =>
                              @inl JS.Json Errors.Exn
                                (JS.JObject
                                   [("error",
                                     JS.JObject [("toString", JS.JNumber (JS.Int 1))])]))
                           Spec.exampleClient "/schema" Async.noInit
                           {| Async.status := 500; Async.responseHeaders := [];
                              Async.text := "{}" |} Hurl eq_refl))
             eq_refl eq_refl).
Defined.

Lemma retry_after_integer_round_trip_witness :
  Client.baseUrl Spec.exampleClient <> EmptyString /\
  fst (Async.run
         (Spec.answering {| Async.status := 429;
                            Async.responseHeaders := [("Retry-After", "120")];
                            Async.text := "slow down" |})
         (Client.request Spec.rejectingParser Spec.exampleClient "/objects" Async.noInit)) =
  Async.Throws (Errors.Typed (Errors.RateLimitError "Rate limit exceeded" (JS.Integer 120))).
Proof.
  assert (Hurl : Client.baseUrl Spec.exampleClient <> EmptyString) by discriminate.
  split; [exact Hurl |].
  exact (proj1 (retry_after_integer_round_trip Spec.rejectingParser Spec.exampleClient
                  "/objects" Async.noInit 120 "slow down" Hurl)).
Defined.

(* ------------------------------------------------------------------ *)
(** ** The headers and the calls of the operations *)
(* ------------------------------------------------------------------ *)

Section HeaderFacts.
Import JS Errors Entities Async Client Spec Notions.

Variable JSON_parse : string -> Json + Exn.

Lemma property_assign (k k' v : string) (o : list (string * string)) :
  property k (assign k' v o) = if String.eqb k' k then Some v else property k o.
Proof.
  induction o as [| [k0 v0] rest IH]; simpl.
  - reflexivity.
  - destruct (String.eqb_spec k0 k') as [-> | Hne]; simpl.
    + destruct (String.eqb k' k); reflexivity.
    + rewrite IH. destruct (String.eqb_spec k0 k) as [-> | Hne'].
      * destruct (String.eqb_spec k' k) as [-> | _]; [now elim Hne | reflexivity].
      * reflexivity.
Qed.

Lemma property_app (k : string) (a b : list (string * string)) :
  property k (a ++ b) =
  match property k a with Some v => Some v | None => property k b end.
Proof.
  induction a as [| [k0 v0] rest IH]; simpl; [reflexivity |].
  destruct (String.eqb k0 k); [reflexivity | exact IH].
Qed.

Lemma property_spread (k : string) (a b : list (string * string)) :
  property k (spread a b) =
  match property k (rev b) with Some v => Some v | None => property k a end.
Proof.
  unfold spread. revert a. induction b as [| [k1 v1] rest IH]; intros a; simpl.
  - reflexivity.
  - rewrite IH, property_app, property_assign. simpl.
    destruct (property k (rev rest)); [reflexivity |].
    destruct (String.eqb k1 k); reflexivity.
Qed.

(** The headers of a client, credential by credential. *)
Lemma getAuthHeaders_closed_form :
  forall this : WeaviateClientImpl,
    let c := credentials this in
    getAuthHeaders this =
    ("Content-Type", "application/json")
    :: credentialHeader "Authorization" (apiKey c) (fun k => "Bearer " ++ k)
    ++ credentialHeader "X-OpenAI-Api-Key" (openaiApiKey c) (fun k => k)
    ++ credentialHeader "X-Cohere-Api-Key" (cohereApiKey c) (fun k => k)
    ++ credentialHeader "X-HuggingFace-Api-Key" (huggingfaceApiKey c) (fun k => k)
    ++ credentialHeader "X-Anthropic-Api-Key" (anthropicApiKey c) (fun k => k)
    ++ credentialHeader "X-Azure-Api-Key" (azureApiKey c) (fun k => k).
Proof.
  intros [[url k1 k2 k3 k4 k5 k6] base]. unfold getAuthHeaders. cbn [credentials].
  cbn [apiKey openaiApiKey cohereApiKey huggingfaceApiKey anthropicApiKey azureApiKey].
  destruct k1 as [[| ? ?] |], k2 as [[| ? ?] |], k3 as [[| ? ?] |],
           k4 as [[| ? ?] |], k5 as [[| ? ?] |], k6 as [[| ? ?] |]; reflexivity.
Qed.

(** X6: when the caller of request passes headers of its own, request makes
    one call, and under every name the call carries the caller's value (the
    last one given under that name) if there is one, and the value of the
    client's own headers otherwise: a caller can replace the Authorization
    and Content-Type headers of the client. *)
Theorem caller_headers_take_precedence :
  forall (this : WeaviateClientImpl) endpoint options (net : Network)
         (given : list (string * string)),
    baseUrl this <> EmptyString ->
    headers options = Some given ->
    exists url init sent,
      snd (run net (request JSON_parse this endpoint options)) = [(url, init)] /\
      headers init = Some sent /\
      forall name,
        property name sent =
        match property name (rev given) with
        | Some v => Some v
        | None => property name (getAuthHeaders this)
        end.
Proof.
  intros this endpoint options net given Hurl Hgiven.
  rewrite run_request_calls, (truthy_nonempty _ Hurl). unfold fetched.
  eexists. eexists. eexists. split; [reflexivity | split; [reflexivity |]].
  intros name. rewrite Hgiven. apply property_spread.
Qed.

End HeaderFacts.

Lemma caller_headers_take_precedence_witness :
  let options :=
    Async.mkRequestInit (Some "POST") (Some "{}") (Some [("Authorization", "Bearer other")]) in
  Client.baseUrl Spec.exampleClient <> EmptyString /\
  Async.headers options = Some [("Authorization", "Bearer other")] /\
  exists url init sent,
    snd (Async.run (Spec.answering Spec.okBody)
           (Client.request Spec.rejectingParser Spec.exampleClient "/objects" options)) =
      [(url, init)] /\
    Async.headers init = Some sent /\
    forall name,
      Notions.property name sent =
      match Notions.property name (rev [("Authorization", "Bearer other")]) with
      | Some v => Some v
      | None => Notions.property name (Client.getAuthHeaders Spec.exampleClient)
      end.
Proof.
  assert (Hurl : Client.baseUrl Spec.exampleClient <> EmptyString) by discriminate.
  split; [exact Hurl | split; [reflexivity |]].
  exact (caller_headers_take_precedence Spec.rejectingParser Spec.exampleClient "/objects"
           (Async.mkRequestInit (Some "POST") (Some "{}")
              (Some [("Authorization", "Bearer other")]))
           (Spec.answering Spec.okBody) [("Authorization", "Bearer other")] Hurl eq_refl).
Defined.

(* ------------------------------------------------------------------ *)
(** ** The calls of the operations *)
(* ------------------------------------------------------------------ *)

Section CallFacts.
Import JS Errors Entities Async Client Spec Notions.

Variable JSON_parse : string -> Json + Exn.

Lemma calls_bind_silent {A B : Type} (net : Network) (m : Prog A) (k : A -> Prog B) :
  (forall a, snd (run net (k a)) = []) ->
  snd (run net (bind m k)) = snd (run net m).
Proof.
  intros Hk. rewrite run_bind. destruct (run net m) as [[a | e] calls]; [| reflexivity].
  specialize (Hk a). destruct (run net (k a)) as [o calls']. simpl in *. subst.
  apply app_nil_r.
Qed.

Lemma calls_try_catch_silent {A : Type} (net : Network) (m : Prog A) (h : Exn -> Prog A) :
  (forall e, snd (run net (h e)) = []) ->
  snd (run net (try_catch m h)) = snd (run net m).
Proof.
  intros Hh. rewrite run_try_catch. destruct (run net m) as [[a | e] calls]; [reflexivity |].
  specialize (Hh e). destruct (run net (h e)) as [o calls']. simpl in *. subst.
  apply app_nil_r.
Qed.

Lemma calls_some_named (net : Network) tenantName tenants :
  snd (run net (some_named tenantName tenants)) = [].
Proof.
  destruct (some_named_pure tenantName tenants) as [o H]. now rewrite H.
Qed.

Lemma calls_read (net : Network) prop holder :
  snd (run net (read prop holder)) = [].
Proof. destruct holder as [[ | | | | | ] |]; reflexivity. Qed.

Lemma calls_template (net : Network) x :
  snd (run net (template x)) = [].
Proof. destruct x as [v |]; [| reflexivity]. simpl. destruct (ToString v); reflexivity. Qed.

Ltac silent :=
  repeat first
    [ intro
    | reflexivity
    | apply calls_some_named
    | apply calls_read
    | apply calls_template
    | rewrite calls_bind_silent
    | match goal with
      | |- context [match ?x with _ => _ end] => destruct x
      end ].

(** The names split: each is well formed, or one of them is not. *)
Ltac split_names H :=
  unfold wellFormedNames, names in H; cbn [forallb] in H;
  repeat match type of H with
         | context [isWellFormed ?s] =>
             let E := fresh "E" in
             destruct (isWellFormed s) eqn:E; cbn [andb] in H
         end.

(** Every operation but the object-exists check, given well-formed names,
    issues one request of the pipeline, to a path below the root, with no
    headers of its own and with a sound pair of method and body, and makes
    no other call; given a name that is not well formed it makes no call. *)
Lemma calls_of_operation (this : WeaviateClientImpl) (call : Call) :
  (forall c i t, call <> ObjectExists c i t) ->
  if wellFormedNames call then
    exists endpoint options,
      (forall net : Network,
         snd (run net (invoke JSON_parse this call)) =
         snd (run net (request JSON_parse this endpoint options))) /\
      startsWith endpoint "/" = true /\
      headers options = None /\
      sound options = true
  else forall net : Network, snd (run net (invoke JSON_parse this call)) = [].
Proof.
  intros Hcall.
  destruct (wellFormedNames call) eqn:Hn;
  destruct call;
    try (match type of Hcall with
         | forall c i t, ObjectExists ?a ?b ?d <> _ => now elim (Hcall a b d)
         end);
    split_names Hn; try discriminate Hn;
    unfold invoke, resolve;
    unfold testConnection, isLive, isReady, tenantExists,
      getMeta, getSchema, getClass, createClass, updateClass, deleteClass,
      addProperty, listObjects, getObject, createObject, updateObject, patchObject,
      deleteObject, batchCreateObjects, batchDeleteObjects, batchAddReferences,
      addReference, updateReferences, deleteReference, nearVector, nearText,
      nearObject, hybridSearch, bm25Search, graphqlQuery, getTenants, createTenants,
      updateTenants, deleteTenants, createBackup, getBackupStatus, restoreBackup,
      getRestoreStatus, cancelBackup, getNodes, getClusterStatistics,
      createClassification, getClassification;
    unfold on, classPath, referencePath, tenantsPath, backendPath, backupPath;
    unfold objectPath, encodeURIComponent;
    cbv zeta;
    repeat match goal with E : isWellFormed _ = _ |- _ => rewrite E; clear E end;
    cbn [option_map throwing];
    try (intros net; reflexivity);
    (eexists; eexists; split;
     [ intros net;
       repeat first
         [ reflexivity
         | rewrite calls_bind_silent by silent
         | rewrite calls_try_catch_silent by silent ]
     | split; [reflexivity | split; [reflexivity |]];
       first
         [ reflexivity
         | repeat match goal with
                  | |- context [match ?x with _ => _ end] => is_var x; destruct x
                  end;
           reflexivity ] ]).
Qed.

Lemma startsWith_common (a b c : string) :
  startsWith (a ++ b) (a ++ c) = startsWith b c.
Proof.
  induction a as [| x a IH]; simpl; [reflexivity |].
  now rewrite Ascii.eqb_refl, IH.
Qed.

(** X7: whatever the network does, every call an operation of the client
    makes goes to a URL below the base URL followed by /v1/ and carries
    exactly the headers of the client.  With a base URL an operation makes
    exactly one call when the arguments it writes into the path are well
    formed, and none when one of them holds a surrogate that stands alone;
    without a base URL only the object-exists check calls at all. *)
Theorem every_operation_makes_one_authenticated_call :
  forall (this : WeaviateClientImpl) (call : Call) (net : Network),
    let calls := snd (run net (invoke JSON_parse this call)) in
    (forall c, In c calls ->
               startsWith (fst c) (baseUrl this ++ "/v1/") = true /\
               headers (snd c) = Some (getAuthHeaders this)) /\
    (baseUrl this <> EmptyString ->
     List.length calls = if wellFormedNames call then 1%nat else 0%nat) /\
    (baseUrl this = EmptyString ->
     List.length calls = match call with
                         | ObjectExists _ _ _ => if wellFormedNames call then 1%nat else 0%nat
                         | _ => 0%nat
                         end).
Proof.
  intros this call net calls.
  assert (D : (exists c i t, call = ObjectExists c i t) \/
              (forall c i t, call <> ObjectExists c i t)).
  { destruct call; try (right; discriminate). left. eauto. }
  destruct D as [[cn [id [t ->]]] | Hother].
  - subst calls. unfold invoke, resolve, objectExists, on, fetch.
    unfold wellFormedNames, names. cbn [forallb]. rewrite andb_true_r.
    unfold objectPath, encodeURIComponent.
    destruct (isWellFormed cn), (isWellFormed id); cbn [andb throwing try_catch bind run];
      try (split; [intros c [] | split; reflexivity]).
    destruct (net _ _) as [r | e]; cbn [run bind try_catch snd fst];
      (split; [| split; reflexivity]);
      intros c [<- | []]; (split; [| reflexivity]); cbn [fst];
      change "/v1/" with ("/v1" ++ "/");
      rewrite !startsWith_common; reflexivity.
  - pose proof (calls_of_operation this call Hother) as Hop.
    assert (Hzero : match call with
                    | ObjectExists _ _ _ => if wellFormedNames call then 1%nat else 0%nat
                    | _ => 0%nat
                    end = 0%nat).
    { destruct call; try reflexivity.
      match type of Hother with
      | forall c i t, ObjectExists ?a ?b ?d <> _ => now elim (Hother a b d)
      end. }
    rewrite Hzero. clear Hzero.
    destruct (wellFormedNames call).
    + destruct Hop as [endpoint [options [Hcalls [Hslash [Hheaders _]]]]].
      subst calls. rewrite Hcalls, run_request_calls.
      destruct (baseUrl this) as [| x base] eqn:Hbase; cbn [truthy_string].
      * split; [intros c [] | split; [intros H; now elim H | reflexivity]].
      * split; [| split; [reflexivity | discriminate]].
        intros c [<- | []]. unfold fetched. cbn [fst snd headers].
        rewrite Hheaders, Hbase. split; [| reflexivity].
        destruct endpoint as [| s rest]; [discriminate Hslash |].
        cbn [startsWith] in Hslash. apply andb_true_iff in Hslash as [Hs _].
        apply Ascii.eqb_eq in Hs. subst s.
        change "/v1/" with ("/v1" ++ "/").
        change (String x base ++ "/v1" ++ String "/" rest)
          with (String x base ++ "/v1" ++ "/" ++ rest).
        rewrite !startsWith_common. reflexivity.
    + subst calls. rewrite (Hop net).
      split; [intros c [] | split; reflexivity].
Qed.

(** X20: no operation sends a body without naming a method that writes.
    Whatever the network does, a call with a body has the method POST, PUT,
    PATCH or DELETE, and a call that names a method at all names one of
    those or HEAD; so a call without a method, which the Fetch API sends as
    a GET, has no body. *)
Theorem bodies_come_with_a_writing_method :
  forall (this : WeaviateClientImpl) (call : Call) (net : Network) c,
    In c (snd (run net (invoke JSON_parse this call))) ->
    (body (snd c) <> None ->
     exists m, method (snd c) = Some m /\ In m ["POST"; "PUT"; "PATCH"; "DELETE"]) /\
    (forall m, method (snd c) = Some m ->
               In m ["POST"; "PUT"; "PATCH"; "DELETE"; "HEAD"]) /\
    (method (snd c) = None -> body (snd c) = None).
Proof.
  intros this call net c Hin.
  assert (Hsound : sound (snd c) = true).
  { assert (D : (exists cn i t, call = ObjectExists cn i t) \/
                (forall cn i t, call <> ObjectExists cn i t)).
    { destruct call; try (right; discriminate). left. eauto. }
    destruct D as [[cn [id [t ->]]] | Hother].
    - unfold invoke, resolve, objectExists, on, fetch in Hin.
      destruct (objectPath cn id) as [path |];
        cbn [throwing try_catch bind run snd] in Hin; [| destruct Hin].
      destruct (net _ _) as [r | e]; cbn [run bind try_catch snd fst] in Hin;
        destruct Hin as [<- | []]; reflexivity.
    - pose proof (calls_of_operation this call Hother) as Hop.
      destruct (wellFormedNames call).
      + destruct Hop as [endpoint [options [Hcalls [_ [_ Hsound]]]]].
        rewrite Hcalls, run_request_calls in Hin.
        destruct (truthy_string (baseUrl this)); [| destruct Hin].
        destruct Hin as [<- | []]. exact Hsound.
      + rewrite (Hop net) in Hin. destruct Hin. }
  unfold sound in Hsound.
  assert (Hmem : forall m l, existsb (String.eqb m) l = true -> In m l).
  { intros m l H. apply existsb_exists in H as [x [Hx Heq]].
    apply String.eqb_eq in Heq. now subst x. }
  destruct (method (snd c)) as [m |], (body (snd c)) as [b |];
    try discriminate Hsound.
  - split; [| split; [| discriminate]].
    + intros _. exists m. split; [reflexivity | now apply Hmem].
    + intros m' H. injection H as <-. apply Hmem in Hsound. simpl in *. tauto.
  - split; [| split; [| discriminate]].
    + intros H. now elim H.
    + intros m' H. injection H as <-. now apply Hmem.
  - split; [| split; [| reflexivity]].
    + intros H. now elim H.
    + discriminate.
Qed.

End CallFacts.

Lemma every_operation_makes_one_authenticated_call_witness :
  let lone := JS.bytes [237; 160; 128]%nat in
  Client.baseUrl Spec.exampleClient <> EmptyString /\
  List.length
    (snd (Async.run (Spec.failing (Errors.Native "TypeError" "fetch failed"))
            (Client.invoke Spec.rejectingParser Spec.exampleClient
               (Client.TenantExists "Article" "tenantA")))) = 1%nat /\
  List.length
    (snd (Async.run (Spec.answering Spec.okBody)
            (Client.invoke Spec.rejectingParser Spec.exampleClient
               (Client.GetObject "Article" lone None None)))) = 0%nat.
Proof.
  assert (Hurl : Client.baseUrl Spec.exampleClient <> EmptyString) by discriminate.
  split; [exact Hurl | split].
  - exact (proj1 (proj2 (every_operation_makes_one_authenticated_call Spec.rejectingParser
                           Spec.exampleClient (Client.TenantExists "Article" "tenantA")
                           (Spec.failing (Errors.Native "TypeError" "fetch failed"))))
             Hurl).
  - exact (proj1 (proj2 (every_operation_makes_one_authenticated_call Spec.rejectingParser
                           Spec.exampleClient
                           (Client.GetObject "Article" (JS.bytes [237; 160; 128]%nat)
                              None None)
                           (Spec.answering Spec.okBody)))
             Hurl).
Defined.

Lemma bodies_come_with_a_writing_method_witness :
  let options :=
    Client.withBody "POST" (Some (JS.JSON_stringify (JS.JObject [("class", JS.JString "A")]))) in
  In (Spec.fetched Spec.exampleClient "/schema" options)
     (snd (Async.run (Spec.answering Spec.okBody)
             (Client.invoke Spec.rejectingParser Spec.exampleClient
                (Client.CreateClass (JS.JObject [("class", JS.JString "A")]))))) /\
  Async.body options <> None /\
  exists m, Async.method options = Some m /\ In m ["POST"; "PUT"; "PATCH"; "DELETE"].
Proof.
  assert (Hin : In (Spec.fetched Spec.exampleClient "/schema"
                      (Client.withBody "POST"
                         (Some (JS.JSON_stringify (JS.JObject [("class", JS.JString "A")])))))
                   (snd (Async.run (Spec.answering Spec.okBody)
                           (Client.invoke Spec.rejectingParser Spec.exampleClient
                              (Client.CreateClass (JS.JObject [("class", JS.JString "A")]))))))
    by (left; reflexivity).
  assert (Hbody : Async.body
                    (Client.withBody "POST"
                       (Some (JS.JSON_stringify (JS.JObject [("class", JS.JString "A")]))))
                  <> None) by discriminate.
  split; [exact Hin | split; [exact Hbody |]].
  exact (proj1 (bodies_come_with_a_writing_method Spec.rejectingParser Spec.exampleClient
                  (Client.CreateClass (JS.JObject [("class", JS.JString "A")]))
                  (Spec.answering Spec.okBody) _ Hin) Hbody).
Defined.

(* ------------------------------------------------------------------ *)
(** ** Paths and query strings *)
(* ------------------------------------------------------------------ *)

Section UrlFacts.
Import JS Entities Client Spec Notions.

Lemma count_app (c : ascii) (a b : string) :
  count c (a ++ b) = (count c a + count c b)%nat.
Proof. induction a as [| x a IH]; simpl; [reflexivity | rewrite IH; lia]. Qed.

Lemma count_none (p : ascii -> bool) (c : ascii) (s : string) :
  p c = false -> all p s = true -> count c s = O.
Proof.
  intros Hc. induction s as [| d rest IH]; simpl; [reflexivity |].
  intros H. apply andb_true_iff in H as [Hd Hrest].
  destruct (Ascii.eqb_spec d c) as [-> | _]; [congruence | now apply IH].
Qed.

Lemma hexDigit_alnum (upper : bool) (n : nat) : isAlphaNum (hexDigit upper n) = true.
Proof.
  do 16 (destruct n as [| n]; [destruct upper; reflexivity |]).
  destruct upper; reflexivity.
Qed.

Lemma hex2_safe (p : ascii -> bool) (upper : bool) (c : ascii) :
  (forall d, isAlphaNum d = true -> p d = true) -> all p (hex2 upper c) = true.
Proof.
  intros Hp. unfold hex2. cbn [all]. rewrite !Hp by apply hexDigit_alnum. reflexivity.
Qed.

(** What [encodeURIComponent] gives has unreserved characters and percent
    signs only. *)
Lemma percentEncode_safe (s : string) : all uriSafe (percentEncode s) = true.
Proof.
  unfold percentEncode. induction s as [| c rest IH]; [reflexivity |].
  cbn [flat_map_string]. rewrite all_app, IH, andb_true_r.
  destruct (isAlphaNum c || one_of "-_.!~*'()" c)%bool eqn:Hc.
  - cbn [char all]. rewrite andb_true_r. unfold uriSafe.
    apply orb_true_iff in Hc as [Hc | Hc]; [now rewrite Hc |].
    apply orb_true_iff. right. unfold one_of in *. cbn [list_ascii_of_string existsb] in *.
    rewrite !orb_false_r in *.
    repeat (apply orb_true_iff in Hc as [Hc | Hc];
            [rewrite Hc; rewrite ?orb_true_r; reflexivity |]).
    rewrite Hc. rewrite ?orb_true_r. reflexivity.
  - cbn [all]. rewrite hex2_safe; [reflexivity |].
    intros d Hd. unfold uriSafe. now rewrite Hd.
Qed.

Lemma percentEncode_count (c : ascii) (s : string) :
  uriSafe c = false -> count c (percentEncode s) = O.
Proof. intros Hc. apply (count_none uriSafe); [exact Hc | apply percentEncode_safe]. Qed.

Lemma formEncode_safe (s : string) : all formSafe (formEncode s) = true.
Proof.
  unfold formEncode. induction s as [| c rest IH]; [reflexivity |].
  cbn [flat_map_string]. rewrite all_app, IH, andb_true_r.
  destruct (isAlphaNum c || one_of "*-._" c)%bool eqn:Hc.
  - cbn [char all]. rewrite andb_true_r. unfold formSafe.
    apply orb_true_iff in Hc as [Hc | Hc]; [now rewrite Hc |].
    apply orb_true_iff. right. unfold one_of in *. cbn [list_ascii_of_string existsb] in *.
    rewrite !orb_false_r in *.
    repeat (apply orb_true_iff in Hc as [Hc | Hc];
            [rewrite Hc; rewrite ?orb_true_r; reflexivity |]).
    rewrite Hc. rewrite ?orb_true_r. reflexivity.
  - destruct (Ascii.eqb c " "); [reflexivity |].
    cbn [all]. rewrite hex2_safe; [reflexivity |].
    intros d Hd. unfold formSafe. now rewrite Hd.
Qed.

(** Counting a character in a text built from fixed parts and encoded
    arguments. *)
Ltac counted :=
  cbn [count]; rewrite ?count_app; cbn [count]; rewrite ?count_app; cbn [count];
  rewrite ?percentEncode_count by reflexivity; reflexivity.

(** X8: in the path text an operation hands to the pipeline, each argument
    is one segment.  A path is there exactly when its arguments are well
    formed; the path of an object then has three slashes, of a reference
    five, of the tenants of a class three and of a backup three, and no
    path has a question mark, a hash, an ampersand or an equals sign; the
    query string of a tenant has at most one question mark and one equals
    sign, and no ampersand, hash or slash.  Dots are not encoded: the
    identifier of two dots goes into the path as it is. *)
Theorem path_arguments_are_single_segments :
  forall (className id propertyName backend backupId : string) (tenant : option string),
    objectPath className id =
      (if (isWellFormed className && isWellFormed id)%bool
       then Some ("/objects/" ++ percentEncode className ++ "/" ++ percentEncode id)
       else None) /\
    (forall p, objectPath className id = Some p -> count "/" p = 3%nat) /\
    (forall p, referencePath className id propertyName = Some p -> count "/" p = 5%nat) /\
    (forall p, tenantsPath className = Some p -> count "/" p = 3%nat) /\
    (forall p, backupPath backend backupId = Some p -> count "/" p = 3%nat) /\
    (forall c p,
       one_of "?#&=" c = true ->
       objectPath className id = Some p \/
       referencePath className id propertyName = Some p \/
       tenantsPath className = Some p \/
       backupPath backend backupId = Some p ->
       count c p = O) /\
    (count "?" (querySuffix (tenantQuery tenant)) <= 1)%nat /\
    (count "=" (querySuffix (tenantQuery tenant)) <= 1)%nat /\
    (forall c, one_of "&#/" c = true -> count c (querySuffix (tenantQuery tenant)) = O) /\
    objectPath "Article" ".." = Some "/objects/Article/..".
Proof.
  intros className id propertyName backend backupId tenant.
  assert (Hform : forall c s, formSafe c = false -> count c (formEncode s) = O).
  { intros c s Hc. apply (count_none formSafe); [exact Hc | apply formEncode_safe]. }
  assert (Hq : querySuffix (tenantQuery tenant) = EmptyString \/
               exists t, querySuffix (tenantQuery tenant)
                         = "?tenant=" ++ formEncode (toWellFormed t)).
  { destruct tenant as [[| x t] |]; [now left | right | now left].
    exists (String x t). unfold tenantQuery, setIf, querySuffix, set.
    cbn [truthy_string setPair URLSearchParams_toString map fst snd join String.concat].
    change (toWellFormed "tenant") with "tenant".
    change (formEncode "tenant") with "tenant". reflexivity. }
  unfold referencePath, objectPath, tenantsPath, backendPath, backupPath, encodeURIComponent.
  split; [| split; [| split; [| split; [| split; [| split; [| split; [| split; [| split]]]]]]]].
  - destruct (isWellFormed className), (isWellFormed id); reflexivity.
  - intros p. destruct (isWellFormed className), (isWellFormed id); try discriminate.
    intros H. injection H as <-. counted.
  - intros p.
    destruct (isWellFormed className), (isWellFormed id), (isWellFormed propertyName);
      try discriminate.
    intros H. injection H as <-. counted.
  - intros p. destruct (isWellFormed className); try discriminate.
    intros H. injection H as <-. counted.
  - intros p. destruct (isWellFormed backend), (isWellFormed backupId); try discriminate.
    intros H. injection H as <-. counted.
  - intros c p H Hp. unfold one_of in H. cbn [list_ascii_of_string existsb] in H.
    destruct (isWellFormed className), (isWellFormed id), (isWellFormed propertyName),
             (isWellFormed backend), (isWellFormed backupId);
      cbn [option_map] in Hp;
      destruct Hp as [Hp | [Hp | [Hp | Hp]]]; try discriminate Hp;
      injection Hp as <-;
      repeat (apply orb_true_iff in H as [H | H];
              [apply Ascii.eqb_eq in H; subst c; counted |]);
      discriminate H.
  - destruct Hq as [-> | [t ->]]; [cbn; lia |].
    rewrite count_app, Hform by reflexivity. cbn. lia.
  - destruct Hq as [-> | [t ->]]; [cbn; lia |].
    rewrite count_app, Hform by reflexivity. cbn. lia.
  - intros c H. unfold one_of in H. cbn [list_ascii_of_string existsb] in H.
    destruct Hq as [-> | [t ->]]; [reflexivity |].
    repeat (apply orb_true_iff in H as [H | H];
            [apply Ascii.eqb_eq in H; subst c;
             rewrite !count_app, !Hform by reflexivity; reflexivity |]).
    discriminate H.
  - reflexivity.
Qed.

End UrlFacts.

(* ------------------------------------------------------------------ *)
(** ** The tenant check *)
(* ------------------------------------------------------------------ *)

Section TenantFacts.
Import JS Errors Entities Async Client Spec Notions.

Variable JSON_parse : string -> Json + Exn.

Lemma some_named_scan (tenantName : string) (tenants : list Json) (net : Network) :
  forallb notNull tenants = true ->
  fst (run net (some_named tenantName tenants)) = Returns (existsb (named tenantName) tenants).
Proof.
  induction tenants as [| t rest IH]; [reflexivity |].
  cbn [forallb]. intros H. apply andb_true_iff in H as [Ht Hrest].
  specialize (IH Hrest). unfold named in *.
  destruct t; try discriminate Ht; cbn [some_named existsb get orb]; try exact IH.
  destruct (lookup "name" members) as [[ | | | n | | ] |]; cbn [orb]; try exact IH.
  destruct (String.eqb n tenantName); [reflexivity | exact IH].
Qed.

Lemma some_named_found (tenantName : string) (tenants : list Json) (net : Network) :
  fst (run net (some_named tenantName tenants)) = Returns true ->
  exists t, In t tenants /\ get "name" t = Some (JString tenantName).
Proof.
  induction tenants as [| t rest IH]; [discriminate |].
  assert (Hrest : fst (run net (some_named tenantName rest)) = Returns true ->
                  exists t0, In t0 (t :: rest) /\ get "name" t0 = Some (JString tenantName)).
  { intros H. destruct (IH H) as [t0 [Hin Hname]]. exists t0. split; [now right | exact Hname]. }
  destruct t; cbn [some_named get]; try exact Hrest; try discriminate.
  destruct (lookup "name" members) as [[ | | | n | | ] |] eqn:Hlookup; try exact Hrest.
  destruct (String.eqb_spec n tenantName) as [-> | _]; [| exact Hrest].
  intros _. exists (JObject members). split; [now left | exact Hlookup].
Qed.

(** X9: when the tenants of the class come back as a list, tenantExists
    answers whether one of them has exactly the name asked for, provided no
    element of the list is null; and whenever it answers true, such a
    tenant is in the list. *)
Theorem tenant_exists_scans_the_names :
  forall (this : WeaviateClientImpl) (className tenantName : string) (net : Network)
         (tenants : list Json),
    fst (run net (getTenants JSON_parse this className)) = Returns (Some (JArray tenants)) ->
    (forallb notNull tenants = true ->
     fst (run net (tenantExists JSON_parse this className tenantName)) =
     Returns (existsb (named tenantName) tenants)) /\
    (fst (run net (tenantExists JSON_parse this className tenantName)) = Returns true ->
     exists t, In t tenants /\ get "name" t = Some (JString tenantName)).
Proof.
  intros this className tenantName net tenants Hget.
  unfold tenantExists. cbv zeta. rewrite run_try_catch, run_bind.
  destruct (run net (getTenants JSON_parse this className)) as [o calls].
  cbn [fst] in Hget. subst o.
  pose proof (some_named_scan tenantName tenants net) as Hscan.
  pose proof (some_named_found tenantName tenants net) as Hfound.
  destruct (run net (some_named tenantName tenants)) as [[b | e] calls'];
    cbn [fst run] in *.
  - split; [exact Hscan | exact Hfound].
  - split; [intros H; discriminate (Hscan H) | discriminate].
Qed.

End TenantFacts.

Lemma tenant_exists_scans_the_names_witness :
  let tenants :=
    [JS.JObject [("name", JS.JString "tenantA")];
     JS.JObject [("name", JS.JString "tenantB")]] in
  let parser := fun _ : string => @inl JS.Json Errors.Exn (JS.JArray tenants) in
  fst (Async.run (Spec.answering Spec.okBody)
         (Client.getTenants parser Spec.exampleClient "Article")) =
    Async.Returns (Some (JS.JArray tenants)) /\
  forallb Notions.notNull tenants = true /\
  fst (Async.run (Spec.answering Spec.okBody)
         (Client.tenantExists parser Spec.exampleClient "Article" "tenantB")) =
    Async.Returns true.
Proof.
  split; [reflexivity | split; [reflexivity |]].
  exact (proj1 (tenant_exists_scans_the_names
                  (fun _ : string =>
                     @inl JS.Json Errors.Exn
                       (JS.JArray [JS.JObject [("name", JS.JString "tenantA")];
                                   JS.JObject [("name", JS.JString "tenantB")]]))
                  Spec.exampleClient "Article" "tenantB" (Spec.answering Spec.okBody)
                  _ eq_refl) eq_refl).
Defined.

(* ------------------------------------------------------------------ *)
(** ** Credentials, the base URL and the environment *)
(* ------------------------------------------------------------------ *)

Section EnvFacts.
Import JS Errors Entities Async Client Spec Notions Env.

Variable JSON_parse : string -> Json + Exn.

Lemma credentialHeader_or_undefined name (x : option string) f :
  credentialHeader name (or_undefined x) f = credentialHeader name x f.
Proof. destruct x as [[| c s] |]; reflexivity. Qed.

Lemma stripTrailingSlash_slash (s : string) : stripTrailingSlash (s ++ "/") = s.
Proof.
  induction s as [| c r IH]; [reflexivity |].
  cbn [append stripTrailingSlash]. destruct (r ++ "/") as [| d r'] eqn:Hr.
  - destruct r; discriminate Hr.
  - now rewrite IH.
Qed.

Lemma stripTrailingSlash_other (s : string) :
  endsWithChar "/" s = false -> stripTrailingSlash s = s.
Proof.
  induction s as [| c r IH]; [reflexivity |].
  cbn [endsWithChar stripTrailingSlash]. destruct r as [| d r'].
  - intros H. now rewrite H.
  - intros H. now rewrite IH.
Qed.

Lemma stripTrailingSlash_empty (s : string) :
  stripTrailingSlash s = EmptyString <-> s = EmptyString \/ s = "/".
Proof.
  split.
  - destruct s as [| c [| d r]]; cbn [stripTrailingSlash].
    + now left.
    + destruct (Ascii.eqb_spec c "/") as [-> | _]; [now right | discriminate].
    + discriminate.
  - intros [-> | ->]; reflexivity.
Qed.

(** The credentials of a request pass the validation exactly when the
    request has a URL header that is not empty. *)
Lemma validateCredentials_iff (headers : RequestHeaders) :
  validateCredentials (parseTenantCredentials headers) = Returns tt <->
  exists url, header "X-Weaviate-URL" headers = Some url /\ url <> EmptyString.
Proof.
  unfold validateCredentials, parseTenantCredentials. cbn [weaviateUrl].
  destruct (header "X-Weaviate-URL" headers) as [[| c url] |]; cbn; split.
  - discriminate.
  - intros [u [H Hne]]. injection H as <-. now elim Hne.
  - intros _. eexists. split; [reflexivity | discriminate].
  - reflexivity.
  - discriminate.
  - intros [u [H _]]. discriminate H.
Qed.

(** X10: the headers of an inbound request decide the headers of every
    outbound call.  The client made from the parsed credentials sends the
    content type, the Weaviate key as a bearer token and each provider key
    under its own name, each one exactly when the inbound header of that
    name is there and not empty; and the credentials pass the validation
    exactly when the URL header is there and not empty. *)
Theorem credentials_flow_to_outbound_headers :
  forall headers : RequestHeaders,
    let credentials := parseTenantCredentials headers in
    getAuthHeaders (createWeaviateClient credentials) =
      ("Content-Type", "application/json")
      :: credentialHeader "Authorization" (header "X-Weaviate-API-Key" headers)
           (fun k => "Bearer " ++ k)
      ++ credentialHeader "X-OpenAI-Api-Key" (header "X-OpenAI-Api-Key" headers) (fun k => k)
      ++ credentialHeader "X-Cohere-Api-Key" (header "X-Cohere-Api-Key" headers) (fun k => k)
      ++ credentialHeader "X-HuggingFace-Api-Key" (header "X-HuggingFace-Api-Key" headers)
           (fun k => k)
      ++ credentialHeader "X-Anthropic-Api-Key" (header "X-Anthropic-Api-Key" headers)
           (fun k => k)
      ++ credentialHeader "X-Azure-Api-Key" (header "X-Azure-Api-Key" headers) (fun k => k) /\
    (validateCredentials credentials = Returns tt <->
     exists url, header "X-Weaviate-URL" headers = Some url /\ url <> EmptyString).
Proof.
  intros headers credentials. subst credentials. split.
  - rewrite getAuthHeaders_closed_form. unfold createWeaviateClient, parseTenantCredentials.
    cbn [credentials apiKey openaiApiKey cohereApiKey huggingfaceApiKey
         anthropicApiKey azureApiKey].
    rewrite !credentialHeader_or_undefined. reflexivity.
  - apply validateCredentials_iff.
Qed.

(** X11: credentials that pass the validation do not guarantee a base URL.
    With the URL that is a single slash, every request throws the
    authentication error about the missing URL and makes no call; with
    every other validated URL a request makes exactly one call, to the base
    URL followed by /v1 and the endpoint. *)
Theorem validated_credentials_and_the_base_url :
  forall (credentials : TenantCredentials) endpoint options (net : Network),
    validateCredentials credentials = Returns tt ->
    let this := createWeaviateClient credentials in
    (weaviateUrl credentials = Some "/" ->
     request JSON_parse this endpoint options =
     Throw (Typed (AuthenticationError
                     "No Weaviate URL provided. Include X-Weaviate-URL header."))) /\
    (weaviateUrl credentials <> Some "/" ->
     exists init,
       snd (run net (request JSON_parse this endpoint options)) =
       [(baseUrl this ++ "/v1" ++ endpoint, init)]).
Proof.
  intros credentials endpoint options net Hvalid this. subst this.
  unfold validateCredentials in Hvalid.
  destruct (weaviateUrl credentials) as [[| c url] |] eqn:Hurl; cbn in Hvalid;
    try discriminate Hvalid.
  split.
  - intros H. injection H as -> ->. unfold request, createWeaviateClient.
    rewrite Hurl. reflexivity.
  - intros Hne. rewrite run_request_calls. unfold fetched.
    assert (Hbase : baseUrl (createWeaviateClient credentials) <> EmptyString).
    { unfold createWeaviateClient. cbn [baseUrl]. rewrite Hurl. cbn [string_or truthy_string].
      intros H. apply stripTrailingSlash_empty in H as [H | H]; [discriminate H |].
      apply Hne. now rewrite H. }
    rewrite (truthy_nonempty _ Hbase). eexists. reflexivity.
Qed.

(** X12: the constructor removes one trailing slash of the URL and nothing
    else: a URL that ends with a slash loses that slash only, and a URL
    that does not end with one is the base URL as it is. *)
Theorem one_trailing_slash_is_removed :
  forall (credentials : TenantCredentials) (url : string),
    (weaviateUrl credentials = Some (url ++ "/") \/
     (weaviateUrl credentials = Some url /\ endsWithChar "/" url = false)) ->
    baseUrl (createWeaviateClient credentials) = url.
Proof.
  intros credentials url H. unfold createWeaviateClient. cbn [baseUrl].
  destruct H as [-> | [-> Hend]].
  - replace (string_or (Some (url ++ "/")) EmptyString) with (url ++ "/")
      by (destruct url; reflexivity).
    apply stripTrailingSlash_slash.
  - replace (string_or (Some url) EmptyString) with url by (destruct url; reflexivity).
    now apply stripTrailingSlash_other.
Qed.

(** X13: getEnvNumber gives the number that an integer written in decimal
    in the variable becomes, negative ones and zero included: that integer
    up to 2^53 in magnitude, the nearest double beyond.  It gives the
    default when the variable is not set or parseInt makes no number of its
    text; white space before the digits is skipped, a no-break space too.
    For the three bindings it always gives the default. *)
Theorem env_numbers_parse_or_default :
  forall (env : Env) (key : EnvKey) (defaultValue : Z),
    (forall n, stringAt env key = Some (decimal n) ->
               getEnvNumber env key defaultValue = toNumber n /\
               (Z.abs n <= safe -> getEnvNumber env key defaultValue = Integer n)) /\
    (forall value, stringAt env key = Some value -> parseInt value = NaN ->
                   getEnvNumber env key defaultValue = Integer defaultValue) /\
    (stringAt env key = None -> getEnvNumber env key defaultValue = Integer defaultValue) /\
    getEnvNumber env K_CACHE_KV defaultValue = Integer defaultValue /\
    getEnvNumber env K_MCP_SESSIONS defaultValue = Integer defaultValue /\
    getEnvNumber env K_AI defaultValue = Integer defaultValue /\
    parseInt (bytes [194; 160]%nat ++ "123") = Integer 123 /\
    parseInt "9007199254740993" = Integer 9007199254740992.
Proof.
  intros env key defaultValue. unfold getEnvNumber.
  split; [| split; [| split; [| repeat split]]].
  - intros n ->. rewrite parseInt_decimal.
    split.
    + unfold toNumber. destruct (Z.abs (round n) <=? MAX_VALUE); reflexivity.
    + intros Hsafe. rewrite (toNumber_safe n Hsafe). reflexivity.
  - intros value -> ->. reflexivity.
  - intros ->. reflexivity.
Qed.

End EnvFacts.

Lemma validated_credentials_and_the_base_url_witness :
  let credentials := Entities.mkTenantCredentials (Some "/") None None None None None None in
  Env.validateCredentials credentials = Async.Returns tt /\
  Entities.weaviateUrl credentials = Some "/" /\
  Client.request Spec.rejectingParser (Client.createWeaviateClient credentials) "/schema"
    Async.noInit =
  Async.Throw (Errors.Typed
                 (Errors.AuthenticationError
                    "No Weaviate URL provided. Include X-Weaviate-URL header.")).
Proof.
  split; [reflexivity | split; [reflexivity |]].
  exact (proj1 (validated_credentials_and_the_base_url Spec.rejectingParser
                  (Entities.mkTenantCredentials (Some "/") None None None None None None)
                  "/schema" Async.noInit (Spec.answering Spec.okBody) eq_refl) eq_refl).
Defined.

Lemma one_trailing_slash_is_removed_witness :
  let credentials :=
    Entities.mkTenantCredentials (Some "https://db.example//") None None None None None None in
  Entities.weaviateUrl credentials = Some ("https://db.example/" ++ "/") /\
  Client.baseUrl (Client.createWeaviateClient credentials) = "https://db.example/".
Proof.
  split; [reflexivity |].
  exact (one_trailing_slash_is_removed
           (Entities.mkTenantCredentials (Some "https://db.example//")
              None None None None None None)
           "https://db.example/" (or_introl eq_refl)).
Defined.

Lemma env_numbers_parse_or_default_witness :
  let env := Env.mkEnv (Some "-5") None (Some "many") in
  Env.stringAt env Env.K_CHARACTER_LIMIT = Some (JS.decimal (-5)) /\
  Z.abs (-5) <= JS.safe /\
  Env.getCharacterLimit env = JS.Integer (-5) /\
  Env.getMaxPageSize env = JS.Integer 100.
Proof.
  assert (Hsafe : Z.abs (-5) <= JS.safe) by (intros H; discriminate H).
  split; [reflexivity | split; [exact Hsafe | split]].
  - exact (proj2 (proj1 (env_numbers_parse_or_default
                           (Env.mkEnv (Some "-5") None (Some "many"))
                           Env.K_CHARACTER_LIMIT 50000) (-5) eq_refl) Hsafe).
  - exact (proj1 (proj2 (env_numbers_parse_or_default
                           (Env.mkEnv (Some "-5") None (Some "many"))
                           Env.K_MAX_PAGE_SIZE 100)) "many" eq_refl eq_refl).
Defined.

(* ------------------------------------------------------------------ *)
(** ** Empty bodies, defaults and the listing *)
(* ------------------------------------------------------------------ *)

Section EdgeFacts.
Import JS Errors Entities Async Client Spec Pagination.

Variable JSON_parse : string -> Json + Exn.

(** A success without a body: [request] resolves to [undefined]. *)
Lemma run_request_no_body (this : WeaviateClientImpl) endpoint options response :
  baseUrl this <> EmptyString ->
  ok response = true ->
  status response = 204 \/ text response = EmptyString ->
  run (answering response) (request JSON_parse this endpoint options) =
  (Returns None, [fetched this endpoint options]).
Proof.
  intros Hurl Hok Hempty.
  rewrite (run_request_answered JSON_parse this endpoint options response Hurl).
  cbv zeta. rewrite Hok. cbn [negb].
  unfold ok in Hok. apply andb_true_iff in Hok as [Hlo Hhi].
  apply Z.leb_le in Hlo. apply Z.leb_le in Hhi.
  destruct (Z.eqb_spec (status response) 429); [lia |].
  destruct (Z.eqb_spec (status response) 401); [lia |].
  destruct (Z.eqb_spec (status response) 403); [lia |].
  destruct (Z.eqb_spec (status response) 404); [lia |].
  cbn [orb].
  destruct (Z.eqb_spec (status response) 204); [reflexivity |].
  destruct Hempty as [H | H]; [contradiction | rewrite H; reflexivity].
Qed.

(** X14: when the service answers a success without a body (a 204, or an
    empty text), the operations that read a property of the result do not
    get one.  The listing and the node listing throw the TypeError of
    reading a property of undefined, which is not one of the typed errors;
    the connection test reports a failure with that message; and the
    tenant check answers false. *)
Theorem empty_success_body_is_undefined :
  forall (this : WeaviateClientImpl) response (className tenantName : string)
         (params : option ListParams) (output : option string),
    baseUrl this <> EmptyString ->
    ok response = true ->
    status response = 204 \/ text response = EmptyString ->
    let net := answering response in
    fst (run net (listObjects JSON_parse this className params)) =
      Throws (TypeError_read "undefined" "objects") /\
    fst (run net (getNodes JSON_parse this output)) =
      Throws (TypeError_read "undefined" "nodes") /\
    fst (run net (testConnection JSON_parse this)) =
      Returns (false, exn_message (TypeError_read "undefined" "version")) /\
    fst (run net (tenantExists JSON_parse this className tenantName)) = Returns false.
Proof.
  intros this response className tenantName params output Hurl Hok Hempty net. subst net.
  unfold listObjects, getNodes, testConnection, tenantExists, getMeta, getTenants.
  cbv zeta.
  rewrite !run_try_catch, !run_bind.
  rewrite !(run_request_no_body this _ _ response Hurl Hok Hempty).
  repeat split.
  unfold on, tenantsPath, encodeURIComponent.
  destruct (isWellFormed className); cbn [option_map throwing bind]; [| reflexivity].
  rewrite (run_request_no_body this _ _ response Hurl Hok Hempty). reflexivity.
Qed.

(** X15: in a search, a limit of zero, an empty list of fields and an empty
    tenant count as not given: the document is the one built without
    options, which asks for ten results and for the id, the distance and
    the certainty of each. *)
Theorem graphql_defaults :
  forall (className searchClause : string) (limit : option Z)
         (fields : option (list string)) (tenant : option string),
    (limit = None \/ limit = Some 0) ->
    (fields = None \/ fields = Some []) ->
    (tenant = None \/ tenant = Some EmptyString) ->
    buildGraphQLGetQuery className searchClause
      (Some {| so_limit := limit; so_fields := fields;
               so_where := None; so_tenant := tenant |}) =
    buildGraphQLGetQuery className searchClause None /\
    includes (buildGraphQLGetQuery className searchClause None) "limit: 10" = true /\
    includes (buildGraphQLGetQuery className searchClause None)
             "_additional { id distance certainty }" = true.
Proof.
  intros className searchClause limit fields tenant Hl Hf Ht.
  split; [| split].
  - destruct Hl as [-> | ->], Hf as [-> | ->], Ht as [-> | ->]; reflexivity.
  - rewrite query_shape. do 4 apply includes_app_r. rewrite <- append_assoc.
    apply includes_app_l. reflexivity.
  - rewrite query_shape. do 11 apply includes_app_r. apply includes_app_l. reflexivity.
Qed.

Lemma Z_or_effectiveLimit params : Z_or (limitOf params) 20 = effectiveLimit params.
Proof.
  unfold Z_or, effectiveLimit. destruct (limitOf params) as [[| l | l] |]; reflexivity.
Qed.

(** X16: the has-more flag of the listing against the true total, for
    numbers up to 2^53, where sums are exact.  When the service returns an
    array of the items that are left, at most a page of them, the flag
    agrees with hasMoreItems except when the page ends exactly at the
    total: there the listing says there is more although nothing is left.
    Beyond 2^53 the sum is rounded: at offset 2^53 - 1 with limit 4 and
    total 2^53 + 4 hasMoreItems is false with one item left. *)
Theorem full_page_heuristic_against_total :
  forall (this : WeaviateClientImpl) className params (net : Network) page
         (objects : list Json) (total : Z),
    fst (run net (listObjects JSON_parse this className params)) = Returns page ->
    let limit := effectiveLimit params in
    let offset := statedOffset params in
    items page = JArray objects ->
    Z.of_nat (List.length objects) = Z.min limit (total - offset) ->
    Z.abs (offset + limit) <= safe ->
    hasMore page =
      (hasMoreItems add ltb (Integer offset) (Integer limit) (Integer total)
       || (offset + limit =? total))%bool /\
    hasMoreItems add ltb (Integer (safe - 1)) (Integer 4) (Integer (safe + 4)) = false.
Proof.
  intros this className params net page objects total Hpage limit offset Hitems Hcount Hsafe.
  split; [| vm_compute; reflexivity].
  destruct (listObjects_returns JSON_parse this className params net page Hpage)
    as [_ [Hmore _]].
  cbv zeta in Hmore. rewrite Z_or_effectiveLimit in Hmore.
  fold limit in Hmore. rewrite Hmore, Hitems. cbn [lengthOf strictEquals].
  rewrite Hcount. unfold hasMoreItems. rewrite (add_safe _ _ Hsafe). cbn [ltb].
  destruct (Z.eqb_spec (Z.min limit (total - offset)) limit);
    destruct (Z.ltb_spec (offset + limit) total);
    destruct (Z.eqb_spec (offset + limit) total); cbn; try reflexivity; lia.
Qed.

(** X17: the token of the listing is the text of the next offset, the sum
    of the offset and the effective limit as JavaScript adds them; it comes
    with hasMore true, and up to 2^53 parseInt reads the exact sum back from
    it.  The listing never reads the cursor it is given, so that two calls
    that differ in the cursor only are the same call. *)
Theorem listing_token_is_the_next_offset :
  forall (this : WeaviateClientImpl) className params (net : Network) page,
    fst (run net (listObjects JSON_parse this className params)) = Returns page ->
    (forall token,
       nextCursor page = Some token ->
       hasMore page = true /\
       token = String_of (add (Integer (statedOffset params))
                              (Integer (effectiveLimit params))) /\
       (Z.abs (statedOffset params + effectiveLimit params) <= safe ->
        parseInt token = Integer (statedOffset params + effectiveLimit params))) /\
    (forall p c,
       params = Some p ->
       listObjects JSON_parse this className
         (Some {| limit := limit p; offset := offset p; cursor := c;
                  include := include p; tenant := tenant p |}) =
       listObjects JSON_parse this className params).
Proof.
  intros this className params net page Hpage.
  destruct (listObjects_returns JSON_parse this className params net page Hpage)
    as [_ [Hmore Hcursor]].
  cbv zeta in Hmore, Hcursor.
  rewrite Z_or_effectiveLimit in Hmore, Hcursor. rewrite Z_or_statedOffset in Hcursor.
  split.
  - intros token Htoken. rewrite Hcursor in Htoken. rewrite Hmore.
    destruct (strictEquals (lengthOf (items page)) (effectiveLimit params));
      [| discriminate Htoken].
    injection Htoken as <-. split; [reflexivity | split; [reflexivity |]].
    intros Hsafe. cbn [add]. rewrite (toNumber_safe _ Hsafe). cbn [String_of].
    rewrite (String_of_Z_safe _ Hsafe). apply parseInt_decimal_safe, Hsafe.
  - intros p c ->. reflexivity.
Qed.

End EdgeFacts.

Lemma empty_success_body_is_undefined_witness :
  Client.baseUrl Spec.exampleClient <> EmptyString /\
  Async.ok (Spec.bare 204) = true /\
  fst (Async.run (Spec.answering (Spec.bare 204))
         (Client.listObjects Spec.rejectingParser Spec.exampleClient "Article" None)) =
  Async.Throws (Errors.TypeError_read "undefined" "objects").
Proof.
  assert (Hurl : Client.baseUrl Spec.exampleClient <> EmptyString) by discriminate.
  split; [exact Hurl | split; [reflexivity |]].
  exact (proj1 (empty_success_body_is_undefined Spec.rejectingParser Spec.exampleClient
                  (Spec.bare 204) "Article" "tenantA" None None Hurl eq_refl
                  (or_introl eq_refl))).
Defined.

Lemma graphql_defaults_witness :
  Client.buildGraphQLGetQuery "Article" "bm25: { query: x }"
    (Some (Entities.mkSearchOptions (Some 0) (Some []) None (Some EmptyString))) =
  Client.buildGraphQLGetQuery "Article" "bm25: { query: x }" None.
Proof.
  exact (proj1 (graphql_defaults "Article" "bm25: { query: x }" (Some 0) (Some [])
                  (Some EmptyString) (or_intror eq_refl) (or_intror eq_refl)
                  (or_intror eq_refl))).
Defined.

Lemma full_page_heuristic_against_total_witness :
  let params := Some (Entities.mkListParams (Some 2) (Some 4) None None None) in
  let objects := [JS.JObject []; JS.JObject []] in
  let page : Client.Listing :=
    {| Pagination.items := JS.JArray objects;
       Pagination.count := Some (JS.JNumber (JS.Int 2));
       Pagination.total := None;
       Pagination.hasMore := true;
       Pagination.nextCursor := Some "6" |} in
  fst (Async.run (Spec.answering Spec.okBody)
         (Client.listObjects (Spec.listingOf 2) Spec.exampleClient "Article" params)) =
    Async.Returns page /\
  Z.of_nat (List.length objects) =
    Z.min (Spec.effectiveLimit params) (6 - Spec.statedOffset params) /\
  Z.abs (Spec.statedOffset params + Spec.effectiveLimit params) <= JS.safe /\
  Pagination.hasMoreItems JS.add JS.ltb (JS.Integer 4) (JS.Integer 2) (JS.Integer 6) = false /\
  Pagination.hasMore page = true.
Proof.
  assert (Hsafe : Z.abs (4 + 2) <= JS.safe) by (intros H; discriminate H).
  split; [reflexivity | split; [reflexivity | split; [exact Hsafe | split; [reflexivity |]]]].
  exact (proj1 (full_page_heuristic_against_total (Spec.listingOf 2) Spec.exampleClient
                  "Article"
                  (Some (Entities.mkListParams (Some 2) (Some 4) None None None))
                  (Spec.answering Spec.okBody)
                  {| Pagination.items := JS.JArray [JS.JObject []; JS.JObject []];
                     Pagination.count := Some (JS.JNumber (JS.Int 2));
                     Pagination.total := None;
                     Pagination.hasMore := true;
                     Pagination.nextCursor := Some "6" |}
                  [JS.JObject []; JS.JObject []] 6 eq_refl eq_refl eq_refl Hsafe)).
Defined.

Lemma listing_token_is_the_next_offset_witness :
  let params := Some (Entities.mkListParams (Some 2) (Some 4) None None None) in
  let page : Client.Listing :=
    {| Pagination.items := JS.JArray [JS.JObject []; JS.JObject []];
       Pagination.count := Some (JS.JNumber (JS.Int 2));
       Pagination.total := None;
       Pagination.hasMore := true;
       Pagination.nextCursor := Some "6" |} in
  fst (Async.run (Spec.answering Spec.okBody)
         (Client.listObjects (Spec.listingOf 2) Spec.exampleClient "Article" params)) =
    Async.Returns page /\
  Pagination.nextCursor page = Some "6" /\
  Z.abs (Spec.statedOffset params + Spec.effectiveLimit params) <= JS.safe /\
  JS.parseInt "6" = JS.Integer 6.
Proof.
  assert (Hsafe : Z.abs (4 + 2) <= JS.safe) by (intros H; discriminate H).
  split; [reflexivity | split; [reflexivity | split; [exact Hsafe |]]].
  exact (proj2 (proj2 (proj1 (listing_token_is_the_next_offset (Spec.listingOf 2)
                         Spec.exampleClient "Article"
                         (Some (Entities.mkListParams (Some 2) (Some 4) None None None))
                         (Spec.answering Spec.okBody)
                         {| Pagination.items := JS.JArray [JS.JObject []; JS.JObject []];
                            Pagination.count := Some (JS.JNumber (JS.Int 2));
                            Pagination.total := None;
                            Pagination.hasMore := true;
                            Pagination.nextCursor := Some "6" |} eq_refl)
                  "6" eq_refl)) Hsafe).
Defined.

(* ------------------------------------------------------------------ *)
(** ** The routes of the worker *)
(* ------------------------------------------------------------------ *)

Section WorkerFacts.
Import JS Errors Entities Async Client Spec Env Worker.

(** X18: the worker hands a request to the MCP handler exactly when it is a
    POST to /mcp with a URL header that is not empty, and then with the
    credentials parsed from the headers.  A POST to /mcp without such a
    header is answered 401 with the message of the validation; a request
    to /mcp with another method gets the description of the server, as
    every path does that is none of /health, /mcp and /sse. *)
Theorem mcp_is_served_only_with_a_url :
  forall (pathname method : string) (headers : RequestHeaders),
    (forall credentials,
       fetchHandler pathname method headers = Serve credentials <->
       pathname = "/mcp" /\ method = "POST" /\
       credentials = parseTenantCredentials headers /\
       exists url, header "X-Weaviate-URL" headers = Some url /\ url <> EmptyString) /\
    (pathname = "/mcp" -> method = "POST" ->
     (forall url, header "X-Weaviate-URL" headers = Some url -> url = EmptyString) ->
     exists body,
       fetchHandler pathname method headers = Respond 401 json body /\
       includes body "Missing X-Weaviate-URL header" = true) /\
    (method <> "POST" ->
     fetchHandler "/mcp" method headers = Respond 200 json (JSON_stringify info) /\
     fetchHandler "/" method headers = Respond 200 json (JSON_stringify info)) /\
    (forall credentials,
       fetchHandler pathname method headers = Serve credentials ->
       exists url, weaviateUrl credentials = Some url /\ url <> EmptyString) /\
    (pathname <> "/health" -> pathname <> "/mcp" -> pathname <> "/sse" ->
     fetchHandler pathname method headers = Respond 200 json (JSON_stringify info)).
Proof.
  intros pathname method headers.
  assert (Hserve : forall credentials,
            fetchHandler pathname method headers = Serve credentials ->
            pathname = "/mcp" /\ method = "POST" /\
            credentials = parseTenantCredentials headers /\
            validateCredentials credentials = Returns tt).
  { intros credentials. unfold fetchHandler.
    destruct (String.eqb_spec pathname "/health"); [discriminate |].
    destruct (String.eqb_spec pathname "/mcp") as [-> | _];
      [| cbn [andb]; destruct (String.eqb pathname "/sse"); discriminate].
    destruct (String.eqb_spec method "POST") as [-> | _];
      [| cbn [andb]; discriminate].
    cbn [andb]. cbv zeta.
    destruct (validateCredentials (parseTenantCredentials headers)) as [[] | e] eqn:Hv;
      [| discriminate].
    intros H. injection H as <-. repeat split. exact Hv. }
  pose proof (validateCredentials_iff headers) as Hvalid.
  split; [| split; [| split; [| split]]].
  - intros credentials. split.
    + intros H. destruct (Hserve credentials H) as [Hp [Hm [Hc Hv]]].
      repeat split; try assumption. subst credentials. now apply Hvalid.
    + intros [-> [-> [-> Hurl]]]. unfold fetchHandler. cbn [String.eqb Ascii.eqb andb].
      apply Hvalid in Hurl. cbv zeta. rewrite Hurl. reflexivity.
  - intros -> -> Hnone. unfold fetchHandler. cbn [String.eqb Ascii.eqb andb]. cbv zeta.
    destruct (validateCredentials (parseTenantCredentials headers)) as [[] | e] eqn:Hv.
    + apply (validateCredentials_iff headers) in Hv as [url [Hurl Hne]].
      now elim Hne; apply Hnone.
    + unfold validateCredentials in Hv.
      destruct (negb _) in Hv; [| discriminate Hv]. injection Hv as <-.
      eexists. split; [reflexivity | reflexivity].
  - intros Hmethod. unfold fetchHandler.
    destruct (String.eqb_spec method "POST") as [H | _]; [contradiction |].
    split; reflexivity.
  - intros credentials H. destruct (Hserve credentials H) as [_ [_ [-> Hv]]].
    unfold validateCredentials in Hv.
    destruct (weaviateUrl (parseTenantCredentials headers)) as [[| c url] |];
      cbn in Hv; try discriminate Hv.
    eexists. split; [reflexivity | discriminate].
  - intros Hhealth Hmcp Hsse. unfold fetchHandler.
    destruct (String.eqb_spec pathname "/health"); [contradiction |].
    destruct (String.eqb_spec pathname "/mcp"); [contradiction |].
    destruct (String.eqb_spec pathname "/sse"); [contradiction |].
    reflexivity.
Qed.

End WorkerFacts.

Lemma mcp_is_served_only_with_a_url_witness :
  let headers := [("x-weaviate-url", "https://db.example"); ("X-Weaviate-API-Key", "secret")] in
  Env.header "X-Weaviate-URL" headers = Some "https://db.example" /\
  "https://db.example" <> EmptyString /\
  Worker.fetchHandler "/mcp" "POST" headers = Worker.Serve (Env.parseTenantCredentials headers).
Proof.
  assert (Hne : "https://db.example" <> EmptyString) by discriminate.
  split; [reflexivity | split; [exact Hne |]].
  exact (proj2 (proj1 (mcp_is_served_only_with_a_url "/mcp" "POST"
                         [("x-weaviate-url", "https://db.example");
                          ("X-Weaviate-API-Key", "secret")]) _)
           (conj eq_refl (conj eq_refl (conj eq_refl
              (ex_intro _ "https://db.example" (conj eq_refl Hne)))))).
Defined.

(* ------------------------------------------------------------------ *)
(** ** The hybrid clause *)
(* ------------------------------------------------------------------ *)

Section ClauseFacts.
Import JS Entities Client Spec.

(** A key that ends with a colon does not start inside a text without
    colons that is followed by a character the key does not have. *)
Lemma startsWith_guarded (g : ascii) (text rest key : string) :
  has ":" text = false -> endsWithChar ":" key = true -> has g key = false ->
  startsWith (text ++ String g rest) key = false.
Proof.
  revert key. induction text as [| c cs IH]; intros key Htext Hend Hg.
  - destruct key as [| k ks]; [discriminate Hend |].
    simpl in *. apply orb_false_iff in Hg as [Hk _]. now rewrite Hk.
  - destruct key as [| k ks]; [discriminate Hend |].
    simpl in Htext. apply orb_false_iff in Htext as [Hc Hcs].
    simpl in Hg. apply orb_false_iff in Hg as [_ Hks].
    simpl. destruct ks as [| k' ks'].
    + simpl in Hend. apply Ascii.eqb_eq in Hend. subst k.
      rewrite Ascii.eqb_sym, Hc. reflexivity.
    + rewrite (IH (String k' ks') Hcs Hend Hks). apply andb_false_r.
Qed.

Lemma includes_guarded (g : ascii) (text rest key : string) :
  has ":" text = false -> endsWithChar ":" key = true -> has g key = false ->
  includes (String g rest) key = false ->
  includes (text ++ String g rest) key = false.
Proof.
  intros Htext Hend Hg Hrest. induction text as [| c cs IH]; [exact Hrest |].
  change (includes (String c cs ++ String g rest) key)
    with (startsWith (String c cs ++ String g rest) key
          || includes (cs ++ String g rest) key)%bool.
  rewrite (startsWith_guarded _ _ _ _ Htext Hend Hg). simpl in Htext.
  apply orb_false_iff in Htext as [_ Hcs]. now rewrite (IH Hcs).
Qed.

(** X19: a hybrid search without a vector and without properties has
    neither key in its clause, whatever the query (a text without colons),
    the weight and the fusion type are; a weight that is given is written
    into the clause as the number is written, and without one the clause
    has no alpha key. *)
Theorem hybrid_clause_keys :
  forall (query : string) (alpha : option number) (fusionType : option FusionType),
    has ":" query = false ->
    (forall text, alpha = Some (Dec text) -> has ":" text = false) ->
    let clause :=
      hybridClause {| hy_query := query; hy_alpha := alpha; hy_vector := None;
                      hy_properties := None; hy_fusionType := fusionType |} in
    includes clause "vector:" = false /\
    includes clause "properties:" = false /\
    (forall a, alpha = Some a -> includes clause (", alpha: " ++ Number_toString a) = true) /\
    (alpha = None -> includes clause "alpha:" = false).
Proof.
  intros query alpha fusionType Hquery Halpha.
  assert (Hwritten : match alpha with
                     | Some a => has ":" (Number_toString a) = false
                     | None => True
                     end).
  { destruct alpha as [[z | text | [|] |] |]; simpl;
      [apply has_colon_String_of_Z | now apply Halpha | reflexivity ..| exact I]. }
  cbv zeta. unfold hybridClause, plus, char.
  cbn [hy_query hy_alpha hy_vector hy_properties hy_fusionType].
  split; [| split; [| split]].
  - destruct alpha as [a |], fusionType as [[] |]; simpl in *;
      apply includes_guarded; try assumption; try reflexivity; simpl;
      apply includes_guarded; try assumption; reflexivity.
  - destruct alpha as [a |], fusionType as [[] |]; simpl in *;
      apply includes_guarded; try assumption; try reflexivity; simpl;
      apply includes_guarded; try assumption; reflexivity.
  - intros a ->.
    apply (includes_app_r "hybrid: { query: "), (includes_app_r (String dquote "")),
      (includes_app_r query), (includes_app_r (String dquote "")).
    apply includes_app_l.
    change (", " ++ "alpha" ++ ": " ++ Number_toString a)
      with (", alpha: " ++ Number_toString a).
    apply includes_refl.
  - intros ->. destruct fusionType as [[] |]; simpl;
      apply includes_guarded; try assumption; reflexivity.
Qed.

End ClauseFacts.

Lemma hybrid_clause_keys_witness :
  let clause :=
    Client.hybridClause
      (Entities.mkHybridParams "cat" (Some (JS.Dec "0.3")) None None None) in
  Spec.has ":" "cat" = false /\
  Spec.includes clause "vector:" = false /\
  Spec.includes clause ", alpha: 0.3" = true.
Proof.
  assert (Halpha : forall text, Some (JS.Dec "0.3") = Some (JS.Dec text) ->
                                Spec.has ":" text = false).
  { intros text H. injection H as <-. reflexivity. }
  split; [reflexivity | split].
  - exact (proj1 (hybrid_clause_keys "cat" (Some (JS.Dec "0.3")) None eq_refl Halpha)).
  - exact (proj1 (proj2 (proj2 (hybrid_clause_keys "cat" (Some (JS.Dec "0.3")) None
                                  eq_refl Halpha)))
             (JS.Dec "0.3") eq_refl).
Defined.
